(** * PSX capital-gains tax calculator: FIFO ledger, tax rates, corporate actions

    A shallow embedding of the core of the calculator:
    - [FIFOQueue]                (the FIFO lot ledger),
    - [TaxCalculator]            (js/tax-calculator.js),
    - [CorporateActionsManager]  (bonus shares and right issues),
    - the transaction form handler of the main application.

    Conventions of the embedding.
    - A JavaScript number is a rational ([Qc]).  Money values (prices, costs,
      gains, taxes) and sums of share counts are followed exactly.  Where the
      source cuts a product or a quotient to a whole number of shares with
      [Math.floor], the rounding of binary64 can change the count, and the
      operation is rounded as the source rounds it ([roundToDouble]: to the
      nearest binary64 number, ties to even, subnormal numbers included);
      ratios are rounded where [parseFloat] reads them.  [NaN] and the
      infinities are not represented: numbers stay below 2^1024, a ratio
      [n:m] has a divisor that is not zero, and where the source divides a
      money value by zero the statements below carry the hypothesis that
      excludes it.
    - A JavaScript [Date] is its time value, the milliseconds since the epoch
      ([Z]); the local time zone is taken to be UTC.
    - A method that mutates [this] is a computation in a state-and-exception
      monad: a [throw] keeps every mutation made before it.
    - Console output, storage and rendered strings are left out. *)

From Stdlib Require Import ZArith QArith Qcanon Qround Qpower Lia Lqa List Bool Ascii String.
From Stdlib Require Floats Uint63.
From stdpp Require Import gmap strings list fin_maps.
Import ListNotations.
Local Open Scope Qc_scope.

(** ** Numbers *)

Definition Z2Qc (z : Z) : Qc := Q2Qc (inject_Z z).

(** [Math.floor] *)
Definition floor (x : Qc) : Qc := Z2Qc (Qfloor x).

(** *** Binary64

    The exponent of the leading bit of a positive rational: the integer [e]
    with [2^e <= a < 2^(e+1)]. *)
Definition floorLog2 (a : Q) : Z :=
  let e0 := (Z.log2 (Qnum a) - Z.log2 (Zpos (Qden a)))%Z in
  if Qle_bool (Qpower 2 e0) a then e0 else (e0 - 1)%Z.

(** The nearest integer of a rational that is not negative, ties to even. *)
Definition roundHalfEven (x : Q) : Z :=
  let f := Qfloor x in
  match (x - inject_Z f ?= 1 # 2)%Q with
  | Lt => f
  | Gt => (f + 1)%Z
  | Eq => if Z.even f then f else (f + 1)%Z
  end.

(** The binary64 number nearest to a positive rational: 53 significant bits,
    the unit in the last place not below 2^-1074. *)
Definition nearestDouble (a : Q) : Q :=
  (let ulp := Qpower 2 (Z.max (floorLog2 a - 52) (-1074)) in
   inject_Z (roundHalfEven (a / ulp)) * ulp)%Q.

(** The rounding of every arithmetic operation of the source, and of the
    reading of a numeral. *)
Definition roundToDouble (x : Qc) : Qc :=
  match x ?= 0 with
  | Eq => 0
  | Gt => Q2Qc (nearestDouble x)
  | Lt => - Q2Qc (nearestDouble (- x))
  end.

(** [parseFloat] of a decimal numeral. *)
Definition parseFloat (x : Qc) : Qc := roundToDouble x.

(** [x * y], [x / y] and [x + y] on numbers, where the source cuts the result
    with [Math.floor]. *)
Definition mulDouble (x y : Qc) : Qc := roundToDouble (x * y).
Definition divDouble (x y : Qc) : Qc := roundToDouble (x / y).
Definition addDouble (x y : Qc) : Qc := roundToDouble (x + y).

(** The comparisons [x < y], [x <= y] and [x === y] of the source. *)
Definition ltb (x y : Qc) : bool :=
  match x ?= y with Lt => true | _ => false end.
Definition leb (x y : Qc) : bool :=
  match x ?= y with Gt => false | _ => true end.
Definition eqb (x y : Qc) : bool :=
  match x ?= y with Eq => true | _ => false end.

(** [Math.min] and [Math.max] *)
Definition min (x y : Qc) : Qc := if ltb y x then y else x.
Definition max (x y : Qc) : Qc := if ltb x y then y else x.

(** [array.reduce((sum, x) => sum + f(x), 0)] *)
Definition sumOf {A : Type} (f : A -> Qc) (l : list A) : Qc :=
  fold_left (fun sum x => sum + f x) l 0.

(** ** Dates *)

Definition Date := Z.

Definition msPerDay : Z := 1000 * 60 * 60 * 24.

(** Days since the epoch of a time value. *)
Definition dayNumber (d : Date) : Z := (d / msPerDay)%Z.

(** [Date.prototype.getDay]: 0 is Sunday; 1970-01-01 was a Thursday. *)
Definition getDay (d : Date) : Z := ((dayNumber d + 4) mod 7)%Z.

(** Year, month (1 to 12) and day of month of a day number in the proleptic
    Gregorian calendar. *)
Definition civilFromDays (z0 : Z) : Z * Z * Z :=
  (let z := z0 + 719468 in
   let era := z / 146097 in
   let doe := z - era * 146097 in
   let yoe := (doe - doe / 1460 + doe / 36524 - doe / 146096) / 365 in
   let y := yoe + era * 400 in
   let doy := doe - (365 * yoe + yoe / 4 - yoe / 100) in
   let mp := (5 * doy + 2) / 153 in
   let d := doy - (153 * mp + 2) / 5 + 1 in
   let m := if mp <? 10 then mp + 3 else mp - 9 in
   (if m <=? 2 then y + 1 else y, m, d))%Z.

(** [Date.prototype.getFullYear] and [getMonth] (0 is January). *)
Definition getFullYear (d : Date) : Z := fst (fst (civilFromDays (dayNumber d))).
Definition getMonth (d : Date) : Z := (snd (fst (civilFromDays (dayNumber d))) - 1)%Z.

(** ** Strings *)

Definition toUpperAscii (c : ascii) : ascii :=
  let n := nat_of_ascii c in
  if (97 <=? n)%nat && (n <=? 122)%nat then ascii_of_nat (n - 32) else c.

(** [String.prototype.toUpperCase], on ASCII. *)
Fixpoint toUpperCase (s : string) : string :=
  match s with
  | EmptyString => EmptyString
  | String c r => String (toUpperAscii c) (toUpperCase r)
  end.

(** ** Records of the ledger *)

Record Transaction := mkTransaction {
  tx_id : Z;
  tx_type : string;
  tx_symbol : string;
  tx_quantity : Qc;
  tx_price : Qc;
  tx_tradeDate : Date;
  tx_settlementDate : Date;
  tx_totalValue : Qc;
  tx_timestamp : Date
}.

(** The [originalTransaction] of a lot: the buying transaction, or the marker
    object of a right issue ([type: 'RIGHT_ISSUE']). *)
Inductive Origin :=
| OriginTransaction (t : Transaction)
| RIGHT_ISSUE (symbol : string) (exDate : Date)
              (rightRatio rightPrice eligibleShares : Qc).

Record Lot := mkLot {
  quantity : Qc;
  price : Qc;
  purchaseDate : Date;
  remainingQuantity : Qc;
  originalTransaction : Origin
}.

Record HoldingPeriod := mkHoldingPeriod {
  days : Z;
  months : Z;
  years : Z;
  isLongTerm : bool
}.

(** An entry of [lotsUsed]. *)
Record LotUsed := mkLotUsed {
  lu_purchaseDate : Date;
  lu_quantity : Qc;
  costPerShare : Qc;
  costBasis : Qc;
  holdingPeriod : HoldingPeriod
}.

Record SaleResult := mkSaleResult {
  symbol : string;
  quantitySold : Qc;
  sellPrice : Qc;
  saleProceeds : Qc;
  totalCostBasis : Qc;
  capitalGain : Qc;
  lotsUsed : list LotUsed;
  saleDate : Date;
  isSimulation : bool
}.

Record FIFOQueue := mkFIFOQueue {
  holdings : gmap string (list Lot);
  transactions : list Transaction;
  realizedGains : list SaleResult
}.

(** [new FIFOQueue()] *)
Definition newFIFOQueue : FIFOQueue := mkFIFOQueue ∅ [] [].

(** The thrown errors; the message of the source is kept as its data. *)
Inductive Error :=
| NoHoldingsFound (symbol : string)
| InsufficientShares (symbol : string) (requested available : Qc)
| InvalidBonusRatio
| InvalidRightRatio
| InvalidRightPrice
| NoLotsFound (symbol : string)
| NoSharesBeforeExDate (symbol : string) (exDate : Date)
| BonusRatioTooSmall (shares ratio : Qc)
| RightRatioTooSmall (shares ratio : Qc)
| TypeError
| ValidationFailed (message : string)
| AlreadyApplied (symbol : string) (exDate : Date)
| NoHoldingsForAction (symbol : string)
| UnsupportedActionType
| ActionNotFound (actionId : Z)
| AlreadyReversed (actionId : Z)
| SalesAfterAction (count : nat)
| RightLotNotFound
| RightSharesSold (sold : Qc).

(** ** State and exceptions *)

Definition M (S A : Type) : Type := S -> (Error + A) * S.

Definition ret {S A} (a : A) : M S A := fun s => (inr a, s).
Definition throw {S A} (e : Error) : M S A := fun s => (inl e, s).
Definition bind {S A B} (m : M S A) (k : A -> M S B) : M S B :=
  fun s => match m s with
           | (inl e, s') => (inl e, s')
           | (inr a, s') => k a s'
           end.
Definition get {S} : M S S := fun s => (inr s, s).
Definition modify {S} (f : S -> S) : M S unit := fun s => (inr tt, f s).

Notation "x <- m ;; k" := (bind m (fun x => k))
  (at level 100, m at next level, right associativity).
Notation "m ;;; k" := (bind m (fun _ => k))
  (at level 100, right associativity).

(** ** FIFOQueue *)

(** The [while] loop of [calculateSettlementDate]; [fuel] bounds the number
    of iterations. *)
Fixpoint settlementLoop (fuel : nat) (date : Date) (daysAdded : Z) : option Date :=
  if (daysAdded <? 2)%Z then
    match fuel with
    | O => None
    | S fuel' =>
        let date := (date + msPerDay)%Z in
        let dayOfWeek := getDay date in
        if negb (dayOfWeek =? 0)%Z && negb (dayOfWeek =? 6)%Z
        then settlementLoop fuel' date (daysAdded + 1)%Z
        else settlementLoop fuel' date daysAdded
    end
  else Some date.

Definition calculateSettlementDate (tradeDate : Date) : Date :=
  match settlementLoop 4 tradeDate 0 with
  | Some date => date
  | None => tradeDate
  end.

Definition getHoldingPeriod (purchaseDate sellDate : Date) : HoldingPeriod :=
  let diffMs := (sellDate - purchaseDate)%Z in
  let diffDays := (diffMs / msPerDay)%Z in
  let years := (getFullYear sellDate - getFullYear purchaseDate)%Z in
  let months := (getMonth sellDate - getMonth purchaseDate)%Z in
  let '(years, months) :=
    if (months <? 0)%Z then ((years - 1)%Z, (months + 12)%Z) else (years, months) in
  {| days := diffDays;
     months := (months + years * 12)%Z;
     years := years;
     isLongTerm := (365 <=? diffDays)%Z |}.

Definition lotsOf (q : FIFOQueue) (symbol : string) : list Lot :=
  default [] (holdings q !! symbol).

Definition setLots (symbol : string) (lots : list Lot) (q : FIFOQueue) : FIFOQueue :=
  {| holdings := <[symbol := lots]> (holdings q);
     transactions := transactions q;
     realizedGains := realizedGains q |}.

Definition pushTransaction (t : Transaction) (q : FIFOQueue) : FIFOQueue :=
  {| holdings := holdings q;
     transactions := transactions q ++ [t];
     realizedGains := realizedGains q |}.

Definition pushRealizedGain (r : SaleResult) (q : FIFOQueue) : FIFOQueue :=
  {| holdings := holdings q;
     transactions := transactions q;
     realizedGains := realizedGains q ++ [r] |}.

Definition _processBuy (transaction : Transaction) : M FIFOQueue unit :=
  modify (fun q =>
    let lot := {| quantity := tx_quantity transaction;
                  price := tx_price transaction;
                  purchaseDate := tx_settlementDate transaction;
                  remainingQuantity := tx_quantity transaction;
                  originalTransaction := OriginTransaction transaction |} in
    setLots (tx_symbol transaction) (lotsOf q (tx_symbol transaction) ++ [lot]) q).

Definition setRemaining (lot : Lot) (r : Qc) : Lot :=
  {| quantity := quantity lot;
     price := price lot;
     purchaseDate := purchaseDate lot;
     remainingQuantity := r;
     originalTransaction := originalTransaction lot |}.

Definition usedEntry (settlementDate : Date) (lot : Lot) (sharesToTake : Qc) : LotUsed :=
  {| lu_purchaseDate := purchaseDate lot;
     lu_quantity := sharesToTake;
     costPerShare := price lot;
     costBasis := sharesToTake * price lot;
     holdingPeriod := getHoldingPeriod (purchaseDate lot) settlementDate |}.

(** The consuming [for] loop of [_processSell], from index [i] on: [lots] are
    the lots not yet visited; the lots come back with their
    [remainingQuantity] updated in place. *)
Fixpoint sellLoop (settlementDate : Date) (lots : list Lot)
    (remainingToSell : Qc) (lotsUsed : list LotUsed) (totalCostBasis : Qc)
    : list Lot * Qc * list LotUsed * Qc :=
  match lots with
  | [] => ([], remainingToSell, lotsUsed, totalCostBasis)
  | lot :: rest =>
      if ltb 0 remainingToSell then
        let sharesToTake := min (remainingQuantity lot) remainingToSell in
        if ltb 0 sharesToTake then
          let '(rest', r, used, basis) :=
            sellLoop settlementDate rest (remainingToSell - sharesToTake)
              (lotsUsed ++ [usedEntry settlementDate lot sharesToTake])
              (totalCostBasis + sharesToTake * price lot) in
          (setRemaining lot (remainingQuantity lot - sharesToTake) :: rest', r, used, basis)
        else
          let '(rest', r, used, basis) :=
            sellLoop settlementDate rest remainingToSell lotsUsed totalCostBasis in
          (lot :: rest', r, used, basis)
      else (lots, remainingToSell, lotsUsed, totalCostBasis)
  end.

Definition _processSell (transaction : Transaction) : M FIFOQueue SaleResult :=
  let symbol := tx_symbol transaction in
  let quantity := tx_quantity transaction in
  let price := tx_price transaction in
  let settlementDate := tx_settlementDate transaction in
  q <- get ;;
  match holdings q !! symbol with
  | None | Some [] => throw (NoHoldingsFound symbol)
  | Some lots =>
      let totalAvailable := sumOf remainingQuantity lots in
      if ltb totalAvailable quantity then
        throw (InsufficientShares symbol quantity totalAvailable)
      else
        let '(lots', _, lotsUsed, totalCostBasis) :=
          sellLoop settlementDate lots quantity [] 0 in
        modify (setLots symbol
                  (List.filter (fun lot => ltb 0 (remainingQuantity lot)) lots')) ;;;
        let saleProceeds := quantity * price in
        let capitalGain := saleProceeds - totalCostBasis in
        let saleResult :=
          {| symbol := symbol;
             quantitySold := quantity;
             sellPrice := price;
             saleProceeds := saleProceeds;
             totalCostBasis := totalCostBasis;
             capitalGain := capitalGain;
             lotsUsed := lotsUsed;
             saleDate := settlementDate;
             isSimulation := false |} in
        modify (pushRealizedGain saleResult) ;;;
        ret saleResult
  end.

(** [addTransaction]; [now] is the value of [new Date()] for the timestamp.
    A BUY returns the transaction, a SELL the sale result. *)
Definition addTransaction (type symbol : string) (quantity price : Qc)
    (date now : Date) : M FIFOQueue (Transaction + SaleResult) :=
  q <- get ;;
  let tradeDate := date in
  let settlementDate := calculateSettlementDate tradeDate in
  let transaction :=
    {| tx_id := (Z.of_nat (length (transactions q)) + 1)%Z;
       tx_type := toUpperCase type;
       tx_symbol := toUpperCase symbol;
       tx_quantity := quantity;
       tx_price := price;
       tx_tradeDate := tradeDate;
       tx_settlementDate := settlementDate;
       tx_totalValue := quantity * price;
       tx_timestamp := now |} in
  if String.eqb (toUpperCase type) "BUY" then
    _processBuy transaction ;;;
    modify (pushTransaction transaction) ;;;
    ret (inl transaction)
  else if String.eqb (toUpperCase type) "SELL" then
    r <- _processSell transaction ;;
    ret (inr r)
  else
    modify (pushTransaction transaction) ;;;
    ret (inl transaction).

(** The simulating [for] loop of [calculateSale]: it reads the lots and
    writes none. *)
Fixpoint simulateLoop (settlementDate : Date) (lots : list Lot)
    (remainingToSell : Qc) (lotsUsed : list LotUsed) (totalCostBasis : Qc)
    : Qc * list LotUsed * Qc :=
  match lots with
  | [] => (remainingToSell, lotsUsed, totalCostBasis)
  | lot :: rest =>
      if ltb 0 remainingToSell then
        let sharesToTake := min (remainingQuantity lot) remainingToSell in
        if ltb 0 sharesToTake then
          simulateLoop settlementDate rest (remainingToSell - sharesToTake)
            (lotsUsed ++ [usedEntry settlementDate lot sharesToTake])
            (totalCostBasis + sharesToTake * price lot)
        else
          simulateLoop settlementDate rest remainingToSell lotsUsed totalCostBasis
      else (remainingToSell, lotsUsed, totalCostBasis)
  end.

Definition calculateSale (symbol0 : string) (quantity sellPrice : Qc)
    (sellDate : Date) : M FIFOQueue SaleResult :=
  let symbol := toUpperCase symbol0 in
  let settlementDate := calculateSettlementDate sellDate in
  q <- get ;;
  match holdings q !! symbol with
  | None | Some [] => throw (NoHoldingsFound symbol)
  | Some lots =>
      let totalAvailable := sumOf remainingQuantity lots in
      if ltb totalAvailable quantity then
        throw (InsufficientShares symbol quantity totalAvailable)
      else
        let '(_, lotsUsed, totalCostBasis) :=
          simulateLoop settlementDate lots quantity [] 0 in
        let saleProceeds := quantity * sellPrice in
        let capitalGain := saleProceeds - totalCostBasis in
        ret {| symbol := symbol;
               quantitySold := quantity;
               sellPrice := sellPrice;
               saleProceeds := saleProceeds;
               totalCostBasis := totalCostBasis;
               capitalGain := capitalGain;
               lotsUsed := lotsUsed;
               saleDate := settlementDate;
               isSimulation := true |}
  end.

(** The summary of one symbol in [getHoldings]. *)
Record HoldingSummary := mkHoldingSummary {
  totalQuantity : Qc;
  averageCost : Qc;
  hs_totalCostBasis : Qc;
  hs_lots : list (Qc * Qc * Date * Qc)
}.

Definition summarize (lots : list Lot) : option HoldingSummary :=
  let totalQuantity := sumOf remainingQuantity lots in
  if ltb 0 totalQuantity then
    let totalValue := sumOf (fun lot => remainingQuantity lot * price lot) lots in
    Some {| totalQuantity := totalQuantity;
            averageCost := totalValue / totalQuantity;
            hs_totalCostBasis := totalValue;
            hs_lots := map (fun lot => (remainingQuantity lot, price lot, purchaseDate lot,
                                        remainingQuantity lot * price lot)) lots |}
  else None.

Definition getHoldings (q : FIFOQueue) : gmap string HoldingSummary :=
  omap summarize (holdings q).

(** ** TaxCalculator *)

(** [new Date('2024-07-01')] *)
Definition newRegimeCutoff : Date := 1719792000000%Z.

Record LegacyRates := mkLegacyRates {
  lessThan1Year : Qc;
  oneToTwoYears : Qc;
  twoToThreeYears : Qc;
  threeToFourYears : Qc;
  fourPlusYears : Qc
}.

Definition taxRates_filer_default : Qc := Q2Qc 0.15.
Definition taxRates_nonFiler_default : Qc := Q2Qc 0.15.

Definition legacyRates_filer : LegacyRates :=
  {| lessThan1Year := Q2Qc 0.15;
     oneToTwoYears := Q2Qc 0.125;
     twoToThreeYears := Q2Qc 0.10;
     threeToFourYears := Q2Qc 0.075;
     fourPlusYears := Q2Qc 0.00 |}.

Definition legacyRates_nonFiler : LegacyRates :=
  {| lessThan1Year := Q2Qc 0.15;
     oneToTwoYears := Q2Qc 0.15;
     twoToThreeYears := Q2Qc 0.15;
     threeToFourYears := Q2Qc 0.15;
     fourPlusYears := Q2Qc 0.15 |}.

(** [getTaxRate]; [isFiler] is the field of the calculator. *)
Definition getTaxRate (isFiler : bool) (purchaseDate : Date) (holdingDays : Z) : Qc :=
  if (newRegimeCutoff <=? purchaseDate)%Z then
    if isFiler then taxRates_filer_default else taxRates_nonFiler_default
  else
    let rates := if isFiler then legacyRates_filer else legacyRates_nonFiler in
    if (holdingDays <? 365)%Z then lessThan1Year rates
    else if (holdingDays <? 730)%Z then oneToTwoYears rates
    else if (holdingDays <? 1095)%Z then twoToThreeYears rates
    else if (holdingDays <? 1460)%Z then threeToFourYears rates
    else fourPlusYears rates.

(** An entry of [taxByLot]. *)
Record LotTax := mkLotTax {
  lt_purchaseDate : Date;
  lt_quantity : Qc;
  lt_costPerShare : Qc;
  lt_sellPrice : Qc;
  gain : Qc;
  lt_taxableGain : Qc;
  taxRate : Qc;
  tax : Qc;
  lt_holdingPeriod : HoldingPeriod
}.

Record TaxResult := mkTaxResult {
  tr_symbol : string;
  tr_quantitySold : Qc;
  tr_saleProceeds : Qc;
  tr_totalCostBasis : Qc;
  tr_capitalGain : Qc;
  taxableGain : Qc;
  totalTax : Qc;
  netProfit : Qc;
  effectiveTaxRate : Qc;
  taxByLot : list LotTax;
  tr_saleDate : Date;
  tr_isFiler : bool
}.

(** The body of the [for] loop of [calculateTaxForSale] for one lot. *)
Definition lotTaxEntry (isFiler : bool) (sellPrice : Qc) (lot : LotUsed) : LotTax :=
  let taxRate := getTaxRate isFiler (lu_purchaseDate lot) (days (holdingPeriod lot)) in
  let lotGain := (sellPrice - costPerShare lot) * lu_quantity lot in
  let taxableGain := max 0 lotGain in
  let lotTax := taxableGain * taxRate in
  {| lt_purchaseDate := lu_purchaseDate lot;
     lt_quantity := lu_quantity lot;
     lt_costPerShare := costPerShare lot;
     lt_sellPrice := sellPrice;
     gain := lotGain;
     lt_taxableGain := taxableGain;
     taxRate := taxRate;
     tax := lotTax;
     lt_holdingPeriod := holdingPeriod lot |}.

Definition calculateTaxForSale (isFiler : bool) (saleResult : SaleResult) : TaxResult :=
  let '(taxByLot, totalTax) :=
    fold_left
      (fun '(taxByLot, totalTax) lot =>
         let entry := lotTaxEntry isFiler (sellPrice saleResult) lot in
         (taxByLot ++ [entry], totalTax + tax entry))
      (lotsUsed saleResult) ([], 0) in
  {| tr_symbol := symbol saleResult;
     tr_quantitySold := quantitySold saleResult;
     tr_saleProceeds := saleProceeds saleResult;
     tr_totalCostBasis := totalCostBasis saleResult;
     tr_capitalGain := capitalGain saleResult;
     taxableGain := max 0 (capitalGain saleResult);
     totalTax := totalTax;
     netProfit := capitalGain saleResult - totalTax;
     effectiveTaxRate :=
       if ltb 0 (capitalGain saleResult) then totalTax / capitalGain saleResult else 0;
     taxByLot := taxByLot;
     tr_saleDate := saleDate saleResult;
     tr_isFiler := isFiler |}.

(** ** CorporateActionsManager *)

(** The [ratio] of the details of an action, as the caller passes it.  The
    numbers of a string are the decimals written in it; in ["rights:held"]
    the divisor is read as a number other than zero (with zero the source
    goes on with an infinity or with [NaN]). *)
Inductive RatioInput :=
| RatioPercent (p : Qc)          (* the string "p%" *)
| RatioColon (rights held : Qc) (heldNotZero : parseFloat held <> 0)
                                 (* the string "rights:held" *)
| RatioNumeral (r : Qc)          (* a string holding a decimal *)
| RatioNumber (r : Qc)           (* a number *)
| RatioAbsent.                   (* undefined, or the empty string *)

Record Details := mkDetails {
  d_ratio : RatioInput;
  d_price : option Qc;
  d_exDate : option Date;
  d_subscriptionDate : option Date
}.

Inductive ActionResult :=
| BonusResult (oldShares bonusShares newTotalShares oldAvgCost newAvgCost
               costBasis bonusRatio : Qc)
| RightResult (eligibleShares rightSharesEntitled rightPrice rightRatio totalCost
               newTotalShares newAvgCost newTotalCostBasis : Qc) (purchaseDate : Date).

Record ActionRecord := mkActionRecord {
  ca_id : Z;
  ca_symbol : string;
  ca_type : string;
  ca_details : Details;
  ca_exDate : Date;
  appliedDate : Date;
  applied : bool;
  ca_result : ActionResult;
  reversedDate : option Date
}.

Record CorporateActionsManager := mkManager {
  fifoQueue : FIFOQueue;
  corporateActions : list ActionRecord
}.

Definition withQueue (f : FIFOQueue -> FIFOQueue) (m : CorporateActionsManager)
    : CorporateActionsManager :=
  {| fifoQueue := f (fifoQueue m); corporateActions := corporateActions m |}.

(** The ratio read by [_applyBonusShares]: [parseFloat] stops at the first
    character that is not part of a number; [None] is [NaN]. *)
Definition parseBonusRatio (ratio : RatioInput) : option Qc :=
  match ratio with
  | RatioPercent p => Some (divDouble (parseFloat p) (Z2Qc 100))
  | RatioColon rights _ _ => Some (parseFloat rights)
  | RatioNumeral r => Some (parseFloat r)
  | RatioNumber r => Some (parseFloat r)
  | RatioAbsent => None
  end.

(** The ratio read by [_applyRightIssue]. *)
Definition parseRightRatio (ratio : RatioInput) : option Qc :=
  match ratio with
  | RatioColon rights held _ => Some (divDouble (parseFloat rights) (parseFloat held))
  | RatioPercent p => Some (parseFloat p)
  | RatioNumeral r => Some (parseFloat r)
  | RatioNumber r => Some (parseFloat r)
  | RatioAbsent => None
  end.

(** [lot.purchaseDate < exDateObj] *)
Definition eligible (exDate : Date) (lot : Lot) : bool :=
  (purchaseDate lot <? exDate)%Z.

(** [for (const lot of lots) if (eligible) total += f(lot)] *)
Definition sumEligible (exDate : Date) (f : Lot -> Qc) (lots : list Lot) : Qc :=
  fold_left (fun total lot => if eligible exDate lot then total + f lot else total) lots 0.

(** The adjustment of one lot in the second loop of [_applyBonusShares].  For
    a lot left without shares the source divides zero by zero and the price
    is [NaN]. *)
Definition adjustBonusLot (exDate : Date) (bonusRatio : Qc) (lot : Lot) : Lot :=
  if eligible exDate lot then
    let oldQuantity := remainingQuantity lot in
    let bonusForThisLot := floor (mulDouble oldQuantity bonusRatio) in
    let newRemaining := oldQuantity + bonusForThisLot in
    {| quantity := quantity lot;
       price := (oldQuantity * price lot) / newRemaining;
       purchaseDate := purchaseDate lot;
       remainingQuantity := newRemaining;
       originalTransaction := originalTransaction lot |}
  else lot.

Definition _applyBonusShares (symbol : string) (details : Details) (exDate : Date)
    : M CorporateActionsManager ActionResult :=
  match parseBonusRatio (d_ratio details) with
  | None => throw InvalidBonusRatio
  | Some bonusRatio =>
    if leb bonusRatio 0 || ltb 1 bonusRatio then throw InvalidBonusRatio else
    m <- get ;;
    match holdings (fifoQueue m) !! symbol with
    | None | Some [] => throw (NoLotsFound symbol)
    | Some lots =>
      let totalOldShares := sumEligible exDate remainingQuantity lots in
      let totalCostBasis :=
        sumEligible exDate (fun lot => remainingQuantity lot * price lot) lots in
      if eqb totalOldShares 0 then throw (NoSharesBeforeExDate symbol exDate) else
      let totalBonusShares := floor (mulDouble totalOldShares bonusRatio) in
      if eqb totalBonusShares 0 then throw (BonusRatioTooSmall totalOldShares bonusRatio) else
      let totalNewShares := totalOldShares + totalBonusShares in
      let newAvgCost := totalCostBasis / totalNewShares in
      modify (withQueue (setLots symbol (map (adjustBonusLot exDate bonusRatio) lots))) ;;;
      ret (BonusResult totalOldShares totalBonusShares totalNewShares
             (totalCostBasis / totalOldShares) newAvgCost totalCostBasis bonusRatio)
    end
  end.

Definition _applyRightIssue (symbol : string) (details : Details) (exDate : Date)
    : M CorporateActionsManager ActionResult :=
  match parseRightRatio (d_ratio details) with
  | None => throw InvalidRightRatio
  | Some rightRatio =>
    if leb rightRatio 0 then throw InvalidRightRatio else
    match d_price details with
    | None => throw InvalidRightPrice
    | Some rightPrice =>
      if leb rightPrice 0 then throw InvalidRightPrice else
      m <- get ;;
      match holdings (fifoQueue m) !! symbol with
      | None | Some [] => throw (NoLotsFound symbol)
      | Some lots =>
        let eligibleShares := sumEligible exDate remainingQuantity lots in
        if eqb eligibleShares 0 then throw (NoSharesBeforeExDate symbol exDate) else
        let rightSharesEntitled := floor (mulDouble eligibleShares rightRatio) in
        if eqb rightSharesEntitled 0
        then throw (RightRatioTooSmall eligibleShares rightRatio) else
        let purchaseDate :=
          match d_subscriptionDate details with
          | Some subscriptionDate => subscriptionDate
          | None => (exDate + 30 * 24 * 60 * 60 * 1000)%Z
          end in
        let newLot :=
          {| quantity := rightSharesEntitled;
             price := rightPrice;
             purchaseDate := purchaseDate;
             remainingQuantity := rightSharesEntitled;
             originalTransaction :=
               RIGHT_ISSUE symbol exDate rightRatio rightPrice eligibleShares |} in
        modify (withQueue (setLots symbol (lots ++ [newLot]))) ;;;
        m' <- get ;;
        match getHoldings (fifoQueue m') !! symbol with
        | None => throw TypeError
        | Some updatedHolding =>
          ret (RightResult eligibleShares rightSharesEntitled rightPrice rightRatio
                 (rightSharesEntitled * rightPrice)
                 (totalQuantity updatedHolding) (averageCost updatedHolding)
                 (hs_totalCostBasis updatedHolding) purchaseDate)
        end
      end
    end
  end.

(** [!details.ratio] and [!details.price] *)
Definition ratioMissing (ratio : RatioInput) : bool :=
  match ratio with
  | RatioAbsent => true
  | RatioNumber r => eqb (parseFloat r) 0
  | _ => false
  end.

Definition priceMissing (price : option Qc) : bool :=
  match price with
  | None => true
  | Some p => eqb p 0
  end.

(** [_validateInputs]; it returns the parsed ex-date. *)
Definition _validateInputs (symbol actionType : string) (details : Details)
    : M CorporateActionsManager Date :=
  if String.eqb symbol "" then throw (ValidationFailed "Symbol is required and must be a string")
  else if negb (String.eqb actionType "BONUS" || String.eqb actionType "RIGHT")
  then throw (ValidationFailed "Action type must be BONUS or RIGHT")
  else match d_exDate details with
  | None => throw (ValidationFailed "Ex-date is required in details")
  | Some exDate =>
    if String.eqb actionType "BONUS" && ratioMissing (d_ratio details)
    then throw (ValidationFailed "Bonus ratio is required")
    else if String.eqb actionType "RIGHT" && ratioMissing (d_ratio details)
    then throw (ValidationFailed "Right ratio is required")
    else if String.eqb actionType "RIGHT" && priceMissing (d_price details)
    then throw (ValidationFailed "Right issue price is required")
    else ret exDate
  end.

Definition _isActionAlreadyApplied (actions : list ActionRecord)
    (symbol actionType : string) (exDate : Date) : bool :=
  existsb (fun action =>
             String.eqb (ca_symbol action) symbol &&
             String.eqb (ca_type action) actionType &&
             (ca_exDate action =? exDate)%Z &&
             applied action) actions.

Definition pushAction (a : ActionRecord) (m : CorporateActionsManager)
    : CorporateActionsManager :=
  {| fifoQueue := fifoQueue m; corporateActions := corporateActions m ++ [a] |}.

(** [applyCorporateAction]; [now] is the value of [new Date()]. *)
Definition applyCorporateAction (symbol0 actionType0 : string) (details : Details)
    (now : Date) : M CorporateActionsManager ActionRecord :=
  let symbol := toUpperCase symbol0 in
  let actionType := toUpperCase actionType0 in
  exDate <- _validateInputs symbol actionType details ;;
  m <- get ;;
  if _isActionAlreadyApplied (corporateActions m) symbol actionType exDate
  then throw (AlreadyApplied symbol exDate) else
  match getHoldings (fifoQueue m) !! symbol with
  | None => throw (NoHoldingsForAction symbol)
  | Some _ =>
    result <- (if String.eqb actionType "BONUS" then _applyBonusShares symbol details exDate
               else if String.eqb actionType "RIGHT" then _applyRightIssue symbol details exDate
               else throw UnsupportedActionType) ;;
    m' <- get ;;
    let actionRecord :=
      {| ca_id := (Z.of_nat (length (corporateActions m')) + 1)%Z;
         ca_symbol := symbol;
         ca_type := actionType;
         ca_details := details;
         ca_exDate := exDate;
         appliedDate := now;
         applied := true;
         ca_result := result;
         reversedDate := None |} in
    modify (pushAction actionRecord) ;;;
    ret actionRecord
  end.

(** The adjustment of one lot in the loop of [_reverseBonusShares].  For an
    original quantity of zero the source divides by zero and the price is an
    infinity or [NaN]. *)
Definition reverseBonusLot (exDate : Date) (bonusRatio : Qc) (lot : Lot) : Lot :=
  if eligible exDate lot then
    let currentQuantity := remainingQuantity lot in
    let originalQuantity :=
      floor (divDouble currentQuantity (addDouble 1 bonusRatio)) in
    {| quantity := quantity lot;
       price := (currentQuantity * price lot) / originalQuantity;
       purchaseDate := purchaseDate lot;
       remainingQuantity := originalQuantity;
       originalTransaction := originalTransaction lot |}
  else lot.

(** [_reverseBonusShares].  A record whose details hold no ex-date compares
    every lot with an invalid date, so that no lot is adjusted; a BONUS record
    without a bonus result is not made by [applyCorporateAction]. *)
Definition _reverseBonusShares (action : ActionRecord) : M CorporateActionsManager unit :=
  match ca_result action with
  | BonusResult _ _ _ _ _ _ bonusRatio =>
    m <- get ;;
    match holdings (fifoQueue m) !! ca_symbol action with
    | None => throw (NoLotsFound (ca_symbol action))
    | Some lots =>
      match d_exDate (ca_details action) with
      | Some exDate =>
        modify (withQueue (setLots (ca_symbol action)
                             (map (reverseBonusLot exDate bonusRatio) lots)))
      | None => ret tt
      end
    end
  | RightResult _ _ _ _ _ _ _ _ _ => throw TypeError
  end.

(** [array.findIndex] *)
Fixpoint findIndex {A : Type} (p : A -> bool) (l : list A) : option nat :=
  match l with
  | [] => None
  | x :: r => if p x then Some O else option_map S (findIndex p r)
  end.

(** [array.splice(i, 1)] *)
Fixpoint splice1 {A : Type} (i : nat) (l : list A) : list A :=
  match l, i with
  | [], _ => []
  | _ :: r, O => r
  | x :: r, S i' => x :: splice1 i' r
  end.

Definition isRightLot (rightPurchaseDate : Date) (rightSharesEntitled : Qc) (lot : Lot)
    : bool :=
  match originalTransaction lot with
  | RIGHT_ISSUE _ _ _ _ _ =>
      (purchaseDate lot =? rightPurchaseDate)%Z && eqb (quantity lot) rightSharesEntitled
  | OriginTransaction _ => false
  end.

Definition _reverseRightIssue (action : ActionRecord) : M CorporateActionsManager unit :=
  match ca_result action with
  | RightResult _ rightSharesEntitled _ _ _ _ _ _ purchaseDate =>
    m <- get ;;
    match holdings (fifoQueue m) !! ca_symbol action with
    | None => throw (NoLotsFound (ca_symbol action))
    | Some lots =>
      match findIndex (isRightLot purchaseDate rightSharesEntitled) lots with
      | None => throw RightLotNotFound
      | Some rightLotIndex =>
        match nth_error lots rightLotIndex with
        | None => throw TypeError
        | Some rightLot =>
          if negb (eqb (remainingQuantity rightLot) (quantity rightLot))
          then throw (RightSharesSold (quantity rightLot - remainingQuantity rightLot))
          else modify (withQueue (setLots (ca_symbol action) (splice1 rightLotIndex lots)))
        end
      end
    end
  | BonusResult _ _ _ _ _ _ _ => throw TypeError
  end.

(** [action.applied = false; action.reversedDate = new Date()] on the record
    that [find] returned: the first one with the id. *)
Fixpoint markReversed (actionId : Z) (now : Date) (actions : list ActionRecord)
    : list ActionRecord :=
  match actions with
  | [] => []
  | a :: r =>
      if (ca_id a =? actionId)%Z then
        {| ca_id := ca_id a; ca_symbol := ca_symbol a; ca_type := ca_type a;
           ca_details := ca_details a; ca_exDate := ca_exDate a;
           appliedDate := appliedDate a; applied := false;
           ca_result := ca_result a; reversedDate := Some now |} :: r
      else a :: markReversed actionId now r
  end.

Definition reverseCorporateAction (actionId : Z) (now : Date)
    : M CorporateActionsManager unit :=
  m <- get ;;
  match find (fun a => (ca_id a =? actionId)%Z) (corporateActions m) with
  | None => throw (ActionNotFound actionId)
  | Some action =>
    if negb (applied action) then throw (AlreadyReversed actionId) else
    let salesAfterAction :=
      List.filter (fun gain => String.eqb (symbol gain) (ca_symbol action) &&
                               (appliedDate action <? saleDate gain)%Z)
                  (realizedGains (fifoQueue m)) in
    if (0 <? length salesAfterAction)%nat
    then throw (SalesAfterAction (length salesAfterAction)) else
    (if String.eqb (ca_type action) "BONUS" then _reverseBonusShares action
     else if String.eqb (ca_type action) "RIGHT" then _reverseRightIssue action
     else ret tt) ;;;
    modify (fun m' => {| fifoQueue := fifoQueue m';
                         corporateActions := markReversed actionId now (corporateActions m') |})
  end.

(** ** The transaction form of the application *)

(** What [showMessage] is called with. *)
Inductive Message :=
| PleaseFillAllFields
| AddedBuy (quantity : Qc) (symbol : string) (price : Qc)
| AddedSell (quantity : Qc) (symbol : string) (price capitalGain : Qc)
| ErrorMessage (e : Error).

(** [handleAddTransaction]: the values read from the form are its arguments
    ([tradeDate] is [None] for an empty date field); it returns the message
    shown and the ledger. *)
Definition handleAddTransaction (type symbol0 : string) (quantity price : Qc)
    (tradeDate : option Date) (now : Date) (q : FIFOQueue) : Message * FIFOQueue :=
  let symbol := toUpperCase symbol0 in
  match tradeDate with
  | None => (PleaseFillAllFields, q)
  | Some date =>
    if String.eqb symbol "" || leb quantity 0 || leb price 0
    then (PleaseFillAllFields, q)
    else
      match addTransaction type symbol quantity price date now q with
      | (inl e, q') => (ErrorMessage e, q')
      | (inr result, q') =>
          if String.eqb type "BUY" then (AddedBuy quantity symbol price, q')
          else match result with
               | inr sale => (AddedSell quantity symbol price (capitalGain sale), q')
               | inl _ => (ErrorMessage TypeError, q')
               end
      end
  end.


(** ** More of FIFOQueue *)

(** An entry of the [lots] of [getCostBasisForSale]. *)
Record CostLot := mkCostLot {
  cl_quantity : Qc;
  cl_costPerShare : Qc;
  cl_totalCost : Qc;
  cl_purchaseDate : Date
}.

Record CostBasis := mkCostBasis {
  totalCost : Qc;
  avgCost : Qc;
  cb_lots : list CostLot
}.

(** The [for] loop of [getCostBasisForSale]. *)
Fixpoint costLoop (lots : list Lot) (remainingToSell : Qc) (totalCost : Qc)
    (acc : list CostLot) : Qc * list CostLot :=
  match lots with
  | [] => (totalCost, acc)
  | lot :: rest =>
      if ltb 0 remainingToSell then
        let sharesToTake := min (remainingQuantity lot) remainingToSell in
        if ltb 0 sharesToTake then
          let cost := sharesToTake * price lot in
          costLoop rest (remainingToSell - sharesToTake) (totalCost + cost)
            (acc ++ [{| cl_quantity := sharesToTake;
                        cl_costPerShare := price lot;
                        cl_totalCost := cost;
                        cl_purchaseDate := purchaseDate lot |}])
        else costLoop rest remainingToSell totalCost acc
      else (totalCost, acc)
  end.

(** [getCostBasisForSale]: it reads the ledger and throws nothing. *)
Definition getCostBasisForSale (q : FIFOQueue) (symbol0 : string) (quantity : Qc)
    : CostBasis :=
  let symbol := toUpperCase symbol0 in
  match holdings q !! symbol with
  | None => {| totalCost := 0; avgCost := 0; cb_lots := [] |}
  | Some lots =>
      let '(totalCost, lots') := costLoop lots quantity 0 [] in
      {| totalCost := totalCost;
         avgCost := if ltb 0 quantity then totalCost / quantity else 0;
         cb_lots := lots' |}
  end.

(** ** More of TaxCalculator *)

(** [Math.abs] *)
Definition abs (x : Qc) : Qc := if ltb x 0 then - x else x.

Record AggregateTax := mkAggregateTax {
  totalGains : Qc;
  totalLosses : Qc;
  netGain : Qc;
  ag_totalTax : Qc;
  netProfitAfterTax : Qc;
  ag_effectiveTaxRate : Qc;
  salesCount : nat;
  salesWithTax : list TaxResult;
  ag_isFiler : bool;
  calculationDate : Date
}.

(** The body of the [for] loop of [calculateAggregateTax]. *)
Definition aggregateStep (isFiler : bool)
    (acc : Qc * Qc * Qc * list TaxResult) (sale : SaleResult)
    : Qc * Qc * Qc * list TaxResult :=
  let '(totalGains, totalLosses, totalTax0, salesWithTax) := acc in
  let taxCalc := calculateTaxForSale isFiler sale in
  let '(totalGains, totalLosses) :=
    if ltb 0 (tr_capitalGain taxCalc)
    then (totalGains + tr_capitalGain taxCalc, totalLosses)
    else (totalGains, totalLosses + abs (tr_capitalGain taxCalc)) in
  (totalGains, totalLosses, totalTax0 + totalTax taxCalc, salesWithTax ++ [taxCalc]).

(** [calculateAggregateTax]; [now] is the value of [new Date()]. *)
Definition calculateAggregateTax (isFiler : bool) (salesResults : list SaleResult)
    (now : Date) : AggregateTax :=
  let '(totalGains, totalLosses, totalTax0, salesWithTax) :=
    fold_left (aggregateStep isFiler) salesResults (0, 0, 0, []) in
  let netGain := totalGains - totalLosses in
  {| totalGains := totalGains;
     totalLosses := totalLosses;
     netGain := netGain;
     ag_totalTax := totalTax0;
     netProfitAfterTax := netGain - totalTax0;
     ag_effectiveTaxRate := if ltb 0 netGain then totalTax0 / netGain else 0;
     salesCount := length salesResults;
     salesWithTax := salesWithTax;
     ag_isFiler := isFiler;
     calculationDate := now |}.

Record DelayBenefit := mkDelayBenefit {
  currentTax : Qc;
  delayedTax : Qc;
  taxSavings : Qc;
  savingsPercentage : Qc;
  daysToDelay : Z;
  delayedSaleDate : Date;
  recommendDelay : bool   (* which of the two recommendation texts *)
}.

(** The lot of [delayedResult.lotsUsed] for a lot of the sale. *)
Definition delayLot (daysToDelay : Z) (lot : LotUsed) : LotUsed :=
  let newHoldingDays := (days (holdingPeriod lot) + daysToDelay)%Z in
  {| lu_purchaseDate := lu_purchaseDate lot;
     lu_quantity := lu_quantity lot;
     costPerShare := costPerShare lot;
     costBasis := costBasis lot;
     holdingPeriod :=
       {| days := newHoldingDays;
          months := months (holdingPeriod lot);
          years := years (holdingPeriod lot);
          isLongTerm := (365 <=? newHoldingDays)%Z |} |}.

Definition delaySale (daysToDelay : Z) (saleResult : SaleResult) : SaleResult :=
  {| symbol := symbol saleResult;
     quantitySold := quantitySold saleResult;
     sellPrice := sellPrice saleResult;
     saleProceeds := saleProceeds saleResult;
     totalCostBasis := totalCostBasis saleResult;
     capitalGain := capitalGain saleResult;
     lotsUsed := map (delayLot daysToDelay) (lotsUsed saleResult);
     saleDate := (saleDate saleResult + daysToDelay * msPerDay)%Z;
     isSimulation := isSimulation saleResult |}.

Definition analyzeDelayBenefit (isFiler : bool) (saleResult : SaleResult)
    (daysToDelay : Z) : DelayBenefit :=
  let currentTaxCalc := calculateTaxForSale isFiler saleResult in
  let delayedResult := delaySale daysToDelay saleResult in
  let delayedTaxCalc := calculateTaxForSale isFiler delayedResult in
  let taxSavings := totalTax currentTaxCalc - totalTax delayedTaxCalc in
  {| currentTax := totalTax currentTaxCalc;
     delayedTax := totalTax delayedTaxCalc;
     taxSavings := taxSavings;
     savingsPercentage :=
       if ltb 0 (totalTax currentTaxCalc)
       then taxSavings / totalTax currentTaxCalc * Z2Qc 100 else 0;
     daysToDelay := daysToDelay;
     delayedSaleDate := saleDate delayedResult;
     recommendDelay := ltb 0 taxSavings |}.

(** ** WhatIfScenarios *)

Record StatusTax := mkStatusTax {
  st_tax : Qc;
  st_netProfit : Qc;
  st_effectiveRate : Qc
}.

Record FilerComparison := mkFilerComparison {
  fc_symbol : string;
  fc_capitalGain : Qc;
  filer : StatusTax;
  nonFiler : StatusTax;
  taxDifference : Qc;
  savingsByBeingFiler : Qc;
  filerSaves : bool   (* which of the two recommendation texts *)
}.

(** [compareFilerStatus]: the state is the [isFiler] field of the tax
    calculator, set three times by [setFilerStatus]. *)
Definition compareFilerStatus (saleResult : SaleResult) (isFiler : bool)
    : FilerComparison * bool :=
  let originalStatus := isFiler in
  let isFiler := true in
  let filerTax := calculateTaxForSale isFiler saleResult in
  let isFiler := false in
  let nonFilerTax := calculateTaxForSale isFiler saleResult in
  let isFiler := originalStatus in
  let taxDifference := totalTax nonFilerTax - totalTax filerTax in
  ({| fc_symbol := symbol saleResult;
      fc_capitalGain := capitalGain saleResult;
      filer := {| st_tax := totalTax filerTax;
                  st_netProfit := netProfit filerTax;
                  st_effectiveRate := effectiveTaxRate filerTax |};
      nonFiler := {| st_tax := totalTax nonFilerTax;
                     st_netProfit := netProfit nonFilerTax;
                     st_effectiveRate := effectiveTaxRate nonFilerTax |};
      taxDifference := taxDifference;
      savingsByBeingFiler := taxDifference;
      filerSaves := ltb 0 taxDifference |},
   isFiler).

Record Scenario := mkScenario {
  sc_date : Date;
  daysFromNow : Z;
  sc_tax : Qc;
  sc_netProfit : Qc;
  sc_effectiveTaxRate : Qc;
  sc_taxSavings : option Qc   (* absent in the scenario of today *)
}.

Record TimingAnalysis := mkTimingAnalysis {
  ta_symbol : string;
  ta_quantity : Qc;
  currentPrice : Qc;
  scenarios : list Scenario;
  optimal : Scenario;
  savingsPotential : Qc;
  sellNow : bool   (* which of the two recommendation texts *)
}.

(** The delays of [analyzeOptimalTiming], in days. *)
Definition delays : list Z := [30; 90; 180; 365]%Z.

(** The body of the loop over the delays: a scenario that cannot be
    calculated is left out. *)
Definition pushFutureScenario (isFiler : bool) (symbol0 : string)
    (quantity currentPrice : Qc) (today : Date) (taxToday : TaxResult)
    (st : list Scenario * FIFOQueue) (days : Z) : list Scenario * FIFOQueue :=
  let '(scenarios, q) := st in
  let futureDate := (today + days * msPerDay)%Z in
  match calculateSale symbol0 quantity currentPrice futureDate q with
  | (inr sellFuture, q') =>
      let taxFuture := calculateTaxForSale isFiler sellFuture in
      (scenarios ++ [{| sc_date := futureDate;
                        daysFromNow := days;
                        sc_tax := totalTax taxFuture;
                        sc_netProfit := netProfit taxFuture;
                        sc_effectiveTaxRate := effectiveTaxRate taxFuture;
                        sc_taxSavings := Some (totalTax taxToday - totalTax taxFuture) |}],
       q')
  | (inl _, q') => (scenarios, q')
  end.

(** [scenarios.reduce((best, current) => current.tax < best.tax ? current : best)] *)
Definition lowestTax (first : Scenario) (others : list Scenario) : Scenario :=
  fold_left (fun best current => if ltb (sc_tax current) (sc_tax best) then current else best)
            others first.

(** [analyzeOptimalTiming]; [isFiler] is the field of the tax calculator and
    [today] the value of [new Date()]. *)
Definition analyzeOptimalTiming (isFiler : bool) (symbol0 : string)
    (quantity currentPrice : Qc) (today : Date) : M FIFOQueue TimingAnalysis :=
  q <- get ;;
  match holdings q !! toUpperCase symbol0 with
  | None | Some [] => throw (NoHoldingsFound symbol0)
  | Some _ =>
      sellToday <- calculateSale symbol0 quantity currentPrice today ;;
      let taxToday := calculateTaxForSale isFiler sellToday in
      let first := {| sc_date := today;
                      daysFromNow := 0;
                      sc_tax := totalTax taxToday;
                      sc_netProfit := netProfit taxToday;
                      sc_effectiveTaxRate := effectiveTaxRate taxToday;
                      sc_taxSavings := None |} in
      fun q1 =>
        let '(scenarios, q2) :=
          fold_left (pushFutureScenario isFiler symbol0 quantity currentPrice today taxToday)
                    delays ([first], q1) in
        let optimal := lowestTax first (tl scenarios) in
        let savingsPotential := sc_tax first - sc_tax optimal in
        (inr {| ta_symbol := symbol0;
                ta_quantity := quantity;
                currentPrice := currentPrice;
                scenarios := scenarios;
                optimal := optimal;
                savingsPotential := savingsPotential;
                sellNow := leb savingsPotential 0 |}, q2)
  end.

(** The result of [calculateBreakEven], but for [taxImpactPercent], a string
    made by [toFixed] of a quotient that is not a number when the average
    cost is zero. *)
Record BreakEven := mkBreakEven {
  be_symbol : string;
  be_quantity : Qc;
  be_averageCost : Qc;
  be_totalCostBasis : Qc;
  breakEvenNoTax : Qc;
  breakEvenWithTax : Qc;
  taxImpact : Qc
}.

(** [calculateBreakEven]; [isFiler] is the field of the tax calculator and
    [now] the value of [new Date()].  It reads the ledger. *)
Definition calculateBreakEven (isFiler : bool) (symbol0 : string) (includeTax : bool)
    (now : Date) (q : FIFOQueue) : Error + BreakEven :=
  match getHoldings q !! toUpperCase symbol0 with
  | None => inl (NoHoldingsFound symbol0)
  | Some holding =>
      let breakEvenNoTax := averageCost holding in
      let result breakEvenWithTax :=
        {| be_symbol := symbol0;
           be_quantity := totalQuantity holding;
           be_averageCost := averageCost holding;
           be_totalCostBasis := hs_totalCostBasis holding;
           breakEvenNoTax := breakEvenNoTax;
           breakEvenWithTax := breakEvenWithTax;
           taxImpact := breakEvenWithTax - breakEvenNoTax |} in
      if includeTax then
        match holdings q !! toUpperCase symbol0 with
        | Some (firstLot :: _) =>
            let estimatedHoldingDays := ((now - purchaseDate firstLot) / msPerDay)%Z in
            let taxRate := getTaxRate isFiler (purchaseDate firstLot) estimatedHoldingDays in
            inr (result (averageCost holding / (1 - taxRate)))
        | _ => inl TypeError
        end
      else inr (result breakEvenNoTax)
  end.

(** ** More of CorporateActionsManager *)

(** [getCorporateActions]; [None] is a call without a symbol, or with an
    empty one. *)
Definition getCorporateActions (symbol0 : option string) (m : CorporateActionsManager)
    : list ActionRecord :=
  match symbol0 with
  | Some s =>
      if String.eqb s "" then corporateActions m
      else List.filter (fun action => String.eqb (ca_symbol action) (toUpperCase s))
                       (corporateActions m)
  | None => corporateActions m
  end.

(** [[...new Set(list)]]: the first occurrence of each string, in order. *)
Fixpoint dedupe (seen : list string) (l : list string) : list string :=
  match l with
  | [] => []
  | x :: r =>
      if existsb (String.eqb x) seen then dedupe seen r
      else x :: dedupe (x :: seen) r
  end.

Record Summary := mkSummary {
  totalActions : nat;
  bonusActions : nat;
  rightActions : nat;
  symbolsAffected : list string;
  sm_actions : list ActionRecord
}.

Definition getSummary (m : CorporateActionsManager) : Summary :=
  {| totalActions := length (corporateActions m);
     bonusActions :=
       length (List.filter (fun a => String.eqb (ca_type a) "BONUS") (corporateActions m));
     rightActions :=
       length (List.filter (fun a => String.eqb (ca_type a) "RIGHT") (corporateActions m));
     symbolsAffected := dedupe [] (map ca_symbol (corporateActions m));
     sm_actions := corporateActions m |}.
(** ** Reference definitions

    The definitions of this section are not translated from the source: they
    spell out the specification, to be compared with the code above. *)

Definition total (l : list Qc) : Qc := fold_right Qcplus 0 l.

(** FIFO consumption as the specification words it: walking the queue from
    its head, each lot gives [min(remainingQuantity, stillNeeded)], and
    nothing when that is not positive. *)
Fixpoint fifoTakes (lots : list Lot) (stillNeeded : Qc) : list Qc :=
  match lots with
  | [] => []
  | lot :: rest =>
      let taken := max 0 (min (remainingQuantity lot) stillNeeded) in
      taken :: fifoTakes rest (stillNeeded - taken)
  end.

(** The lots after the consumption, before pruning. *)
Definition consumeLots (lots : list Lot) (takes : list Qc) : list Lot :=
  map (fun '(lot, taken) => setRemaining lot (remainingQuantity lot - taken))
      (combine lots takes).

(** The lots that gave something, with what they gave. *)
Definition touchedLots (lots : list Lot) (takes : list Qc) : list (Lot * Qc) :=
  List.filter (fun '(_, taken) => ltb 0 taken) (combine lots takes).

(** The cost basis of a consumption: Σ (consumed × unit cost). *)
Definition costOfTakes (lots : list Lot) (takes : list Qc) : Qc :=
  total (map (fun '(lot, taken) => taken * price lot) (combine lots takes)).

(** A legacy bucket: the half-open interval of holding days
    [lowerBoundDays, upperBoundDays) and the rate it selects; an absent bound
    leaves the interval open on that side. *)
Record Bucket := mkBucket {
  lowerBoundDays : option Z;
  upperBoundDays : option Z;
  bucketRate : LegacyRates -> Qc
}.

Definition legacyBuckets : list Bucket :=
  [ mkBucket None (Some 365%Z) lessThan1Year;
    mkBucket (Some 365%Z) (Some 730%Z) oneToTwoYears;
    mkBucket (Some 730%Z) (Some 1095%Z) twoToThreeYears;
    mkBucket (Some 1095%Z) (Some 1460%Z) threeToFourYears;
    mkBucket (Some 1460%Z) None fourPlusYears ].

Definition inBucket (holdingDays : Z) (b : Bucket) : bool :=
  match lowerBoundDays b with Some lo => (lo <=? holdingDays)%Z | None => true end &&
  match upperBoundDays b with Some hi => (holdingDays <? hi)%Z | None => true end.

(** The day number of a date of the proleptic Gregorian calendar (month 1 to
    12): the days from January 1, 1970 to it. *)
Definition daysFromCivil (y m d : Z) : Z :=
  (let y' := if m <=? 2 then y - 1 else y in
   let era := y' / 400 in
   let yoe := y' - era * 400 in
   let doy := (153 * (if 2 <? m then m - 3 else m + 9) + 2) / 5 + d - 1 in
   let doe := yoe * 365 + yoe / 4 - yoe / 100 + doy in
   era * 146097 + doe - 719468)%Z.

(** The regime cutover of the specification: the start of July 1, 2024. *)
Definition regimeCutover : Date := (daysFromCivil 2024 7 1 * msPerDay)%Z.

(** [rateFor] of the specification. *)
Definition rateFor (acquisitionDate : Date) (holdingDays : Z) (filerStatus : bool)
    : option Qc :=
  if (regimeCutover <=? acquisitionDate)%Z then Some (Q2Qc 0.15)
  else
    option_map
      (fun b => bucketRate b (if filerStatus then legacyRates_filer else legacyRates_nonFiler))
      (find (inBucket holdingDays) legacyBuckets).


(** Replaying recorded transactions, in order, through a fresh ledger. *)
Definition replayStep (q : FIFOQueue) (t : Transaction) : FIFOQueue :=
  snd (addTransaction (tx_type t) (tx_symbol t) (tx_quantity t) (tx_price t)
         (tx_tradeDate t) (tx_timestamp t) q).

Definition replay (recorded : list Transaction) : FIFOQueue :=
  fold_left replayStep recorded newFIFOQueue.

(** What a lot queue shows: quantity, remaining quantity, unit cost and
    acquisition date of each lot. *)
Definition lotView (lot : Lot) : Qc * Qc * Qc * Date :=
  (quantity lot, remainingQuantity lot, price lot, purchaseDate lot).

(** The [lotsUsed] entries of the touched lots. *)
Definition usedEntries (settlementDate : Date) (touched : list (Lot * Qc)) : list LotUsed :=
  map (fun '(lot, taken) => usedEntry settlementDate lot taken) touched.

(** A sale result flagged as a simulation. *)
Definition asSimulation (r : SaleResult) : SaleResult :=
  {| symbol := symbol r;
     quantitySold := quantitySold r;
     sellPrice := sellPrice r;
     saleProceeds := saleProceeds r;
     totalCostBasis := totalCostBasis r;
     capitalGain := capitalGain r;
     lotsUsed := lotsUsed r;
     saleDate := saleDate r;
     isSimulation := true |}.

(** A buy request: what [addTransaction] is called with for a BUY. *)
Record BuyRequest := mkBuyRequest {
  br_symbol : string;
  br_quantity : Qc;
  br_price : Qc;
  br_date : Date;
  br_now : Date
}.

Definition buy (q : FIFOQueue) (r : BuyRequest) : FIFOQueue :=
  snd (addTransaction "BUY" (br_symbol r) (br_quantity r) (br_price r)
         (br_date r) (br_now r) q).

(** The ledger after a sequence of buys on a fresh ledger. *)
Definition buyAll (requests : list BuyRequest) : FIFOQueue :=
  fold_left buy requests newFIFOQueue.

(** ** Example ledgers *)

Definition jan_1_2025 : Date := 1735689600000%Z.
Definition feb_1_2025 : Date := 1738368000000%Z.
Definition mar_1_2025 : Date := 1740787200000%Z.
Definition jun_1_2025 : Date := 1748736000000%Z.

(** The ledger of a run, whatever it returned. *)
Definition ledgerOf {A : Type} (run : (Error + A) * FIFOQueue) : FIFOQueue := snd run.

(** Buy 100 at 100, then 50 at 120. *)
Definition twoBuys : FIFOQueue :=
  ledgerOf (addTransaction "BUY" "OGDC" (Z2Qc 50) (Z2Qc 120) feb_1_2025 0%Z
    (ledgerOf (addTransaction "BUY" "OGDC" (Z2Qc 100) (Z2Qc 100) jan_1_2025 0%Z
       newFIFOQueue))).

(** The transaction of a sale of 120 at 150 entered on March 1, 2025. *)
Definition sell120 : Transaction :=
  {| tx_id := 3;
     tx_type := "SELL";
     tx_symbol := "OGDC";
     tx_quantity := Z2Qc 120;
     tx_price := Z2Qc 150;
     tx_tradeDate := mar_1_2025;
     tx_settlementDate := calculateSettlementDate mar_1_2025;
     tx_totalValue := Z2Qc 120 * Z2Qc 150;
     tx_timestamp := 0%Z |}.

(** Buy 10 at 100, then sell 5 at 150. *)
Definition buyThenSell : FIFOQueue :=
  ledgerOf (addTransaction "SELL" "OGDC" (Z2Qc 5) (Z2Qc 150) feb_1_2025 0%Z
    (ledgerOf (addTransaction "BUY" "OGDC" (Z2Qc 10) (Z2Qc 100) jan_1_2025 0%Z
       newFIFOQueue))).

(** Buy 10 at 100, then 10 at 300. *)
Definition cheapThenDear : FIFOQueue :=
  ledgerOf (addTransaction "BUY" "OGDC" (Z2Qc 10) (Z2Qc 300) feb_1_2025 0%Z
    (ledgerOf (addTransaction "BUY" "OGDC" (Z2Qc 10) (Z2Qc 100) jan_1_2025 0%Z
       newFIFOQueue))).

(** A manager over a ledger, with no action recorded. *)
Definition managerOf (q : FIFOQueue) : CorporateActionsManager :=
  {| fifoQueue := q; corporateActions := [] |}.

(** One lot of 7 shares at 100. *)
Definition sevenShares : CorporateActionsManager :=
  managerOf (ledgerOf (addTransaction "BUY" "HBL" (Z2Qc 7) (Z2Qc 100) jan_1_2025 0%Z
                         newFIFOQueue)).

(** One lot of 100 shares at 100. *)
Definition hundredShares : CorporateActionsManager :=
  managerOf (ledgerOf (addTransaction "BUY" "HBL" (Z2Qc 100) (Z2Qc 100) jan_1_2025 0%Z
                         newFIFOQueue)).

Definition bonus20 : Details :=
  {| d_ratio := RatioPercent (Z2Qc 20); d_price := None;
     d_exDate := Some mar_1_2025; d_subscriptionDate := None |}.


(** The divisors of the ratios below are numbers other than zero. *)
Definition divisorNotZero (held : Z) : Prop := parseFloat (Z2Qc held) <> 0.

Definition divisor5 : divisorNotZero 5.
Proof. intros H. vm_compute in H. discriminate H. Qed.


Definition divisor200 : divisorNotZero 200.
Proof. intros H. vm_compute in H. discriminate H. Qed.

Definition rights1for5 : Details :=
  {| d_ratio := RatioColon (Z2Qc 1) (Z2Qc 5) divisor5; d_price := Some (Z2Qc 80);
     d_exDate := Some mar_1_2025; d_subscriptionDate := None |}.

Definition rights1for200 : Details :=
  {| d_ratio := RatioColon (Z2Qc 1) (Z2Qc 200) divisor200; d_price := Some (Z2Qc 80);
     d_exDate := Some mar_1_2025; d_subscriptionDate := None |}.



(** A day that counts for the settlement: neither Sunday nor Saturday. *)
Definition isBusinessDay (d : Date) : bool :=
  negb (getDay d =? 0)%Z && negb (getDay d =? 6)%Z.

(** The number of business days among the [n] days that follow a date. *)
Definition businessDaysAfter (tradeDate : Date) (n : nat) : nat :=
  length (List.filter isBusinessDay
            (map (fun k => (tradeDate + Z.of_nat k * msPerDay)%Z) (seq 1 n))).

(** The data model's invariant of a lot in a queue. *)
Definition lotOk (lot : Lot) : Prop :=
  0 < remainingQuantity lot /\ remainingQuantity lot <= quantity lot.

(** What identifies a lot through a sale: all but its remaining quantity. *)
Definition lotKey (lot : Lot) : Qc * Qc * Date * Origin :=
  (quantity lot, price lot, purchaseDate lot, originalTransaction lot).

(** What an entry of [getCostBasisForSale] and an entry of [lotsUsed] have in
    common: quantity, unit cost, cost and purchase date. *)
Definition costView (c : CostLot) : Qc * Qc * Qc * Date :=
  (cl_quantity c, cl_costPerShare c, cl_totalCost c, cl_purchaseDate c).

Definition usedView (e : LotUsed) : Qc * Qc * Qc * Date :=
  (lu_quantity e, costPerShare e, costBasis e, lu_purchaseDate e).


(** The actions of a manager carry the numbers 1, 2, ... in order. *)
Definition actionsNumbered (m : CorporateActionsManager) : Prop :=
  map ca_id (corporateActions m) =
  map Z.of_nat (seq 1 (length (corporateActions m))).

(** A record once it is reversed. *)
Definition reversedRecord (now : Date) (a : ActionRecord) : ActionRecord :=
  {| ca_id := ca_id a; ca_symbol := ca_symbol a; ca_type := ca_type a;
     ca_details := ca_details a; ca_exDate := ca_exDate a;
     appliedDate := appliedDate a; applied := false;
     ca_result := ca_result a; reversedDate := Some now |}.

(** The recorded transactions carry the numbers 1, 2, ... in order. *)
Definition transactionsNumbered (q : FIFOQueue) : Prop :=
  map tx_id (transactions q) = map Z.of_nat (seq 1 (length (transactions q))).

(** The sale of [quantity] shares out of [lots] on [sellDate] as
    [calculateSale] reports it, in terms of the FIFO consumption. *)
Definition simulatedSale (lots : list Lot) (symbol0 : string) (quantity sellPrice : Qc)
    (sellDate : Date) : SaleResult :=
  let takes := fifoTakes lots quantity in
  {| symbol := toUpperCase symbol0;
     quantitySold := quantity;
     sellPrice := sellPrice;
     saleProceeds := quantity * sellPrice;
     totalCostBasis := costOfTakes lots takes;
     capitalGain := quantity * sellPrice - costOfTakes lots takes;
     lotsUsed := usedEntries (calculateSettlementDate sellDate) (touchedLots lots takes);
     saleDate := calculateSettlementDate sellDate;
     isSimulation := true |}.

(** Every recorded action is a bonus or a right issue. *)
Definition actionTypesKnown (m : CorporateActionsManager) : Prop :=
  Forall (fun a => ca_type a = "BONUS"%string \/ ca_type a = "RIGHT"%string)
         (corporateActions m).

(** ** The binary64 numbers of the kernel

    [roundToDouble] is checked against the primitive floating-point numbers
    of Rocq, which are binary64 numbers with the operations of IEEE 754. *)

(** The value of a primitive number that is finite. *)
Definition doubleValue (f : PrimFloat.float) : option Q :=
  match FloatOps.Prim2SF f with
  | SpecFloat.S754_zero _ => Some 0%Q
  | SpecFloat.S754_finite s m e =>
      Some ((if s then - inject_Z (Zpos m) else inject_Z (Zpos m)) * Qpower 2 e)%Q
  | _ => None
  end.

Definition doubleOfZ (z : Z) : PrimFloat.float := PrimFloat.of_uint63 (Uint63.of_Z z).

Definition sameNumber (f : PrimFloat.float) (x : Qc) : bool :=
  match doubleValue f with
  | Some q => Qeq_bool q x
  | None => false
  end.

(** The numbers that decide a share count, for [shares] shares and a ratio:
    the product of a bonus or a right issue and the quotient of the reversal
    of a bonus, in the kernel's binary64 and in the model. *)
Definition ratioAgrees (shares : Z) (ratioF : PrimFloat.float) (ratio : Qc) : bool :=
  sameNumber ratioF ratio &&
  sameNumber (PrimFloat.mul (doubleOfZ shares) ratioF) (mulDouble (Z2Qc shares) ratio) &&
  sameNumber (PrimFloat.div (doubleOfZ shares) (PrimFloat.add (doubleOfZ 1) ratioF))
             (divDouble (Z2Qc shares) (addDouble 1 ratio)).

(** A ratio given as ["percent%"]. *)
Definition percentAgrees (shares percent : Z) : bool :=
  ratioAgrees shares
    (PrimFloat.div (doubleOfZ percent) (doubleOfZ 100))
    (divDouble (parseFloat (Z2Qc percent)) (Z2Qc 100)).

(** A ratio given as ["rights:held"]. *)
Definition colonAgrees (shares rights held : Z) : bool :=
  ratioAgrees shares
    (PrimFloat.div (doubleOfZ rights) (doubleOfZ held))
    (divDouble (parseFloat (Z2Qc rights)) (parseFloat (Z2Qc held))).

Definition upTo (n : nat) : list Z := map Z.of_nat (seq 1 n).
(** ** Arithmetic on [Qc] *)

Lemma ltb_lt (x y : Qc) : ltb x y = true <-> x < y.
Proof.
  unfold ltb. rewrite Qclt_alt. destruct (x ?= y); split; congruence.
Qed.

Lemma ltb_ge (x y : Qc) : ltb x y = false <-> y <= x.
Proof.
  split.
  - intros H. apply Qcnot_lt_le. rewrite <- ltb_lt. congruence.
  - intros H. destruct (ltb x y) eqn:E; [|reflexivity].
    apply ltb_lt in E. exfalso. exact (Qcle_not_lt _ _ H E).
Qed.

Lemma leb_le (x y : Qc) : leb x y = true <-> x <= y.
Proof.
  unfold leb. rewrite Qcle_alt. destruct (x ?= y); split; congruence.
Qed.

Lemma leb_gt (x y : Qc) : leb x y = false <-> y < x.
Proof.
  split.
  - intros H. apply Qcnot_le_lt. rewrite <- leb_le. congruence.
  - intros H. destruct (leb x y) eqn:E; [|reflexivity].
    apply leb_le in E. exfalso. exact (Qclt_not_le _ _ H E).
Qed.

Lemma eqb_eq (x y : Qc) : eqb x y = true <-> x = y.
Proof.
  unfold eqb. rewrite Qceq_alt. destruct (x ?= y); split; congruence.
Qed.

Lemma eqb_neq (x y : Qc) : eqb x y = false <-> x <> y.
Proof.
  rewrite <- eqb_eq. destruct (eqb x y); split; congruence.
Qed.

Lemma Qc_eq_Qeq (x y : Qc) : x = y -> (this x == this y)%Q.
Proof. intros ->. apply Qeq_refl. Qed.

Lemma Qc_neq_Qeq (x y : Qc) : x <> y -> ~ (this x == this y)%Q.
Proof. intros H E. apply H. apply Qc_is_canon. exact E. Qed.

(** Goals and hypotheses on [Qc] are moved to [Q], where [lra] decides. *)
Ltac qc_to_q :=
  repeat match goal with
  | H : ltb _ _ = true |- _ => apply ltb_lt in H
  | H : ltb _ _ = false |- _ => apply ltb_ge in H
  | H : leb _ _ = true |- _ => apply leb_le in H
  | H : leb _ _ = false |- _ => apply leb_gt in H
  | H : eqb _ _ = true |- _ => apply eqb_eq in H
  | H : eqb _ _ = false |- _ => apply eqb_neq in H
  end;
  repeat match goal with
  | H : @eq Qc _ _ |- _ => apply Qc_eq_Qeq in H
  | H : ~ @eq Qc _ _ |- _ => apply Qc_neq_Qeq in H
  | |- @eq Qc _ _ => apply Qc_is_canon
  | |- ~ @eq Qc _ _ => let E := fresh in intro E; apply Qc_eq_Qeq in E
  end;
  unfold Qcle, Qclt, Qcdiv, Qcminus, Qcplus, Qcmult, Qcopp, Q2Qc in *;
  cbn [this] in *;
  rewrite ?Qred_correct in *.

Ltac qc_lra := qc_to_q; lra.
Ltac qc_nra := qc_to_q; nra.

Ltac no_test t :=
  lazymatch t with
  | context [if _ then _ else _] => fail
  | _ => idtac
  end.

(** Case analysis on the comparisons of the goal, innermost first. *)
Ltac case_cmp :=
  repeat match goal with
  | |- context [ltb ?a ?b] =>
      no_test a; no_test b; let E := fresh "E" in destruct (ltb a b) eqn:E
  | |- context [leb ?a ?b] =>
      no_test a; no_test b; let E := fresh "E" in destruct (leb a b) eqn:E
  | |- context [eqb ?a ?b] =>
      no_test a; no_test b; let E := fresh "E" in destruct (eqb a b) eqn:E
  end.

(** ** Sums *)

Lemma fold_left_sum {A : Type} (f : A -> Qc) (l : list A) (a : Qc) :
  fold_left (fun sum x => sum + f x) l a = a + total (map f l).
Proof.
  revert a. induction l as [|x l IH]; intros a; simpl.
  - ring.
  - rewrite IH. ring.
Qed.

Lemma sumOf_total {A : Type} (f : A -> Qc) (l : list A) :
  sumOf f l = total (map f l).
Proof. unfold sumOf. rewrite fold_left_sum. ring. Qed.

(** ** The consuming loop against the reference consumption *)

Lemma setRemaining_same (lot : Lot) r :
  r = remainingQuantity lot -> setRemaining lot r = lot.
Proof. intros ->. destruct lot; reflexivity. Qed.

Lemma fifoTakes_nonpos (lots : list Lot) (n : Qc) :
  n <= 0 -> fifoTakes lots n = map (fun _ => 0) lots.
Proof.
  induction lots as [|lot rest IH]; intros Hn; simpl; [reflexivity|].
  assert (Hz : max 0 (min (remainingQuantity lot) n) = 0)
    by (unfold max, min; case_cmp; qc_lra).
  rewrite Hz. f_equal. rewrite <- IH; [|exact Hn]. f_equal. ring.
Qed.

Lemma consumeLots_zero (lots : list Lot) :
  consumeLots lots (map (fun _ => 0) lots) = lots.
Proof.
  unfold consumeLots. induction lots as [|lot rest IH]; simpl; [reflexivity|].
  rewrite IH. f_equal. apply setRemaining_same. ring.
Qed.

Lemma touchedLots_zero (lots : list Lot) :
  touchedLots lots (map (fun _ => 0) lots) = [].
Proof.
  unfold touchedLots. induction lots as [|lot rest IH]; simpl; [reflexivity|].
  exact IH.
Qed.

Lemma costOfTakes_zero (lots : list Lot) :
  costOfTakes lots (map (fun _ => 0) lots) = 0.
Proof.
  unfold costOfTakes. induction lots as [|lot rest IH]; simpl; [reflexivity|].
  rewrite IH. ring.
Qed.

Lemma total_zero {A : Type} (l : list A) : total (map (fun _ => 0) l) = 0.
Proof. induction l as [|x l IH]; simpl; [reflexivity|]. rewrite IH. ring. Qed.

Lemma total_cons (x : Qc) (l : list Qc) : total (x :: l) = x + total l.
Proof. reflexivity. Qed.

Lemma consumeLots_cons lot rest t ts :
  consumeLots (lot :: rest) (t :: ts) =
  setRemaining lot (remainingQuantity lot - t) :: consumeLots rest ts.
Proof. reflexivity. Qed.

Lemma touchedLots_cons lot rest t ts :
  touchedLots (lot :: rest) (t :: ts) =
  if ltb 0 t then (lot, t) :: touchedLots rest ts else touchedLots rest ts.
Proof. reflexivity. Qed.

Lemma costOfTakes_cons lot rest t ts :
  costOfTakes (lot :: rest) (t :: ts) = t * price lot + costOfTakes rest ts.
Proof. reflexivity. Qed.

Ltac tuple_eq :=
  repeat match goal with |- (_, _) = (_, _) => f_equal end.

Lemma sellLoop_fifo (sd : Date) (lots : list Lot) :
  forall (n : Qc) (used : list LotUsed) (basis : Qc),
    sellLoop sd lots n used basis =
      (consumeLots lots (fifoTakes lots n),
       n - total (fifoTakes lots n),
       used ++ usedEntries sd (touchedLots lots (fifoTakes lots n)),
       basis + costOfTakes lots (fifoTakes lots n)).
Proof.
  induction lots as [|lot rest IH]; intros n used basis.
  - cbn [sellLoop fifoTakes]. tuple_eq.
    + unfold total; cbn [fold_right]. ring.
    + unfold touchedLots, usedEntries. cbn [combine List.filter map].
      symmetry. apply app_nil_r.
    + unfold costOfTakes, total; cbn [combine map fold_right]. ring.
  - cbn [sellLoop]. destruct (ltb 0 n) eqn:Hn.
    + destruct (ltb 0 (min (remainingQuantity lot) n)) eqn:Ht.
      * rewrite IH. cbn [fifoTakes].
        assert (Hmax : max 0 (min (remainingQuantity lot) n) = min (remainingQuantity lot) n)
          by (unfold max; rewrite Ht; reflexivity).
        rewrite Hmax, consumeLots_cons, touchedLots_cons, costOfTakes_cons, total_cons, Ht.
        tuple_eq.
        -- ring.
        -- unfold usedEntries. cbn [map]. rewrite <- app_assoc. reflexivity.
        -- ring.
      * rewrite IH. cbn [fifoTakes].
        assert (Hmax : max 0 (min (remainingQuantity lot) n) = 0)
          by (unfold max; rewrite Ht; reflexivity).
        rewrite Hmax.
        assert (Hn0 : n - 0 = n) by ring. rewrite Hn0.
        rewrite consumeLots_cons, touchedLots_cons, costOfTakes_cons, total_cons.
        assert (H00 : ltb 0 0 = false) by reflexivity. rewrite H00.
        rewrite setRemaining_same by ring.
        tuple_eq; ring.
    + apply ltb_ge in Hn. rewrite fifoTakes_nonpos by exact Hn.
      rewrite consumeLots_zero, touchedLots_zero, costOfTakes_zero, total_zero.
      unfold usedEntries. cbn [map]. rewrite app_nil_r. tuple_eq; ring.
Qed.

(** ** Properties of the reference consumption *)

Lemma fifoTakes_nonpos_lookup (lots : list Lot) (n : Qc) (j : nat) (t : Qc) :
  n <= 0 -> fifoTakes lots n !! j = Some t -> t = 0.
Proof.
  intros Hn. rewrite fifoTakes_nonpos by exact Hn.
  rewrite list_lookup_fmap. destruct (lots !! j); simpl; congruence.
Qed.

(** A lot that keeps shares ends the sale: what is still needed after it is
    not positive. *)
Lemma take_leaves (r n : Qc) :
  0 < r - max 0 (min r n) -> n - max 0 (min r n) <= 0.
Proof. unfold max, min. case_cmp; intros H; qc_lra. Qed.

Lemma fifoTakes_head_first (lots : list Lot) :
  forall (n : Qc) (i j : nat) (lot_i : Lot) (t_i t_j : Qc),
    (i < j)%nat ->
    lots !! i = Some lot_i ->
    fifoTakes lots n !! i = Some t_i ->
    fifoTakes lots n !! j = Some t_j ->
    0 < t_j ->
    remainingQuantity lot_i - t_i <= 0.
Proof.
  induction lots as [|lot rest IH]; intros n i j lot_i t_i t_j Hij Hi Hti Htj Hpos.
  - discriminate.
  - destruct j as [|j]; [lia|]. destruct i as [|i].
    + cbn in Hi, Hti, Htj. injection Hi as <-. injection Hti as <-.
      apply Qcnot_lt_le. intros Hleft. apply take_leaves in Hleft.
      pose proof (fifoTakes_nonpos_lookup _ _ _ _ Hleft Htj) as ->.
      revert Hpos. clear. intros Hpos. qc_lra.
    + cbn in Hi, Hti, Htj. eapply (IH _ i j); eauto. lia.
Qed.

Lemma fifoTakes_lookup (lots : list Lot) :
  forall (n : Qc) (i : nat) (lot : Lot) (t : Qc),
    lots !! i = Some lot ->
    fifoTakes lots n !! i = Some t ->
    t = max 0 (min (remainingQuantity lot) (n - total (take i (fifoTakes lots n)))).
Proof.
  induction lots as [|lot0 rest IH]; intros n i lot t Hi Ht.
  - discriminate.
  - destruct i as [|i].
    + cbn in Hi, Ht. injection Hi as <-. injection Ht as <-.
      cbn [fifoTakes firstn]. unfold total; cbn [fold_right]. f_equal. f_equal. ring.
    + cbn in Hi, Ht. cbn [fifoTakes firstn]. rewrite total_cons.
      rewrite (IH _ _ _ _ Hi Ht) at 1. f_equal. f_equal. ring.
Qed.

Lemma total_positive_parts (lots : list Lot) :
  total (map remainingQuantity lots) <=
  total (map (fun lot => max 0 (remainingQuantity lot)) lots) /\
  0 <= total (map (fun lot => max 0 (remainingQuantity lot)) lots).
Proof.
  induction lots as [|lot rest [IH1 IH2]]; cbn [map]; [split; cbn; qc_lra|].
  rewrite !total_cons.
  remember (total (map remainingQuantity rest)) as a.
  remember (total (map (fun lot => max 0 (remainingQuantity lot)) rest)) as b.
  unfold max. case_cmp; split; qc_lra.
Qed.

(** The sum of the positive parts of the remaining quantities. *)
Lemma fifoTakes_total_aux (lots : list Lot) :
  forall n : Qc,
    0 <= n ->
    n <= total (map (fun lot => max 0 (remainingQuantity lot)) lots) ->
    total (fifoTakes lots n) = n.
Proof.
  induction lots as [|lot rest IH]; intros n Hn Hle.
  - cbn in *. qc_lra.
  - cbn [fifoTakes]. cbn [map] in Hle. rewrite total_cons in *.
    destruct (total_positive_parts rest) as [_ Hrest].
    remember (total (map (fun lot => max 0 (remainingQuantity lot)) rest)) as b.
    rewrite IH.
    + ring.
    + revert Hle. unfold max, min. case_cmp; intros; qc_lra.
    + revert Hle. unfold max, min. case_cmp; intros; qc_lra.
Qed.

Lemma fifoTakes_total (lots : list Lot) (n : Qc) :
  0 <= n -> n <= sumOf remainingQuantity lots -> total (fifoTakes lots n) = n.
Proof.
  intros Hn Hle. apply fifoTakes_total_aux; [exact Hn|].
  rewrite sumOf_total in Hle. destruct (total_positive_parts lots) as [H _].
  qc_lra.
Qed.

Lemma getHoldingPeriod_days (purchase sell : Date) :
  days (getHoldingPeriod purchase sell) = ((sell - purchase) / msPerDay)%Z.
Proof.
  unfold getHoldingPeriod.
  destruct (getMonth sell - getMonth purchase <? 0)%Z; reflexivity.
Qed.

Lemma usedEntries_days (sd : Date) (touched : list (Lot * Qc)) :
  Forall (fun e => days (holdingPeriod e) = ((sd - lu_purchaseDate e) / msPerDay)%Z)
         (usedEntries sd touched).
Proof.
  unfold usedEntries. induction touched as [|[lot t] rest IH]; cbn [map].
  - constructor.
  - constructor; [apply getHoldingPeriod_days | exact IH].
Qed.

Lemma consumeLots_lookup (lots : list Lot) :
  forall (takes : list Qc) (i : nat) (lot : Lot) (taken : Qc),
    lots !! i = Some lot -> takes !! i = Some taken ->
    consumeLots lots takes !! i =
      Some (setRemaining lot (remainingQuantity lot - taken)).
Proof.
  induction lots as [|lot0 rest IH]; intros takes i lot taken Hl Ht; [discriminate|].
  destruct takes as [|t0 ts]; [discriminate|].
  rewrite consumeLots_cons. destruct i as [|i]; cbn in Hl, Ht |- *.
  - injection Hl as <-. injection Ht as <-. reflexivity.
  - exact (IH ts i lot taken Hl Ht).
Qed.

Lemma consumeLots_length (lots : list Lot) (n : Qc) :
  length (consumeLots lots (fifoTakes lots n)) = length lots.
Proof.
  revert n. induction lots as [|lot rest IH]; intros n; [reflexivity|].
  cbn [fifoTakes]. rewrite consumeLots_cons. cbn [length]. rewrite IH. reflexivity.
Qed.

Lemma usedEntries_fields (sd : Date) (touched : list (Lot * Qc)) :
  Forall2 (fun e '(lot, taken) =>
             lu_purchaseDate e = purchaseDate lot /\
             lu_quantity e = taken /\
             costPerShare e = price lot /\
             costBasis e = taken * price lot /\
             days (holdingPeriod e) = ((sd - purchaseDate lot) / msPerDay)%Z)
          (usedEntries sd touched) touched.
Proof.
  unfold usedEntries. induction touched as [|[lot t] rest IH]; cbn [map]; constructor;
    [|exact IH].
  cbn [usedEntry lu_purchaseDate lu_quantity costPerShare costBasis holdingPeriod].
  repeat split. apply getHoldingPeriod_days.
Qed.

(** C1.  A sell of a quantity that the symbol's queue covers succeeds.  The
    quantity taken from each lot is the reference FIFO consumption: from the
    head of the queue, min(remainingQuantity, stillNeeded) each, a lot being
    exhausted before a later one is touched, the takes adding up to the
    quantity sold.  After the sell the queue of the symbol holds the lots of
    before, each with its quantity, price, purchase date and origin, and with
    its remaining quantity less what was taken from it, but for the lots left
    without shares, which are pruned; the other queues and the transactions
    are as before and the result is appended to the realized gains.
    [totalCostBasis] is the sum of consumed quantity times unit cost;
    [lotsUsed] has one entry per touched lot, in queue order, with the
    purchase date and the unit cost of the lot, the quantity taken, its cost,
    and the holding days: the day difference between the settlement date of
    the sale and the purchase date of the lot. *)
Theorem processSell_fifo (q : FIFOQueue) (t : Transaction) (lots : list Lot) :
  holdings q !! tx_symbol t = Some lots ->
  lots <> [] ->
  tx_quantity t <= sumOf remainingQuantity lots ->
  let takes := fifoTakes lots (tx_quantity t) in
  exists (r : SaleResult) (q' : FIFOQueue),
    _processSell t q = (inr r, q') /\
    (0 <= tx_quantity t -> total takes = tx_quantity t) /\
    (forall (i : nat) (lot : Lot) (taken : Qc),
        lots !! i = Some lot -> takes !! i = Some taken ->
        taken = max 0 (min (remainingQuantity lot)
                           (tx_quantity t - total (take i takes)))) /\
    (forall (i j : nat) (lot_i : Lot) (t_i t_j : Qc),
        (i < j)%nat -> lots !! i = Some lot_i ->
        takes !! i = Some t_i -> takes !! j = Some t_j ->
        0 < t_j -> remainingQuantity lot_i - t_i <= 0) /\
    (exists lots' : list Lot,
        length lots' = length lots /\
        (forall (i : nat) (lot : Lot) (taken : Qc),
            lots !! i = Some lot -> takes !! i = Some taken ->
            exists lot' : Lot,
              lots' !! i = Some lot' /\
              quantity lot' = quantity lot /\
              price lot' = price lot /\
              purchaseDate lot' = purchaseDate lot /\
              originalTransaction lot' = originalTransaction lot /\
              remainingQuantity lot' = remainingQuantity lot - taken) /\
        holdings q' =
          <[tx_symbol t := List.filter (fun lot => ltb 0 (remainingQuantity lot)) lots']>
            (holdings q)) /\
    transactions q' = transactions q /\
    realizedGains q' = realizedGains q ++ [r] /\
    totalCostBasis r = costOfTakes lots takes /\
    Forall2 (fun e '(lot, taken) =>
               lu_purchaseDate e = purchaseDate lot /\
               lu_quantity e = taken /\
               costPerShare e = price lot /\
               costBasis e = taken * price lot /\
               days (holdingPeriod e) =
                 ((tx_settlementDate t - purchaseDate lot) / msPerDay)%Z)
            (lotsUsed r) (touchedLots lots takes).
Proof.
  intros Hlots Hne Hle takes.
  assert (Hrun : exists r, _processSell t q =
      (inr r, pushRealizedGain r (setLots (tx_symbol t)
         (List.filter (fun lot => ltb 0 (remainingQuantity lot)) (consumeLots lots takes)) q))
      /\ lotsUsed r = usedEntries (tx_settlementDate t) (touchedLots lots takes)
      /\ totalCostBasis r = costOfTakes lots takes).
  { unfold _processSell, bind, get. rewrite Hlots.
    destruct lots as [|lot0 rest]; [contradiction|].
    assert (Hcmp : ltb (sumOf remainingQuantity (lot0 :: rest)) (tx_quantity t) = false)
      by (apply ltb_ge; exact Hle).
    rewrite Hcmp. rewrite sellLoop_fifo. fold takes.
    unfold modify, ret. eexists. split; [reflexivity|]. cbn [lotsUsed totalCostBasis].
    split; [reflexivity|]. ring. }
  destruct Hrun as (r & Hr & Hused & Hbasis).
  exists r. eexists. split; [exact Hr|].
  split; [intros Hpos; apply fifoTakes_total; assumption|].
  split; [intros i lot taken; apply fifoTakes_lookup|].
  split; [intros i j lot_i t_i t_j; apply fifoTakes_head_first|].
  split.
  { exists (consumeLots lots takes).
    split; [apply consumeLots_length|].
    split; [|reflexivity].
    intros i lot taken Hl Ht. eexists.
    split; [exact (consumeLots_lookup lots takes i lot taken Hl Ht)|].
    repeat split. }
  split; [reflexivity|]. split; [reflexivity|]. split; [exact Hbasis|].
  rewrite Hused. apply usedEntries_fields.
Qed.

(** ** Closed goals on concrete ledgers *)

Ltac qc_compute :=
  vm_compute;
  repeat first [ reflexivity | apply Qc_is_canon; reflexivity | f_equal ].

Ltac qc_decide :=
  vm_compute;
  first [ reflexivity | discriminate | let H := fresh in intro H; discriminate H ].

(** ** The settlement date *)

Lemma settlementLoop_step (fuel : nat) (date : Date) (daysAdded : Z) :
  (daysAdded < 2)%Z ->
  settlementLoop (S fuel) date daysAdded =
    if negb (getDay (date + msPerDay)%Z =? 0)%Z && negb (getDay (date + msPerDay)%Z =? 6)%Z
    then settlementLoop fuel (date + msPerDay)%Z (daysAdded + 1)%Z
    else settlementLoop fuel (date + msPerDay)%Z daysAdded.
Proof.
  intros H. cbn [settlementLoop].
  destruct (daysAdded <? 2)%Z eqn:E; [reflexivity|]. apply Z.ltb_ge in E. lia.
Qed.

Lemma settlementLoop_done (fuel : nat) (date : Date) (daysAdded : Z) :
  (2 <= daysAdded)%Z -> settlementLoop fuel date daysAdded = Some date.
Proof.
  intros H. destruct fuel; cbn [settlementLoop];
    (destruct (daysAdded <? 2)%Z eqn:E; [apply Z.ltb_lt in E; lia | reflexivity]).
Qed.

(** The loop of [calculateSettlementDate] ends within four iterations: the
    result is the trade date plus two, three or four days. *)
Lemma settlementLoop_total (tradeDate : Date) :
  exists n : Z,
    (2 <= n <= 4)%Z /\
    settlementLoop 4 tradeDate 0 = Some (tradeDate + n * msPerDay)%Z.
Proof.
  remember ((dayNumber tradeDate + 4) mod 7)%Z as r eqn:Er.
  assert (Hday : forall k, getDay (tradeDate + k * msPerDay)%Z = ((r + k) mod 7)%Z).
  { intros k. unfold getDay, dayNumber.
    rewrite Z.div_add by (unfold msPerDay; lia). subst r. unfold dayNumber.
    rewrite Zplus_mod_idemp_l. f_equal. ring. }
  assert (Hstep : forall k, (tradeDate + k * msPerDay + msPerDay =
                             tradeDate + (k + 1) * msPerDay)%Z) by (intros; ring).
  pose proof (Z.mod_pos_bound (dayNumber tradeDate + 4) 7 ltac:(lia)) as Hr.
  rewrite <- Er in Hr. clear Er.
  assert (H0 : tradeDate = (tradeDate + 0 * msPerDay)%Z) by lia.
  assert (Hcases : (r = 0 \/ r = 1 \/ r = 2 \/ r = 3 \/ r = 4 \/ r = 5 \/ r = 6)%Z) by lia.
  destruct Hcases as [-> | [-> | [-> | [-> | [-> | [-> | ->]]]]]].
  all: eexists; split; cycle 1.
  all: try (rewrite H0 at 1;
         repeat (rewrite settlementLoop_step by lia;
                 rewrite Hstep, Hday;
                 match goal with
                 | |- context [if ?c then _ else _] =>
                     let v := eval vm_compute in c in change c with v; cbv iota
                 end;
                 match goal with
                 | |- context [settlementLoop _ (?d + ?k * msPerDay)%Z ?a] =>
                     let k' := eval vm_compute in k in
                     let a' := eval vm_compute in a in
                     change (d + k * msPerDay)%Z with (d + k' * msPerDay)%Z;
                     change a with a'
                 end);
         rewrite settlementLoop_done by lia; reflexivity).
  all: lia.
Qed.

(** [calculateSettlementDate] returns the date the loop ends with. *)
Lemma calculateSettlementDate_total (tradeDate : Date) :
  settlementLoop 4 tradeDate 0 = Some (calculateSettlementDate tradeDate).
Proof.
  unfold calculateSettlementDate.
  destruct (settlementLoop_total tradeDate) as (n & _ & ->). reflexivity.
Qed.

(** ** The simulated sale against the committed sale *)

Lemma simulateLoop_sellLoop (sd : Date) (lots : list Lot) :
  forall (n : Qc) (used : list LotUsed) (basis : Qc),
    simulateLoop sd lots n used basis =
      (let '(_, r, u, b) := sellLoop sd lots n used basis in (r, u, b)).
Proof.
  induction lots as [|lot rest IH]; intros n used basis; cbn [simulateLoop sellLoop].
  - reflexivity.
  - destruct (ltb 0 n); [|reflexivity].
    destruct (ltb 0 (min (remainingQuantity lot) n)); rewrite IH.
    + destruct (sellLoop sd rest _ _ _) as [[[? ?] ?] ?]. reflexivity.
    + destruct (sellLoop sd rest _ _ _) as [[[? ?] ?] ?]. reflexivity.
Qed.

Lemma toUpperCase_SELL : toUpperCase "SELL" = "SELL"%string.
Proof. reflexivity. Qed.

(** C8.  [calculateSale] leaves the ledger as it was (holdings,
    transactions and realized gains), and it returns what the committed
    sell of the same symbol, quantity, price and date returns, flagged as a
    simulation; it fails whenever the committed sell fails, with the same
    error. *)
Theorem calculateSale_simulates (q : FIFOQueue) (symbol0 : string)
    (quantity0 price0 : Qc) (date now : Date) :
  snd (calculateSale symbol0 quantity0 price0 date q) = q /\
  match fst (addTransaction "SELL" symbol0 quantity0 price0 date now q),
        fst (calculateSale symbol0 quantity0 price0 date q) with
  | inr (inr committed), inr simulated => simulated = asSimulation committed
  | inl e, inl e' => e' = e
  | _, _ => False
  end.
Proof.
  unfold calculateSale, addTransaction, _processSell, bind, get, throw, ret, modify.
  rewrite toUpperCase_SELL. cbn [String.eqb Ascii.eqb Bool.eqb tx_symbol tx_quantity tx_price tx_settlementDate].
  destruct (holdings q !! toUpperCase symbol0) as [[|lot rest]|]; cbn [fst snd].
  - split; reflexivity.
  - destruct (ltb (sumOf remainingQuantity (lot :: rest)) quantity0); cbn [fst snd].
    + split; reflexivity.
    + rewrite simulateLoop_sellLoop.
      destruct (sellLoop _ (lot :: rest) quantity0 [] 0) as [[[lots' r] used] basis].
      cbn [fst snd]. split; reflexivity.
  - split; reflexivity.
Qed.

(** C2.  A sell, and a simulated sell, of more than the symbol's queue holds
    fails: with the no-holdings error when the queue is absent or empty, with
    the insufficient-shares error otherwise; the ledger is, at the failure,
    the ledger before the call. *)
Theorem sell_insufficient_holdings (q : FIFOQueue) (type symbol0 : string)
    (quantity0 price0 : Qc) (date now : Date) :
  toUpperCase type = "SELL"%string ->
  sumOf remainingQuantity (lotsOf q (toUpperCase symbol0)) < quantity0 ->
  exists e : Error,
    (e = NoHoldingsFound (toUpperCase symbol0) \/
     e = InsufficientShares (toUpperCase symbol0) quantity0
           (sumOf remainingQuantity (lotsOf q (toUpperCase symbol0)))) /\
    addTransaction type symbol0 quantity0 price0 date now q = (inl e, q) /\
    calculateSale symbol0 quantity0 price0 date q = (inl e, q).
Proof.
  intros Htype Hlt.
  unfold calculateSale, addTransaction, _processSell, bind, get, throw, ret, modify.
  rewrite Htype. cbn [String.eqb Ascii.eqb Bool.eqb tx_symbol tx_quantity tx_price tx_settlementDate].
  unfold lotsOf in *.
  destruct (holdings q !! toUpperCase symbol0) as [[|lot rest]|]; cbn [default from_option id] in *.
  - eexists. split; [left; reflexivity|]. split; reflexivity.
  - apply ltb_lt in Hlt. rewrite Hlt.
    eexists. split; [right; reflexivity|]. split; reflexivity.
  - eexists. split; [left; reflexivity|]. split; reflexivity.
Qed.

Lemma sell_insufficient_holdings_witness :
  toUpperCase "sell" = "SELL"%string /\
  sumOf remainingQuantity (lotsOf twoBuys (toUpperCase "ogdc")) < Z2Qc 151 /\
  ledgerOf (addTransaction "sell" "ogdc" (Z2Qc 151) (Z2Qc 150) mar_1_2025 0%Z twoBuys)
    = twoBuys.
Proof.
  assert (H1 : toUpperCase "sell" = "SELL"%string) by reflexivity.
  assert (H2 : sumOf remainingQuantity (lotsOf twoBuys (toUpperCase "ogdc")) < Z2Qc 151)
    by (vm_compute; reflexivity).
  split; [exact H1|]. split; [exact H2|].
  destruct (sell_insufficient_holdings twoBuys "sell" "ogdc" (Z2Qc 151) (Z2Qc 150)
              mar_1_2025 0%Z H1 H2) as (e & _ & Hsell & _).
  rewrite Hsell. reflexivity.
Defined.

(** The sale of 120 shares out of lots of 100 and 50: 100 come from the
    first lot and 20 from the second; the first lot is pruned and the second
    keeps 30 shares. *)
Lemma processSell_fifo_witness :
  holdings twoBuys !! tx_symbol sell120 = Some (lotsOf twoBuys "OGDC") /\
  lotsOf twoBuys "OGDC" <> [] /\
  tx_quantity sell120 <= sumOf remainingQuantity (lotsOf twoBuys "OGDC") /\
  total (fifoTakes (lotsOf twoBuys "OGDC") (tx_quantity sell120)) = Z2Qc 120 /\
  fifoTakes (lotsOf twoBuys "OGDC") (tx_quantity sell120) = [Z2Qc 100; Z2Qc 20] /\
  exists (r : SaleResult) (q' : FIFOQueue),
    _processSell sell120 twoBuys = (inr r, q') /\
    map lotView (lotsOf q' "OGDC") =
      [(Z2Qc 50, Z2Qc 30, Z2Qc 120, calculateSettlementDate feb_1_2025)] /\
    map (fun e => (lu_quantity e, costPerShare e, costBasis e, lu_purchaseDate e,
                   days (holdingPeriod e))) (lotsUsed r) =
      [(Z2Qc 100, Z2Qc 100, Z2Qc 10000, calculateSettlementDate jan_1_2025, 60%Z);
       (Z2Qc 20, Z2Qc 120, Z2Qc 2400, calculateSettlementDate feb_1_2025, 28%Z)] /\
    totalCostBasis r = Z2Qc 12400.
Proof.
  assert (H1 : holdings twoBuys !! tx_symbol sell120 = Some (lotsOf twoBuys "OGDC"))
    by (vm_compute; reflexivity).
  assert (H2 : lotsOf twoBuys "OGDC" <> [])
    by (intros H; vm_compute in H; discriminate H).
  assert (H3 : tx_quantity sell120 <= sumOf remainingQuantity (lotsOf twoBuys "OGDC"))
    by qc_decide.
  assert (H4 : 0 <= tx_quantity sell120) by qc_decide.
  split; [exact H1|]. split; [exact H2|]. split; [exact H3|].
  destruct (processSell_fifo twoBuys sell120 (lotsOf twoBuys "OGDC") H1 H2 H3)
    as (r & q' & Hrun & Htotal & _).
  split; [exact (Htotal H4)|]. split; [qc_compute|].
  exists r, q'. split; [exact Hrun|].
  vm_compute in Hrun. injection Hrun as <- <-.
  split; [qc_compute|]. split; qc_compute.
Defined.

(** ** Replaying the recorded transactions *)

(** C9, at a buy of 10 followed by a sale of 5: the sale is not in the
    transactions list, and the replay of the list gives a lot with 10
    shares remaining where the ledger has 5. *)
Theorem replay_misses_sell :
  map tx_type (transactions buyThenSell) = ["BUY"%string] /\
  map lotView (lotsOf buyThenSell "OGDC") =
    [(Z2Qc 10, Z2Qc 5, Z2Qc 100, calculateSettlementDate jan_1_2025)] /\
  map lotView (lotsOf (replay (transactions buyThenSell)) "OGDC") =
    [(Z2Qc 10, Z2Qc 10, Z2Qc 100, calculateSettlementDate jan_1_2025)] /\
  map lotView (lotsOf (replay (transactions buyThenSell)) "OGDC") <>
  map lotView (lotsOf buyThenSell "OGDC").
Proof.
  split; [vm_compute; reflexivity|].
  split; [qc_compute|]. split; [qc_compute|].
  intros H. vm_compute in H. discriminate H.
Qed.

(** The source of it: a SELL returns from [addTransaction] before the
    transaction is pushed, whatever the ledger. *)
Lemma addTransaction_sell_not_recorded (q : FIFOQueue) (symbol0 : string)
    (quantity0 price0 : Qc) (date now : Date) :
  transactions (snd (addTransaction "SELL" symbol0 quantity0 price0 date now q)) =
  transactions q.
Proof.
  unfold addTransaction, _processSell, bind, get, throw, ret, modify.
  rewrite toUpperCase_SELL.
  cbn [String.eqb Ascii.eqb Bool.eqb tx_symbol tx_quantity tx_price tx_settlementDate].
  destruct (holdings q !! toUpperCase symbol0) as [[|lot rest]|]; cbn [fst snd];
    try reflexivity.
  destruct (ltb _ quantity0); cbn [snd]; [reflexivity|].
  destruct (sellLoop _ _ _ _ _) as [[[? ?] ?] ?]. reflexivity.
Qed.

(** A BUY is recorded. *)
Lemma addTransaction_buy_recorded (q : FIFOQueue) (symbol0 : string)
    (quantity0 price0 : Qc) (date now : Date) :
  exists t : Transaction,
    fst (addTransaction "BUY" symbol0 quantity0 price0 date now q) = inr (inl t) /\
    transactions (snd (addTransaction "BUY" symbol0 quantity0 price0 date now q)) =
      transactions q ++ [t].
Proof.
  unfold addTransaction, _processBuy, bind, get, modify, ret.
  change (toUpperCase "BUY") with "BUY"%string.
  cbn [String.eqb Ascii.eqb Bool.eqb fst snd].
  eexists. split; reflexivity.
Qed.

Lemma toUpperAscii_idempotent (c : ascii) :
  toUpperAscii (toUpperAscii c) = toUpperAscii c.
Proof. destruct c as [[] [] [] [] [] [] [] []]; reflexivity. Qed.

Lemma toUpperCase_idempotent (s : string) :
  toUpperCase (toUpperCase s) = toUpperCase s.
Proof.
  induction s as [|c s IH]; cbn [toUpperCase]; [reflexivity|].
  rewrite toUpperAscii_idempotent, IH. reflexivity.
Qed.

(** The transaction that a BUY records. *)
Lemma buy_transactions (q : FIFOQueue) (r : BuyRequest) :
  exists t : Transaction,
    transactions (buy q r) = transactions q ++ [t] /\
    replayStep q t = buy q r.
Proof.
  unfold buy, replayStep, addTransaction, _processBuy, bind, get, modify, ret.
  change (toUpperCase "BUY") with "BUY"%string.
  cbn [String.eqb Ascii.eqb Bool.eqb fst snd].
  eexists. split; [reflexivity|].
  cbn [tx_type tx_symbol tx_quantity tx_price tx_tradeDate tx_timestamp].
  change (toUpperCase "BUY") with "BUY"%string.
  cbn [String.eqb Ascii.eqb Bool.eqb fst snd].
  rewrite toUpperCase_idempotent. reflexivity.
Qed.

(** Replay reconstructs a ledger that has seen buys only. *)
Lemma replay_buys_only (requests : list BuyRequest) :
  replay (transactions (buyAll requests)) = buyAll requests.
Proof.
  induction requests as [|r requests IH] using rev_ind.
  - reflexivity.
  - unfold buyAll in *. rewrite fold_left_app. cbn [fold_left].
    destruct (buy_transactions (fold_left buy requests newFIFOQueue) r) as (t & Ht & Hstep).
    rewrite Ht. unfold replay in *. rewrite fold_left_app. cbn [fold_left].
    rewrite IH. exact Hstep.
Qed.

(** ** Validation of quantity and price *)

(** C10 fails on [addTransaction]: a BUY of -5 shares is carried out; it adds
    a lot of -5 shares and is recorded. *)
Lemma addTransaction_accepts_nonpositive :
  exists (t : Transaction) (q' : FIFOQueue),
    addTransaction "BUY" "OGDC" (Z2Qc (-5)) (Z2Qc 10) jan_1_2025 0%Z newFIFOQueue
      = (inr (inl t), q') /\
    map lotView (lotsOf q' "OGDC") =
      [(Z2Qc (-5), Z2Qc (-5), Z2Qc 10, calculateSettlementDate jan_1_2025)] /\
    transactions q' = [t] /\
    q' <> newFIFOQueue.
Proof.
  unfold addTransaction, _processBuy, bind, get, modify, ret.
  change (toUpperCase "BUY") with "BUY"%string.
  cbn [String.eqb Ascii.eqb Bool.eqb fst snd].
  eexists. eexists. split; [reflexivity|].
  split; [qc_compute|]. split; [reflexivity|].
  intros H. apply (f_equal transactions) in H. discriminate H.
Qed.

(** C10, amended.  The transaction form rejects a request whose quantity or
    unit price is not positive: it shows the error message, the ledger is not
    called and stays as it was. *)
Theorem handleAddTransaction_rejects_nonpositive (q : FIFOQueue)
    (type symbol0 : string) (quantity0 price0 : Qc) (tradeDate : option Date)
    (now : Date) :
  quantity0 <= 0 \/ price0 <= 0 ->
  handleAddTransaction type symbol0 quantity0 price0 tradeDate now q
    = (PleaseFillAllFields, q).
Proof.
  intros H. unfold handleAddTransaction.
  destruct tradeDate as [date|]; [|reflexivity].
  destruct H as [H | H]; apply leb_le in H; rewrite H.
  - rewrite orb_true_r. reflexivity.
  - rewrite orb_true_r. reflexivity.
Qed.

Lemma handleAddTransaction_rejects_nonpositive_witness :
  (Z2Qc (-5) <= 0 \/ Z2Qc 10 <= 0) /\
  handleAddTransaction "BUY" "ogdc" (Z2Qc (-5)) (Z2Qc 10) (Some jan_1_2025) 0%Z twoBuys
    = (PleaseFillAllFields, twoBuys).
Proof.
  assert (H : Z2Qc (-5) <= 0 \/ Z2Qc 10 <= 0) by (left; qc_decide).
  split; [exact H|].
  exact (handleAddTransaction_rejects_nonpositive twoBuys "BUY" "ogdc" (Z2Qc (-5))
           (Z2Qc 10) (Some jan_1_2025) 0%Z H).
Defined.

(** ** The tax rate *)

Ltac z_hyps :=
  repeat match goal with
  | H : (_ && _) = true |- _ => apply andb_true_iff in H; destruct H
  | H : (_ <? _)%Z = true |- _ => apply Z.ltb_lt in H
  | H : (_ <=? _)%Z = true |- _ => apply Z.leb_le in H
  | H : (_ <? _)%Z = false |- _ => apply Z.ltb_ge in H
  | H : (_ <=? _)%Z = false |- _ => apply Z.leb_gt in H
  end.

Ltac z_cases :=
  repeat (match goal with
          | |- context [(?a <? ?b)%Z] => destruct (Z.ltb_spec a b)
          | |- context [(?a <=? ?b)%Z] => destruct (Z.leb_spec a b)
          end; try lia; cbn [andb]).

Lemma inBucket_bounds (holdingDays : Z) (b : Bucket) :
  inBucket holdingDays b = true <->
  (match lowerBoundDays b with Some lo => (lo <= holdingDays)%Z | None => True end /\
   match upperBoundDays b with Some hi => (holdingDays < hi)%Z | None => True end).
Proof.
  unfold inBucket. rewrite andb_true_iff.
  destruct (lowerBoundDays b), (upperBoundDays b);
    rewrite ?Z.leb_le, ?Z.ltb_lt; tauto.
Qed.

Lemma legacyBuckets_cover (holdingDays : Z) :
  exists b : Bucket,
    find (inBucket holdingDays) legacyBuckets = Some b /\
    In b legacyBuckets /\ inBucket holdingDays b = true /\
    forall b' : Bucket,
      In b' legacyBuckets -> inBucket holdingDays b' = true -> b' = b.
Proof.
  assert (Hcases : (holdingDays < 365 \/ 365 <= holdingDays < 730 \/
                    730 <= holdingDays < 1095 \/ 1095 <= holdingDays < 1460 \/
                    1460 <= holdingDays)%Z) by lia.
  unfold legacyBuckets.
  destruct Hcases as [H | [H | [H | [H | H]]]].
  1: exists (mkBucket None (Some 365%Z) lessThan1Year).
  2: exists (mkBucket (Some 365%Z) (Some 730%Z) oneToTwoYears).
  3: exists (mkBucket (Some 730%Z) (Some 1095%Z) twoToThreeYears).
  4: exists (mkBucket (Some 1095%Z) (Some 1460%Z) threeToFourYears).
  5: exists (mkBucket (Some 1460%Z) None fourPlusYears).
  all: split;
    [ unfold inBucket; cbn [find lowerBoundDays upperBoundDays andb]; z_cases; reflexivity
    | split; [cbn [In]; tauto|];
      split; [apply inBucket_bounds; cbn [lowerBoundDays upperBoundDays]; lia|];
      intros b' Hin Hb'; apply inBucket_bounds in Hb'; cbn [In] in Hin;
      repeat (destruct Hin as [<- | Hin];
              [first [reflexivity
                     | exfalso; cbn [lowerBoundDays upperBoundDays] in Hb'; lia]|]);
      destruct Hin ].
Qed.

(** C3.  The cutover that [getTaxRate] compares with is the start of July
    1, 2024, and [getTaxRate] is [rateFor]: the flat 15 % rate for a purchase
    on or after the cutover, whatever the holding days and the filer status;
    before the cutover, the rate that the table of the filer status gives to
    the one bucket [lowerBoundDays, upperBoundDays) that holds the holding
    days, the buckets being split at 365, 730, 1095 and 1460 days and the
    last one open above. *)
Theorem getTaxRate_rateFor (isFiler : bool) (purchaseDate0 : Date) (holdingDays : Z) :
  newRegimeCutoff = regimeCutover /\
  civilFromDays (dayNumber newRegimeCutoff) = (2024, 7, 1)%Z /\
  (newRegimeCutoff mod msPerDay = 0)%Z /\
  rateFor purchaseDate0 holdingDays isFiler = Some (getTaxRate isFiler purchaseDate0 holdingDays) /\
  ((regimeCutover <= purchaseDate0)%Z ->
     getTaxRate isFiler purchaseDate0 holdingDays = Q2Qc 0.15) /\
  ((purchaseDate0 < regimeCutover)%Z ->
     (exists b : Bucket, In b legacyBuckets /\ inBucket holdingDays b = true) /\
     forall b : Bucket,
       In b legacyBuckets -> inBucket holdingDays b = true ->
       getTaxRate isFiler purchaseDate0 holdingDays =
       bucketRate b (if isFiler then legacyRates_filer else legacyRates_nonFiler)) /\
  map (fun b => (lowerBoundDays b, upperBoundDays b)) legacyBuckets =
    [(None, Some 365); (Some 365, Some 730); (Some 730, Some 1095);
     (Some 1095, Some 1460); (Some 1460, None)]%Z.
Proof.
  assert (Hcutover : newRegimeCutoff = regimeCutover) by reflexivity.
  split; [exact Hcutover|]. split; [reflexivity|]. split; [reflexivity|].
  rewrite <- Hcutover.
  assert (Hlegacy : forall (rates : LegacyRates) (b : Bucket),
             In b legacyBuckets -> inBucket holdingDays b = true ->
             (if (holdingDays <? 365)%Z then lessThan1Year rates
              else if (holdingDays <? 730)%Z then oneToTwoYears rates
              else if (holdingDays <? 1095)%Z then twoToThreeYears rates
              else if (holdingDays <? 1460)%Z then threeToFourYears rates
              else fourPlusYears rates) = bucketRate b rates).
  { intros rates b Hin Hb. apply inBucket_bounds in Hb. cbn [legacyBuckets In] in Hin.
    repeat (destruct Hin as [<- | Hin];
            [cbn [lowerBoundDays upperBoundDays bucketRate] in *; z_cases; reflexivity|]).
    destruct Hin. }
  unfold rateFor, getTaxRate. rewrite <- Hcutover.
  destruct (newRegimeCutoff <=? purchaseDate0)%Z eqn:Hcut.
  - apply Z.leb_le in Hcut. split; [destruct isFiler; reflexivity|].
    split; [intros _; destruct isFiler; reflexivity|].
    split; [intros Hlt; lia | reflexivity].
  - apply Z.leb_gt in Hcut.
    destruct (legacyBuckets_cover holdingDays) as (b & Hfind & Hin & Hb & _).
    split; [|split; [|split; [|reflexivity]]].
    + rewrite Hfind. cbn [option_map]. rewrite <- (Hlegacy _ b Hin Hb).
      destruct isFiler; reflexivity.
    + intros Hge. lia.
    + intros _. split; [exists b; split; assumption|].
      intros b' Hin' Hb'. rewrite <- (Hlegacy _ b' Hin' Hb').
      destruct isFiler; reflexivity.
Qed.

(** ** The tax of a sale *)

Lemma getTaxRate_nonneg (isFiler : bool) (purchaseDate0 : Date) (holdingDays : Z) :
  0 <= getTaxRate isFiler purchaseDate0 holdingDays.
Proof.
  unfold getTaxRate.
  destruct (newRegimeCutoff <=? purchaseDate0)%Z, isFiler,
    (holdingDays <? 365)%Z, (holdingDays <? 730)%Z,
    (holdingDays <? 1095)%Z, (holdingDays <? 1460)%Z; qc_decide.
Qed.

Lemma max_0_nonneg (x : Qc) : 0 <= max 0 x.
Proof. unfold max. case_cmp; qc_lra. Qed.

Lemma max_0_nonpos (x : Qc) : x <= 0 -> max 0 x = 0.
Proof. intros H. unfold max. case_cmp; qc_lra. Qed.

Lemma lotTax_nonneg (isFiler : bool) (sellPrice0 : Qc) (lot : LotUsed) :
  0 <= tax (lotTaxEntry isFiler sellPrice0 lot).
Proof.
  unfold lotTaxEntry. cbn [tax].
  pose proof (getTaxRate_nonneg isFiler (lu_purchaseDate lot) (days (holdingPeriod lot))) as Hr.
  pose proof (max_0_nonneg ((sellPrice0 - costPerShare lot) * lu_quantity lot)) as Hg.
  remember (getTaxRate _ _ _) as rate. remember (max 0 _) as taxable.
  qc_nra.
Qed.

(** The loop of [calculateTaxForSale] against a map and a sum. *)
Lemma taxLoop_map (isFiler : bool) (sellPrice0 : Qc) (lots : list LotUsed) :
  forall (entries : list LotTax) (acc : Qc),
    fold_left
      (fun '(taxByLot, totalTax) lot =>
         let entry := lotTaxEntry isFiler sellPrice0 lot in
         (taxByLot ++ [entry], totalTax + tax entry))
      lots (entries, acc) =
    (entries ++ map (lotTaxEntry isFiler sellPrice0) lots,
     acc + total (map tax (map (lotTaxEntry isFiler sellPrice0) lots))).
Proof.
  induction lots as [|lot rest IH]; intros entries acc; cbn [fold_left map].
  - rewrite app_nil_r. f_equal. unfold total; cbn [fold_right]. ring.
  - rewrite IH, total_cons, <- app_assoc. f_equal. ring.
Qed.

Lemma total_nonneg (l : list Qc) : Forall (fun x => 0 <= x) l -> 0 <= total l.
Proof.
  induction 1 as [|x l Hx _ IH].
  - unfold total; cbn. qc_lra.
  - rewrite total_cons. remember (total l) as s. qc_lra.
Qed.

Lemma total_all_zero (l : list Qc) : Forall (fun x => x = 0) l -> total l = 0.
Proof.
  induction 1 as [|x l Hx _ IH].
  - reflexivity.
  - rewrite total_cons, Hx, IH. ring.
Qed.

Lemma calculateTaxForSale_fields (isFiler : bool) (sale : SaleResult) :
  taxByLot (calculateTaxForSale isFiler sale) =
    map (lotTaxEntry isFiler (sellPrice sale)) (lotsUsed sale) /\
  totalTax (calculateTaxForSale isFiler sale) =
    total (map tax (map (lotTaxEntry isFiler (sellPrice sale)) (lotsUsed sale))).
Proof.
  unfold calculateTaxForSale. rewrite taxLoop_map. cbn [taxByLot totalTax app].
  split; [reflexivity | ring].
Qed.

(** C4 fails as stated: the sale of 20 shares at 150 out of a lot of 10
    bought at 100 and a lot of 10 bought at 300 is a net loss of 1000, and its
    tax is 75, the tax on the gain of the first lot. *)
Lemma net_loss_sale_is_taxed :
  match fst (addTransaction "SELL" "OGDC" (Z2Qc 20) (Z2Qc 150) mar_1_2025 0%Z
               cheapThenDear) with
  | inr (inr sale) =>
      capitalGain sale = Z2Qc (-1000) /\
      totalTax (calculateTaxForSale true sale) = Z2Qc 75 /\
      capitalGain sale < 0 /\
      totalTax (calculateTaxForSale true sale) <> 0
  | _ => False
  end.
Proof.
  vm_compute. split; [apply Qc_is_canon; reflexivity|].
  split; [apply Qc_is_canon; reflexivity|].
  split; [reflexivity|]. intros H. discriminate H.
Qed.

(** C4, amended.  [calculateTaxForSale] taxes each consumed lot with
    max(0, (sellPrice - costPerShare) × quantity) × rate, and [totalTax] is
    the sum of these taxes: it is never negative, and it is zero for a sale
    none of whose lots shows a gain. *)
Theorem calculateTaxForSale_never_negative (isFiler : bool) (sale : SaleResult) :
  let entries := taxByLot (calculateTaxForSale isFiler sale) in
  entries = map (lotTaxEntry isFiler (sellPrice sale)) (lotsUsed sale) /\
  Forall2 (fun lot entry =>
             tax entry =
               max 0 ((sellPrice sale - costPerShare lot) * lu_quantity lot) *
               getTaxRate isFiler (lu_purchaseDate lot) (days (holdingPeriod lot)) /\
             0 <= tax entry)
          (lotsUsed sale) entries /\
  totalTax (calculateTaxForSale isFiler sale) = total (map tax entries) /\
  0 <= totalTax (calculateTaxForSale isFiler sale) /\
  (Forall (fun lot => (sellPrice sale - costPerShare lot) * lu_quantity lot <= 0)
          (lotsUsed sale) ->
   totalTax (calculateTaxForSale isFiler sale) = 0).
Proof.
  intros entries. destruct (calculateTaxForSale_fields isFiler sale) as [Hentries Htotal].
  subst entries. rewrite Hentries, Htotal. clear Hentries Htotal.
  split; [reflexivity|]. split; [|split; [reflexivity|split]].
  - induction (lotsUsed sale) as [|lot rest IH]; cbn [map]; constructor.
    + split; [reflexivity | apply lotTax_nonneg].
    + exact IH.
  - apply total_nonneg. induction (lotsUsed sale) as [|lot rest IH]; cbn [map];
      constructor; [apply lotTax_nonneg | exact IH].
  - intros Hloss. apply total_all_zero.
    induction Hloss as [|lot rest Hlot _ IH]; cbn [map]; constructor; [|exact IH].
    unfold lotTaxEntry. cbn [tax]. rewrite (max_0_nonpos _ Hlot). ring.
Qed.

(** ** [Math.floor] *)

Lemma Z2Qc_this (z : Z) : (this (Z2Qc z) == inject_Z z)%Q.
Proof. unfold Z2Qc, Q2Qc. cbn [this]. apply Qred_correct. Qed.

Lemma floor_le (x : Qc) : floor x <= x.
Proof.
  unfold floor, Qcle. rewrite Z2Qc_this. apply Qfloor_le.
Qed.


Lemma floor_nonneg (x : Qc) : 0 <= x -> 0 <= floor x.
Proof.
  intros H. unfold floor, Qcle. rewrite Z2Qc_this.
  change (this 0) with (inject_Z 0). rewrite <- Zle_Qle.
  change 0%Z with (Qfloor 0). apply Qfloor_resp_le. exact H.
Qed.


(** ** Binary64 rounding *)

Lemma roundHalfEven_nonneg (x : Q) : (0 <= x)%Q -> (0 <= roundHalfEven x)%Z.
Proof.
  intros H. unfold roundHalfEven.
  assert (Hf : (0 <= Qfloor x)%Z)
    by (change 0%Z with (Qfloor 0); apply Qfloor_resp_le; exact H).
  cbv zeta. destruct (_ ?= _)%Q; [destruct (Z.even _)|..]; lia.
Qed.

Lemma nearestDouble_nonneg (a : Q) : (0 <= a)%Q -> (0 <= nearestDouble a)%Q.
Proof.
  intros H. unfold nearestDouble. cbv zeta.
  remember (Qpower 2 (Z.max (floorLog2 a - 52) (-1074))) as ulp eqn:Eulp.
  assert (Hulp : (0 < ulp)%Q) by (subst ulp; apply Qpower_0_lt; reflexivity).
  apply Qmult_le_0_compat; [|apply Qlt_le_weak; exact Hulp].
  change 0%Q with (inject_Z 0). rewrite <- Zle_Qle. apply roundHalfEven_nonneg.
  apply Qle_shift_div_l; [exact Hulp|]. rewrite Qmult_0_l. exact H.
Qed.

(** Rounding keeps the sign, or gives zero. *)
Lemma roundToDouble_nonneg (x : Qc) : 0 <= x -> 0 <= roundToDouble x.
Proof.
  intros H. unfold roundToDouble. destruct (x ?= 0) eqn:E.
  - apply Qcle_refl.
  - exfalso. apply Qclt_alt in E. exact (Qcle_not_lt _ _ H E).
  - change (0 <= Qred (nearestDouble x))%Q. rewrite Qred_correct.
    apply nearestDouble_nonneg. exact H.
Qed.

Lemma roundToDouble_nonpos (x : Qc) : x <= 0 -> roundToDouble x <= 0.
Proof.
  intros H. unfold roundToDouble. destruct (x ?= 0) eqn:E.
  - apply Qcle_refl.
  - assert (Hn : 0 <= Q2Qc (nearestDouble (- x))).
    { change (0 <= Qred (nearestDouble (- x)))%Q. rewrite Qred_correct.
      apply nearestDouble_nonneg.
      change (- 0 <= - this x)%Q. apply Qopp_le_compat. exact H. }
    remember (Q2Qc (nearestDouble (- x))) as n. clear - Hn. qc_lra.
  - exfalso. apply Qcgt_alt in E. exact (Qcle_not_lt _ _ H E).
Qed.

Lemma mulDouble_nonneg (x y : Qc) : 0 <= x -> 0 <= y -> 0 <= mulDouble x y.
Proof.
  intros Hx Hy. apply roundToDouble_nonneg. clear - Hx Hy. qc_nra.
Qed.

Lemma mulDouble_nonpos (x y : Qc) : x <= 0 -> 0 <= y -> mulDouble x y <= 0.
Proof.
  intros Hx Hy. apply roundToDouble_nonpos. clear - Hx Hy. qc_nra.
Qed.

(** The rounding at work: the products and quotients below are whole in
    exact arithmetic, and their binary64 values fall just short. *)
Lemma binary64_examples :
  floor (mulDouble (Z2Qc 100) (divDouble (parseFloat (Z2Qc 29)) (Z2Qc 100))) = Z2Qc 28 /\
  floor (mulDouble (Z2Qc 55) (divDouble (parseFloat (Z2Qc 3)) (parseFloat (Z2Qc 11))))
    = Z2Qc 14 /\
  floor (mulDouble (Z2Qc 49) (divDouble (parseFloat (Z2Qc 1)) (parseFloat (Z2Qc 49))))
    = Z2Qc 0 /\
  floor (mulDouble (Z2Qc 180) (parseFloat (Q2Qc 0.35))) = Z2Qc 62 /\
  floor (divDouble (Z2Qc 110) (addDouble 1 (parseFloat (Q2Qc 0.1)))) = Z2Qc 99 /\
  floor (mulDouble (Z2Qc 100) (divDouble (parseFloat (Z2Qc 20)) (Z2Qc 100))) = Z2Qc 20 /\
  parseFloat (Q2Qc 0.1) = Q2Qc (3602879701896397 # 36028797018963968).
Proof.
  repeat split; apply Qc_is_canon; vm_compute; reflexivity.
Qed.

(** The model's numbers are those of the kernel's binary64: on 10, 20, ...,
    200 shares for every ratio of 1 % to 100 %, and on 11, 22, ..., 66 shares
    for every ratio n:m with n and m from 1 to 12. *)
Lemma roundToDouble_agrees_with_binary64 :
  forallb (fun shares => forallb (percentAgrees shares) (upTo 100))
          (map (Z.mul 10) (upTo 20)) = true /\
  forallb (fun shares =>
             forallb (fun rights => forallb (colonAgrees shares rights) (upTo 12))
                     (upTo 12))
          (map (Z.mul 11) (upTo 6)) = true.
Proof.
  split; vm_compute; reflexivity.
Qed.

(** ** Bonus shares *)

Lemma sumEligible_acc (exDate : Date) (f : Lot -> Qc) (lots : list Lot) (a : Qc) :
  fold_left (fun total0 lot => if eligible exDate lot then total0 + f lot else total0) lots a
  = a + total (map f (List.filter (eligible exDate) lots)).
Proof.
  revert a. induction lots as [|lot rest IH]; intros a; cbn [fold_left List.filter].
  - unfold total; cbn. ring.
  - rewrite IH. destruct (eligible exDate lot); cbn [map]; rewrite ?total_cons; ring.
Qed.

Lemma sumEligible_total (exDate : Date) (f : Lot -> Qc) (lots : list Lot) :
  sumEligible exDate f lots = total (map f (List.filter (eligible exDate) lots)).
Proof. unfold sumEligible. rewrite sumEligible_acc. ring. Qed.

(** A bonus at a ratio above zero leaves no lot without shares that had
    some. *)
Lemma bonus_remaining_nonzero (old ratio : Qc) :
  0 < ratio -> old <> 0 -> old + floor (mulDouble old ratio) <> 0.
Proof.
  intros Hr Hold.
  assert (Hr0 : 0 <= ratio) by (clear - Hr; qc_lra).
  destruct (Qclt_le_dec 0 old) as [Hpos | Hneg].
  - assert (H : 0 <= floor (mulDouble old ratio)).
    { apply floor_nonneg, mulDouble_nonneg; [clear - Hpos; qc_lra | exact Hr0]. }
    remember (floor (mulDouble old ratio)) as f. clear - Hpos H. qc_lra.
  - pose proof (floor_le (mulDouble old ratio)) as H.
    pose proof (mulDouble_nonpos old ratio Hneg Hr0) as Hp.
    remember (floor (mulDouble old ratio)) as f.
    remember (mulDouble old ratio) as p.
    assert (Hlt : old < 0).
    { destruct (Qc_eq_dec old 0) as [E|E]; [contradiction|].
      apply Qcle_lt_or_eq in Hneg. destruct Hneg; [assumption | contradiction]. }
    clear - Hlt H Hp. qc_lra.
Qed.






(** ** Right issues *)




(** The right issue of 1 for 200 on 100 shares entitles to no share: it
    fails and changes nothing. *)
Lemma applyRightIssue_too_small :
  exists e : Error,
    _applyRightIssue "HBL" rights1for200 mar_1_2025 hundredShares = (inl e, hundredShares).
Proof.
  eexists. vm_compute. reflexivity.
Qed.

(** ** Reversal of corporate actions *)

(** C6, at a 20 % bonus on one lot of 7 shares bought at 100, applied and
    then reversed with no sale in between: the bonus gives floor(1.4) = 1
    share, 8 shares at 87.5; the reversal computes floor(8 / 1.2) = 6 shares
    and the unit cost 700/6, where the lot had 7 shares at 100. *)
Theorem bonus_reversal_does_not_restore :
  let applied := applyCorporateAction "HBL" "BONUS" bonus20 jun_1_2025 sevenShares in
  let reversed := reverseCorporateAction 1 jun_1_2025 (snd applied) in
  (exists record : ActionRecord, fst applied = inr record) /\
  fst reversed = inr tt /\
  map lotView (lotsOf (fifoQueue sevenShares) "HBL") =
    [(Z2Qc 7, Z2Qc 7, Z2Qc 100, calculateSettlementDate jan_1_2025)] /\
  map lotView (lotsOf (fifoQueue (snd applied)) "HBL") =
    [(Z2Qc 7, Z2Qc 8, Q2Qc (175 # 2), calculateSettlementDate jan_1_2025)] /\
  map lotView (lotsOf (fifoQueue (snd reversed)) "HBL") =
    [(Z2Qc 7, Z2Qc 6, Q2Qc (350 # 3), calculateSettlementDate jan_1_2025)] /\
  map lotView (lotsOf (fifoQueue (snd reversed)) "HBL") <>
  map lotView (lotsOf (fifoQueue sevenShares) "HBL").
Proof.
  intros applied reversed.
  split; [eexists; vm_compute; reflexivity|].
  split; [vm_compute; reflexivity|].
  split; [qc_compute|]. split; [qc_compute|]. split; [qc_compute|].
  intros H. vm_compute in H. discriminate H.
Qed.

Lemma floor_Z2Qc (z : Z) : floor (Z2Qc z) = Z2Qc z.
Proof.
  unfold floor. f_equal. rewrite (Qfloor_comp _ _ (Z2Qc_this z)). apply Qfloor_Z.
Qed.

Lemma Z2Qc_pos (k : Z) : (0 < k)%Z -> 0 < Z2Qc k.
Proof.
  intros H. unfold Qclt. rewrite Z2Qc_this. change (this 0) with (inject_Z 0).
  rewrite <- Zlt_Qlt. exact H.
Qed.

(** The reversal of a bonus does restore a lot that holds shares when its
    floor gives the share count of the lot back. *)
Lemma reverseBonusLot_adjustBonusLot (exDate : Date) (ratio : Qc) (lot : Lot) :
  0 < ratio ->
  (eligible exDate lot = true ->
   remainingQuantity lot <> 0 /\
   floor (divDouble (remainingQuantity lot +
                     floor (mulDouble (remainingQuantity lot) ratio))
                    (addDouble 1 ratio)) = remainingQuantity lot) ->
  reverseBonusLot exDate ratio (adjustBonusLot exDate ratio lot) = lot.
Proof.
  intros Hr Hback.
  unfold reverseBonusLot, adjustBonusLot, eligible in *.
  destruct (purchaseDate lot <? exDate)%Z eqn:E; cbn [purchaseDate]; rewrite E;
    [|destruct lot; reflexivity].
  destruct (Hback eq_refl) as [Hne Hfloor].
  cbn [remainingQuantity price quantity originalTransaction].
  rewrite Hfloor.
  pose proof (bonus_remaining_nonzero _ _ Hr Hne) as Hsum.
  destruct lot as [q p d r o].
  cbn [remainingQuantity price quantity originalTransaction purchaseDate] in *.
  f_equal. field. split; assumption.
Qed.

Lemma findIndex_app_last {A : Type} (p : A -> bool) (l : list A) (x : A) :
  Forall (fun y => p y = false) l -> p x = true ->
  findIndex p (l ++ [x]) = Some (length l).
Proof.
  intros Hl Hx. induction Hl as [|y l Hy _ IH]; cbn [app findIndex length].
  - rewrite Hx. reflexivity.
  - rewrite Hy, IH. reflexivity.
Qed.

Lemma splice1_app_last {A : Type} (l : list A) (x : A) :
  splice1 (length l) (l ++ [x]) = l.
Proof.
  induction l as [|y l IH]; cbn [app splice1 length]; [reflexivity|].
  rewrite IH. reflexivity.
Qed.

Lemma nth_error_app_last {A : Type} (l : list A) (x : A) :
  nth_error (l ++ [x]) (length l) = Some x.
Proof.
  induction l as [|y l IH]; cbn [app nth_error length]; [reflexivity | exact IH].
Qed.

(** The reversal of a right issue removes the appended lot and gives back
    the manager as it was, when no lot of the queue before it is a
    right-issue lot with the same purchase date and quantity. *)
Lemma reverseRightIssue_removes_lot (m : CorporateActionsManager)
    (action : ActionRecord) (lots : list Lot) (newLot : Lot)
    (rightSharesEntitled : Qc) (rightPurchaseDate : Date)
    (a b c d e f g : Qc) :
  ca_result action =
    RightResult a rightSharesEntitled b c d e f g rightPurchaseDate ->
  holdings (fifoQueue m) !! ca_symbol action = Some lots ->
  Forall (fun lot => isRightLot rightPurchaseDate rightSharesEntitled lot = false) lots ->
  isRightLot rightPurchaseDate rightSharesEntitled newLot = true ->
  remainingQuantity newLot = quantity newLot ->
  _reverseRightIssue action
    (withQueue (setLots (ca_symbol action) (lots ++ [newLot])) m) = (inr tt, m).
Proof.
  intros Hres Hlots Hold Hnew Hfull.
  unfold _reverseRightIssue. rewrite Hres.
  unfold bind, get, modify, throw, withQueue, setLots.
  cbn [fifoQueue holdings corporateActions transactions realizedGains].
  rewrite lookup_insert_eq.
  rewrite (findIndex_app_last _ _ _ Hold Hnew), nth_error_app_last.
  assert (Heq : eqb (remainingQuantity newLot) (quantity newLot) = true)
    by (apply eqb_eq; exact Hfull).
  rewrite Heq. cbn [negb]. rewrite splice1_app_last.
  cbn [fifoQueue holdings corporateActions transactions realizedGains].
  rewrite insert_insert_eq, (insert_id _ _ _ Hlots).
  destruct m as [[h t r] acts]. reflexivity.
Qed.

(** ** More on the settlement date *)

Lemma getDay_shift (d : Date) (k : Z) :
  getDay (d + k * msPerDay)%Z = ((getDay d + k) mod 7)%Z.
Proof.
  unfold getDay, dayNumber. rewrite Z.div_add by (unfold msPerDay; lia).
  rewrite Zplus_mod_idemp_l. f_equal. ring.
Qed.

Lemma getDay_range (d : Date) : (0 <= getDay d < 7)%Z.
Proof. unfold getDay. apply Z.mod_pos_bound. lia. Qed.

(** The settlement date by the day of the week of the trade: four days after
    a Thursday or a Friday, three after a Saturday, two otherwise. *)
Lemma calculateSettlementDate_by_weekday (tradeDate : Date) :
  calculateSettlementDate tradeDate =
    (tradeDate +
     (if (getDay tradeDate =? 4)%Z || (getDay tradeDate =? 5)%Z then 4
      else if (getDay tradeDate =? 6)%Z then 3 else 2) * msPerDay)%Z.
Proof.
  unfold calculateSettlementDate.
  pose proof (getDay_range tradeDate) as Hr.
  pose proof (getDay_shift tradeDate) as Hday.
  remember (getDay tradeDate) as r eqn:Er. clear Er.
  assert (Hstep : forall k, (tradeDate + k * msPerDay + msPerDay =
                             tradeDate + (k + 1) * msPerDay)%Z) by (intros; ring).
  assert (H0 : tradeDate = (tradeDate + 0 * msPerDay)%Z) by lia.
  assert (Hcases : (r = 0 \/ r = 1 \/ r = 2 \/ r = 3 \/ r = 4 \/ r = 5 \/ r = 6)%Z) by lia.
  destruct Hcases as [-> | [-> | [-> | [-> | [-> | [-> | ->]]]]]].
  all: rewrite H0 at 1;
       repeat (rewrite settlementLoop_step by lia;
               rewrite Hstep, Hday;
               match goal with
               | |- context [if ?c then _ else _] =>
                   let v := eval vm_compute in c in change c with v; cbv iota
               end;
               match goal with
               | |- context [settlementLoop _ (?d + ?k * msPerDay)%Z ?a] =>
                   let k' := eval vm_compute in k in
                   let a' := eval vm_compute in a in
                   change (d + k * msPerDay)%Z with (d + k' * msPerDay)%Z;
                   change a with a'
               end);
       rewrite settlementLoop_done by lia; reflexivity.
Qed.

(** X1.  The settlement date is two, three or four days after the trade
    date, it is a business day, and exactly two of the days that follow the
    trade date up to it are business days. *)
Theorem settlement_is_second_business_day (tradeDate : Date) :
  exists n : nat,
    (2 <= n <= 4)%nat /\
    calculateSettlementDate tradeDate = (tradeDate + Z.of_nat n * msPerDay)%Z /\
    isBusinessDay (calculateSettlementDate tradeDate) = true /\
    businessDaysAfter tradeDate n = 2%nat.
Proof.
  rewrite calculateSettlementDate_by_weekday.
  pose proof (getDay_range tradeDate) as Hr.
  unfold businessDaysAfter, isBusinessDay.
  pose proof (getDay_shift tradeDate) as Hday.
  remember (getDay tradeDate) as r eqn:Er. clear Er.
  assert (Hcases : (r = 0 \/ r = 1 \/ r = 2 \/ r = 3 \/ r = 4 \/ r = 5 \/ r = 6)%Z) by lia.
  destruct Hcases as [-> | [-> | [-> | [-> | [-> | [-> | ->]]]]]].
  all: cbn [Z.eqb orb Pos.eqb].
  1-4: exists 2%nat.
  5-6: exists 4%nat.
  7: exists 3%nat.
  all: split; [lia|]; split; [reflexivity|]; cbn [seq map List.filter];
       change (Z.of_nat 1) with 1%Z; change (Z.of_nat 2) with 2%Z;
       change (Z.of_nat 3) with 3%Z; change (Z.of_nat 4) with 4%Z;
       rewrite !Hday; split; reflexivity.
Qed.

(** The settlement of a later trade is not earlier, for a trade two days or
    more later. *)
Lemma calculateSettlementDate_later (tradeDate : Date) (n : Z) :
  (2 <= n)%Z ->
  (calculateSettlementDate tradeDate <=
   calculateSettlementDate (tradeDate + n * msPerDay))%Z.
Proof.
  intros Hn. rewrite !calculateSettlementDate_by_weekday.
  assert (Hms : (0 < msPerDay)%Z) by (unfold msPerDay; lia).
  repeat match goal with
         | |- context [if ?c then _ else _] => destruct c
         end; nia.
Qed.

(** ** What a buy and a sell change *)

(** The run of a committed sell that the queue covers. *)
Lemma addTransaction_sell_run (q : FIFOQueue) (symbol0 : string)
    (quantity0 price0 : Qc) (date now : Date) (lots : list Lot) :
  holdings q !! toUpperCase symbol0 = Some lots ->
  lots <> [] ->
  quantity0 <= sumOf remainingQuantity lots ->
  let takes := fifoTakes lots quantity0 in
  let r := {| symbol := toUpperCase symbol0;
              quantitySold := quantity0;
              sellPrice := price0;
              saleProceeds := quantity0 * price0;
              totalCostBasis := costOfTakes lots takes;
              capitalGain := quantity0 * price0 - costOfTakes lots takes;
              lotsUsed := usedEntries (calculateSettlementDate date) (touchedLots lots takes);
              saleDate := calculateSettlementDate date;
              isSimulation := false |} in
  addTransaction "SELL" symbol0 quantity0 price0 date now q =
    (inr (inr r),
     pushRealizedGain r
       (setLots (toUpperCase symbol0)
          (List.filter (fun lot => ltb 0 (remainingQuantity lot)) (consumeLots lots takes))
          q)).
Proof.
  intros Hlots Hne Hle takes r.
  unfold addTransaction, _processSell, bind, get, throw, ret, modify.
  rewrite toUpperCase_SELL.
  cbn [String.eqb Ascii.eqb Bool.eqb tx_symbol tx_quantity tx_price tx_settlementDate].
  rewrite Hlots. destruct lots as [|lot0 rest]; [contradiction|].
  assert (Hcmp : ltb (sumOf remainingQuantity (lot0 :: rest)) quantity0 = false)
    by (apply ltb_ge; exact Hle).
  rewrite Hcmp, sellLoop_fifo. fold takes.
  assert (Hb : 0 + costOfTakes (lot0 :: rest) takes = costOfTakes (lot0 :: rest) takes)
    by ring.
  rewrite Hb. reflexivity.
Qed.

Lemma consumeLots_remaining (lots : list Lot) :
  forall n : Qc,
    Forall (fun lot => 0 <= remainingQuantity lot) lots ->
    Forall (fun lot => 0 <= remainingQuantity lot) (consumeLots lots (fifoTakes lots n)) /\
    total (map remainingQuantity (consumeLots lots (fifoTakes lots n))) =
      total (map remainingQuantity lots) - total (fifoTakes lots n).
Proof.
  induction lots as [|lot rest IH]; intros n Hall.
  - split; [constructor|]. unfold total; cbn. ring.
  - inversion Hall as [|? ? Hlot Hrest]; subst.
    cbn [fifoTakes]. rewrite consumeLots_cons.
    destruct (IH (n - max 0 (min (remainingQuantity lot) n)) Hrest) as [IH1 IH2].
    split.
    + constructor; [|exact IH1]. cbn [setRemaining remainingQuantity].
      revert Hlot. unfold max, min. case_cmp; intros; qc_lra.
    + cbn [map]. rewrite !total_cons, IH2. cbn [setRemaining remainingQuantity]. ring.
Qed.

Lemma total_filter_positive (lots : list Lot) :
  Forall (fun lot => 0 <= remainingQuantity lot) lots ->
  total (map remainingQuantity
           (List.filter (fun lot => ltb 0 (remainingQuantity lot)) lots)) =
  total (map remainingQuantity lots).
Proof.
  induction 1 as [|lot rest Hlot _ IH]; cbn [List.filter map]; [reflexivity|].
  destruct (ltb 0 (remainingQuantity lot)) eqn:E; cbn [map]; rewrite !total_cons, IH.
  - reflexivity.
  - apply ltb_ge in E. assert (Hz : remainingQuantity lot = 0) by qc_lra.
    rewrite Hz. ring.
Qed.

(** X2.  A committed sell of a quantity between zero and what the queue
    holds, on a queue without negative lots, reduces the shares of the symbol
    by exactly the quantity sold; it leaves the queues of the other symbols
    as they were and appends its result to the realized gains. *)
Theorem sell_conserves_shares (q : FIFOQueue) (symbol0 : string)
    (quantity0 price0 : Qc) (date now : Date) :
  Forall (fun lot => 0 <= remainingQuantity lot) (lotsOf q (toUpperCase symbol0)) ->
  lotsOf q (toUpperCase symbol0) <> [] ->
  0 <= quantity0 ->
  quantity0 <= sumOf remainingQuantity (lotsOf q (toUpperCase symbol0)) ->
  exists (r : SaleResult) (q' : FIFOQueue),
    addTransaction "SELL" symbol0 quantity0 price0 date now q = (inr (inr r), q') /\
    sumOf remainingQuantity (lotsOf q' (toUpperCase symbol0)) =
      sumOf remainingQuantity (lotsOf q (toUpperCase symbol0)) - quantity0 /\
    (forall other : string,
        other <> toUpperCase symbol0 -> holdings q' !! other = holdings q !! other) /\
    realizedGains q' = realizedGains q ++ [r].
Proof.
  intros Hnonneg Hne Hpos Hle.
  unfold lotsOf in Hnonneg, Hne, Hle |- *.
  destruct (holdings q !! toUpperCase symbol0) as [lots|] eqn:Hlots;
    cbn [default from_option id] in *; [|contradiction].
  pose proof (addTransaction_sell_run q symbol0 quantity0 price0 date now lots
                Hlots Hne Hle) as Hrun.
  cbv zeta in Hrun. eexists. eexists. split; [exact Hrun|].
  cbn [pushRealizedGain setLots holdings realizedGains].
  split; [|split].
  - rewrite lookup_insert_eq. cbn [default from_option id].
    destruct (consumeLots_remaining lots quantity0 Hnonneg) as [Hall Hsum].
    rewrite !sumOf_total, (total_filter_positive _ Hall), Hsum.
    rewrite (fifoTakes_total lots quantity0 Hpos Hle). reflexivity.
  - intros other Hother. apply lookup_insert_ne. congruence.
  - reflexivity.
Qed.

Lemma sell_conserves_shares_witness :
  Forall (fun lot => 0 <= remainingQuantity lot) (lotsOf twoBuys (toUpperCase "ogdc")) /\
  lotsOf twoBuys (toUpperCase "ogdc") <> [] /\
  0 <= Z2Qc 120 /\
  Z2Qc 120 <= sumOf remainingQuantity (lotsOf twoBuys (toUpperCase "ogdc")) /\
  sumOf remainingQuantity
    (lotsOf (ledgerOf (addTransaction "SELL" "ogdc" (Z2Qc 120) (Z2Qc 150) mar_1_2025 0%Z
                         twoBuys)) (toUpperCase "ogdc")) = Z2Qc 30.
Proof.
  assert (H1 : Forall (fun lot => 0 <= remainingQuantity lot)
                      (lotsOf twoBuys (toUpperCase "ogdc"))).
  { remember (lotsOf twoBuys (toUpperCase "ogdc")) as lots eqn:E.
    vm_compute in E. subst lots. repeat constructor; qc_decide. }
  assert (H2 : lotsOf twoBuys (toUpperCase "ogdc") <> [])
    by (intros H; vm_compute in H; discriminate H).
  assert (H3 : 0 <= Z2Qc 120) by qc_decide.
  assert (H4 : Z2Qc 120 <= sumOf remainingQuantity (lotsOf twoBuys (toUpperCase "ogdc")))
    by qc_decide.
  repeat (split; [assumption|]).
  destruct (sell_conserves_shares twoBuys "ogdc" (Z2Qc 120) (Z2Qc 150) mar_1_2025 0%Z
              H1 H2 H3 H4) as (r & q' & Hrun & Hsum & _).
  unfold ledgerOf. rewrite Hrun. cbn [snd]. rewrite Hsum. qc_compute.
Defined.

Lemma consumeLots_keys (lots : list Lot) (takes : list Qc) :
  length takes = length lots ->
  map lotKey (consumeLots lots takes) = map lotKey lots.
Proof.
  revert takes. induction lots as [|lot rest IH]; intros [|t ts] Hlen;
    try discriminate; [reflexivity|].
  rewrite consumeLots_cons. cbn [map]. rewrite IH by (cbn in Hlen; lia). reflexivity.
Qed.

Lemma fifoTakes_length (lots : list Lot) (n : Qc) :
  length (fifoTakes lots n) = length lots.
Proof.
  revert n. induction lots as [|lot rest IH]; intros n; cbn [fifoTakes length];
    [reflexivity|]. rewrite IH. reflexivity.
Qed.

Lemma filter_keys_sublist (p : Lot -> bool) (lots : list Lot) :
  sublist (map lotKey (List.filter p lots)) (map lotKey lots).
Proof.
  induction lots as [|lot rest IH]; cbn [List.filter map]; [constructor|].
  destruct (p lot); cbn [map]; [apply sublist_skip | apply sublist_cons]; exact IH.
Qed.

Lemma consumeLots_bounded (lots : list Lot) :
  forall n : Qc,
    Forall (fun lot => remainingQuantity lot <= quantity lot) lots ->
    Forall (fun lot => remainingQuantity lot <= quantity lot)
           (consumeLots lots (fifoTakes lots n)).
Proof.
  induction lots as [|lot rest IH]; intros n Hall; [constructor|].
  inversion Hall as [|? ? Hlot Hrest]; subst.
  cbn [fifoTakes]. rewrite consumeLots_cons. constructor; [|apply IH; exact Hrest].
  cbn [setRemaining remainingQuantity quantity].
  revert Hlot. unfold max, min. case_cmp; intros; qc_lra.
Qed.

Lemma filter_positive_lotOk (lots : list Lot) :
  Forall (fun lot => remainingQuantity lot <= quantity lot) lots ->
  Forall lotOk (List.filter (fun lot => ltb 0 (remainingQuantity lot)) lots).
Proof.
  induction 1 as [|lot rest Hlot _ IH]; cbn [List.filter]; [constructor|].
  destruct (ltb 0 (remainingQuantity lot)) eqn:E; [|exact IH].
  constructor; [|exact IH]. split; [apply ltb_lt; exact E | exact Hlot].
Qed.

(** X3.  A committed sell keeps the lot invariant and the order of the
    queue: when no lot of the symbol holds more than it was bought with,
    every lot left in the queue has 0 < remainingQuantity <= quantity, and
    the lots left are, in the same order, lots of the queue before, with
    their quantity, price, purchase date and origin unchanged. *)
Theorem sell_keeps_queue_invariant (q : FIFOQueue) (symbol0 : string)
    (quantity0 price0 : Qc) (date now : Date) (r : SaleResult) (q' : FIFOQueue) :
  addTransaction "SELL" symbol0 quantity0 price0 date now q = (inr (inr r), q') ->
  Forall (fun lot => remainingQuantity lot <= quantity lot)
         (lotsOf q (toUpperCase symbol0)) ->
  Forall lotOk (lotsOf q' (toUpperCase symbol0)) /\
  sublist (map lotKey (lotsOf q' (toUpperCase symbol0)))
          (map lotKey (lotsOf q (toUpperCase symbol0))).
Proof.
  intros Hrun Hall.
  unfold addTransaction, _processSell, bind, get, throw, ret, modify in Hrun.
  rewrite toUpperCase_SELL in Hrun.
  cbn [String.eqb Ascii.eqb Bool.eqb tx_symbol tx_quantity tx_price tx_settlementDate]
    in Hrun.
  unfold lotsOf in *.
  destruct (holdings q !! toUpperCase symbol0) as [[|lot0 rest]|] eqn:Hlots;
    try discriminate.
  remember (lot0 :: rest) as lots eqn:El in *. clear El.
  destruct (ltb (sumOf remainingQuantity lots) quantity0); [discriminate|].
  rewrite sellLoop_fifo in Hrun. injection Hrun as _ <-.
  cbn [pushRealizedGain setLots holdings]. rewrite lookup_insert_eq.
  cbn [default from_option id] in *.
  split.
  - apply filter_positive_lotOk, consumeLots_bounded, Hall.
  - etransitivity; [apply filter_keys_sublist|].
    rewrite consumeLots_keys by apply fifoTakes_length. reflexivity.
Qed.

Lemma sell_keeps_queue_invariant_witness :
  let run := addTransaction "SELL" "ogdc" (Z2Qc 120) (Z2Qc 150) mar_1_2025 0%Z twoBuys in
  Forall (fun lot => remainingQuantity lot <= quantity lot)
         (lotsOf twoBuys (toUpperCase "ogdc")) /\
  Forall lotOk (lotsOf (snd run) (toUpperCase "ogdc")).
Proof.
  intros run.
  assert (H1 : Forall (fun lot => remainingQuantity lot <= quantity lot)
                      (lotsOf twoBuys (toUpperCase "ogdc"))).
  { remember (lotsOf twoBuys (toUpperCase "ogdc")) as lots eqn:E.
    vm_compute in E. subst lots. repeat constructor; qc_decide. }
  split; [exact H1|].
  destruct run as [[e | [t | r]] q'] eqn:Hrun.
  - exfalso. subst run. vm_compute in Hrun. discriminate Hrun.
  - exfalso. subst run. vm_compute in Hrun. discriminate Hrun.
  - destruct (sell_keeps_queue_invariant twoBuys "ogdc" (Z2Qc 120) (Z2Qc 150) mar_1_2025
                0%Z r q' Hrun H1) as [Hok _].
    exact Hok.
Defined.

(** ** The accounts of a sale *)

Lemma fifoTakes_nonneg (lots : list Lot) (n : Qc) :
  Forall (fun taken => 0 <= taken) (fifoTakes lots n).
Proof.
  revert n. induction lots as [|lot rest IH]; intros n; cbn [fifoTakes]; constructor.
  - apply max_0_nonneg.
  - apply IH.
Qed.

(** Summing over the touched lots is summing over all lots, for a quantity
    that is zero on a lot that gives nothing. *)
Lemma touchedLots_total (g : Lot -> Qc -> Qc) (lots : list Lot) (takes : list Qc) :
  (forall lot, g lot 0 = 0) ->
  Forall (fun taken => 0 <= taken) takes ->
  total (map (fun '(lot, taken) => g lot taken) (touchedLots lots takes)) =
  total (map (fun '(lot, taken) => g lot taken) (combine lots takes)).
Proof.
  intros Hg Hall. revert lots.
  induction Hall as [|t ts Ht _ IH]; intros [|lot rest]; try reflexivity.
  rewrite touchedLots_cons. cbn [combine map]. rewrite total_cons.
  destruct (ltb 0 t) eqn:E; cbn [map]; rewrite ?total_cons, IH; [reflexivity|].
  apply ltb_ge in E. assert (Hz : t = 0) by qc_lra. rewrite Hz, Hg. ring.
Qed.

Lemma combine_takes_total (lots : list Lot) (takes : list Qc) :
  length takes = length lots ->
  total (map (fun '(_, taken) => taken) (combine lots takes)) = total takes.
Proof.
  revert takes. induction lots as [|lot rest IH]; intros [|t ts] Hlen;
    try discriminate; [reflexivity|].
  cbn [combine map]. rewrite !total_cons, IH by (cbn in Hlen; lia). reflexivity.
Qed.

Lemma combine_gain_total (p : Qc) (lots : list Lot) (takes : list Qc) :
  length takes = length lots ->
  total (map (fun '(lot, taken) => (p - price lot) * taken) (combine lots takes)) =
  p * total takes - costOfTakes lots takes.
Proof.
  revert takes. induction lots as [|lot rest IH]; intros [|t ts] Hlen;
    try discriminate.
  - unfold costOfTakes, total; cbn. ring.
  - cbn [combine map]. rewrite costOfTakes_cons, !total_cons, IH by (cbn in Hlen; lia).
    ring.
Qed.

Lemma usedEntries_map {B : Type} (f : LotUsed -> B) (g : Lot -> Qc -> B) (sd : Date)
    (touched : list (Lot * Qc)) :
  (forall lot taken, f (usedEntry sd lot taken) = g lot taken) ->
  map f (usedEntries sd touched) = map (fun '(lot, taken) => g lot taken) touched.
Proof.
  intros H. unfold usedEntries. induction touched as [|[lot t] rest IH]; cbn [map];
    [reflexivity|]. rewrite H, IH. reflexivity.
Qed.

Lemma touchedLots_positive (lots : list Lot) (takes : list Qc) :
  Forall (fun '(_, taken) => 0 < taken) (touchedLots lots takes).
Proof.
  revert takes. induction lots as [|lot rest IH]; intros [|t ts]; try constructor.
  rewrite touchedLots_cons. destruct (ltb 0 t) eqn:E; [|apply IH].
  constructor; [apply ltb_lt; exact E | apply IH].
Qed.

(** X4.  The result of a committed sell adds up: the proceeds are quantity
    times price, the gain is proceeds less cost basis, the cost basis is the
    sum of the cost bases of the lots used, and every lot used gave a positive
    quantity at its own unit cost; for a quantity that is not negative the
    quantities of the lots used add up to the quantity sold, and the gain is
    the sum over the lots used of (sell price - unit cost) × quantity. *)
Theorem sale_result_adds_up (q q' : FIFOQueue) (symbol0 : string)
    (quantity0 price0 : Qc) (date now : Date) (r : SaleResult) :
  addTransaction "SELL" symbol0 quantity0 price0 date now q = (inr (inr r), q') ->
  quantitySold r = quantity0 /\
  sellPrice r = price0 /\
  saleProceeds r = quantity0 * price0 /\
  capitalGain r = saleProceeds r - totalCostBasis r /\
  total (map costBasis (lotsUsed r)) = totalCostBasis r /\
  Forall (fun e => 0 < lu_quantity e /\ costBasis e = lu_quantity e * costPerShare e)
         (lotsUsed r) /\
  (0 <= quantity0 ->
     total (map lu_quantity (lotsUsed r)) = quantity0 /\
     total (map (fun e => (price0 - costPerShare e) * lu_quantity e) (lotsUsed r)) =
       capitalGain r).
Proof.
  intros Hrun.
  unfold addTransaction, _processSell, bind, get, throw, ret, modify in Hrun.
  rewrite toUpperCase_SELL in Hrun.
  cbn [String.eqb Ascii.eqb Bool.eqb tx_symbol tx_quantity tx_price tx_settlementDate]
    in Hrun.
  destruct (holdings q !! toUpperCase symbol0) as [[|lot0 rest]|] eqn:Hlots;
    try discriminate.
  remember (lot0 :: rest) as lots eqn:El in *. clear El.
  destruct (ltb (sumOf remainingQuantity lots) quantity0) eqn:Hcmp; [discriminate|].
  apply ltb_ge in Hcmp.
  rewrite sellLoop_fifo in Hrun. injection Hrun as <- _.
  cbn [quantitySold sellPrice saleProceeds capitalGain totalCostBasis lotsUsed app].
  set (takes := fifoTakes lots quantity0).
  set (sd := calculateSettlementDate date).
  pose proof (fifoTakes_nonneg lots quantity0) as Hnn. fold takes in Hnn.
  pose proof (fifoTakes_length lots quantity0) as Hlen. fold takes in Hlen.
  repeat (split; [reflexivity|]).
  split; [|split].
  - rewrite (usedEntries_map costBasis (fun lot taken => taken * price lot))
      by reflexivity.
    rewrite (touchedLots_total (fun lot taken => taken * price lot)) by
      (first [exact Hnn | intros; ring]).
    unfold costOfTakes. ring.
  - unfold usedEntries.
    induction (touchedLots_positive lots takes) as [|[lot t] rest' Ht _ IH]; cbn [map];
      constructor; [|exact IH].
    split; [exact Ht | reflexivity].
  - intros Hpos. split.
    + rewrite (usedEntries_map lu_quantity (fun _ taken => taken)) by reflexivity.
      rewrite (touchedLots_total (fun _ taken => taken)) by
        (first [exact Hnn | reflexivity]).
      rewrite combine_takes_total by exact Hlen.
      apply fifoTakes_total; assumption.
    + rewrite (usedEntries_map (fun e => (price0 - costPerShare e) * lu_quantity e)
                 (fun lot taken => (price0 - price lot) * taken)) by reflexivity.
      rewrite (touchedLots_total (fun lot taken => (price0 - price lot) * taken)) by
        (first [exact Hnn | intros; ring]).
      rewrite combine_gain_total by exact Hlen.
      unfold takes. rewrite (fifoTakes_total lots quantity0 Hpos Hcmp). ring.
Qed.

Lemma sale_result_adds_up_witness :
  let run := addTransaction "SELL" "ogdc" (Z2Qc 120) (Z2Qc 150) mar_1_2025 0%Z twoBuys in
  match fst run with
  | inr (inr r) =>
      total (map lu_quantity (lotsUsed r)) = Z2Qc 120 /\ capitalGain r = Z2Qc 5600
  | _ => False
  end.
Proof.
  intros run. destruct run as [[e | [t | r]] q'] eqn:Hrun; cbn [fst].
  - subst run. vm_compute in Hrun. discriminate Hrun.
  - subst run. vm_compute in Hrun. discriminate Hrun.
  - destruct (sale_result_adds_up twoBuys q' "ogdc" (Z2Qc 120) (Z2Qc 150) mar_1_2025 0%Z
                r Hrun) as (_ & _ & _ & _ & _ & _ & Hsum).
    assert (Hpos : 0 <= Z2Qc 120) by qc_decide.
    destruct (Hsum Hpos) as [Hq _]. split; [exact Hq|].
    subst run. vm_compute in Hrun. injection Hrun as <- _. qc_compute.
Defined.

Lemma lotsOf_insert (h : gmap string (list Lot)) (ts : list Transaction)
    (gs : list SaleResult) (s : string) (lots : list Lot) :
  lotsOf {| holdings := <[s:=lots]> h; transactions := ts; realizedGains := gs |} s = lots.
Proof. unfold lotsOf. cbn [holdings]. rewrite lookup_insert_eq. reflexivity. Qed.

(** X5.  A buy never fails: it appends one lot, with the whole quantity
    remaining, the price and the settlement date of the trade, at the tail of
    the queue of the upper-cased symbol; the other queues and the realized
    gains are as before, the transaction is recorded, and a buy of a positive
    quantity keeps the lot invariant of the queue. *)
Theorem buy_appends_lot (q : FIFOQueue) (symbol0 : string) (quantity0 price0 : Qc)
    (date now : Date) :
  exists (t : Transaction) (q' : FIFOQueue) (lot : Lot),
    addTransaction "BUY" symbol0 quantity0 price0 date now q = (inr (inl t), q') /\
    lotsOf q' (toUpperCase symbol0) = lotsOf q (toUpperCase symbol0) ++ [lot] /\
    lotView lot = (quantity0, quantity0, price0, calculateSettlementDate date) /\
    originalTransaction lot = OriginTransaction t /\
    (forall other : string,
        other <> toUpperCase symbol0 -> holdings q' !! other = holdings q !! other) /\
    transactions q' = transactions q ++ [t] /\
    realizedGains q' = realizedGains q /\
    (0 < quantity0 -> Forall lotOk (lotsOf q (toUpperCase symbol0)) ->
     Forall lotOk (lotsOf q' (toUpperCase symbol0))).
Proof.
  unfold addTransaction, _processBuy, bind, get, modify, ret.
  change (toUpperCase "BUY") with "BUY"%string.
  cbn [String.eqb Ascii.eqb Bool.eqb fst snd].
  eexists. eexists. eexists. split; [reflexivity|].
  unfold pushTransaction, setLots.
  cbn [tx_symbol tx_quantity tx_price tx_settlementDate holdings transactions
       realizedGains].
  rewrite lotsOf_insert.
  split; [reflexivity|]. split; [reflexivity|]. split; [reflexivity|].
  split; [intros other Hother; apply lookup_insert_ne; congruence|].
  split; [reflexivity|]. split; [reflexivity|].
  intros Hpos Hall. apply Forall_app. split; [exact Hall|].
  constructor; [|constructor]. split; cbn [remainingQuantity quantity];
    [exact Hpos | apply Qcle_refl].
Qed.

(** ** [getCostBasisForSale] *)

Lemma costLoop_simulateLoop (sd : Date) (lots : list Lot) :
  forall (n c : Qc) (acc : list CostLot) (used : list LotUsed),
    map costView acc = map usedView used ->
    fst (costLoop lots n c acc) = snd (simulateLoop sd lots n used c) /\
    map costView (snd (costLoop lots n c acc)) =
      map usedView (snd (fst (simulateLoop sd lots n used c))).
Proof.
  induction lots as [|lot rest IH]; intros n c acc used Hacc;
    cbn [costLoop simulateLoop].
  - split; [reflexivity | exact Hacc].
  - destruct (ltb 0 n); [|split; [reflexivity | exact Hacc]].
    destruct (ltb 0 (min (remainingQuantity lot) n)).
    + apply IH. rewrite !map_app, Hacc. reflexivity.
    + apply IH. exact Hacc.
Qed.

Lemma costLoop_fifo (lots : list Lot) (n : Qc) :
  fst (costLoop lots n 0 []) = costOfTakes lots (fifoTakes lots n).
Proof.
  destruct (costLoop_simulateLoop 0%Z lots n 0 [] [] eq_refl) as [H _].
  rewrite H, simulateLoop_sellLoop, sellLoop_fifo. cbn [snd]. ring.
Qed.

(** X6.  For a sale that [calculateSale] can calculate,
    [getCostBasisForSale] reports the same cost basis and the same lots
    (quantity, unit cost, cost and purchase date of each), and its average
    cost times the quantity is the cost basis. *)
Theorem getCostBasisForSale_agrees (q q' : FIFOQueue) (symbol0 : string)
    (quantity0 price0 : Qc) (date : Date) (r : SaleResult) :
  calculateSale symbol0 quantity0 price0 date q = (inr r, q') ->
  totalCost (getCostBasisForSale q symbol0 quantity0) = totalCostBasis r /\
  map costView (cb_lots (getCostBasisForSale q symbol0 quantity0)) =
    map usedView (lotsUsed r) /\
  (0 < quantity0 ->
   avgCost (getCostBasisForSale q symbol0 quantity0) * quantity0 = totalCostBasis r).
Proof.
  intros Hrun. unfold calculateSale, bind, get, throw, ret in Hrun.
  unfold getCostBasisForSale.
  destruct (holdings q !! toUpperCase symbol0) as [[|lot0 rest]|]; try discriminate.
  remember (lot0 :: rest) as lots eqn:El in *. clear El.
  destruct (ltb (sumOf remainingQuantity lots) quantity0); [discriminate|].
  destruct (costLoop_simulateLoop (calculateSettlementDate date) lots quantity0 0 [] []
              eq_refl) as [Hcost Hlots].
  destruct (simulateLoop _ lots quantity0 [] 0) as [[rem used] basis].
  destruct (costLoop lots quantity0 0 []) as [c ls].
  cbn [fst snd] in Hcost, Hlots. injection Hrun as <- _.
  cbn [totalCost cb_lots avgCost totalCostBasis lotsUsed].
  split; [exact Hcost|]. split; [exact Hlots|].
  intros Hpos. apply ltb_lt in Hpos. rewrite Hpos. apply ltb_lt in Hpos.
  subst c. field. intros H0. rewrite H0 in Hpos. clear - Hpos. qc_lra.
Qed.

Lemma getCostBasisForSale_agrees_witness :
  let run := calculateSale "ogdc" (Z2Qc 120) (Z2Qc 150) mar_1_2025 twoBuys in
  totalCost (getCostBasisForSale twoBuys "ogdc" (Z2Qc 120)) = Z2Qc 12400 /\
  match fst run with
  | inr r => totalCost (getCostBasisForSale twoBuys "ogdc" (Z2Qc 120)) = totalCostBasis r
  | inl _ => False
  end.
Proof.
  intros run. split; [qc_compute|].
  destruct run as [[e | r] q'] eqn:Hrun; cbn [fst].
  - subst run. vm_compute in Hrun. discriminate Hrun.
  - destruct (getCostBasisForSale_agrees twoBuys q' "ogdc" (Z2Qc 120) (Z2Qc 150)
                mar_1_2025 r Hrun) as [H _].
    exact H.
Defined.

Lemma fifoTakes_everything (lots : list Lot) :
  forall n : Qc,
    Forall (fun lot => 0 <= remainingQuantity lot) lots ->
    total (map remainingQuantity lots) <= n ->
    costOfTakes lots (fifoTakes lots n) =
      total (map (fun lot => remainingQuantity lot * price lot) lots).
Proof.
  induction lots as [|lot rest IH]; intros n Hall Hle; [reflexivity|].
  inversion Hall as [|? ? Hlot Hrest]; subst.
  cbn [map] in Hle |- *. rewrite total_cons in Hle. rewrite total_cons.
  cbn [fifoTakes].
  assert (Hrest0 : 0 <= total (map remainingQuantity rest)).
  { apply total_nonneg. clear - Hrest. induction Hrest; cbn [map]; constructor; assumption. }
  remember (total (map remainingQuantity rest)) as s.
  assert (Ht : max 0 (min (remainingQuantity lot) n) = remainingQuantity lot)
    by (unfold max, min; case_cmp; qc_lra).
  rewrite Ht, costOfTakes_cons, IH; [reflexivity | exact Hrest |].
  subst s. remember (total (map remainingQuantity rest)) as s. clear - Hle. qc_lra.
Qed.

(** X7.  Asked for more shares than the queue holds, [getCostBasisForSale]
    does not fail as a sale would: on a queue without negative lots it reports
    the cost of all the shares held. *)
Theorem getCostBasisForSale_beyond_holdings (q : FIFOQueue) (symbol0 : string)
    (quantity0 : Qc) :
  Forall (fun lot => 0 <= remainingQuantity lot) (lotsOf q (toUpperCase symbol0)) ->
  sumOf remainingQuantity (lotsOf q (toUpperCase symbol0)) <= quantity0 ->
  totalCost (getCostBasisForSale q symbol0 quantity0) =
    sumOf (fun lot => remainingQuantity lot * price lot) (lotsOf q (toUpperCase symbol0)).
Proof.
  intros Hall Hle. unfold getCostBasisForSale, lotsOf in *.
  destruct (holdings q !! toUpperCase symbol0) as [lots|];
    cbn [default from_option id] in *; [|reflexivity].
  pose proof (costLoop_fifo lots quantity0) as Hcost.
  destruct (costLoop lots quantity0 0 []) as [c ls]. cbn [fst] in Hcost.
  cbn [totalCost]. rewrite Hcost, !sumOf_total in *.
  apply fifoTakes_everything; assumption.
Qed.

Lemma getCostBasisForSale_beyond_holdings_witness :
  Forall (fun lot => 0 <= remainingQuantity lot) (lotsOf twoBuys (toUpperCase "ogdc")) /\
  sumOf remainingQuantity (lotsOf twoBuys (toUpperCase "ogdc")) <= Z2Qc 500 /\
  totalCost (getCostBasisForSale twoBuys "ogdc" (Z2Qc 500)) = Z2Qc 16000.
Proof.
  assert (H1 : Forall (fun lot => 0 <= remainingQuantity lot)
                      (lotsOf twoBuys (toUpperCase "ogdc"))).
  { remember (lotsOf twoBuys (toUpperCase "ogdc")) as lots eqn:E.
    vm_compute in E. subst lots. repeat constructor; qc_decide. }
  assert (H2 : sumOf remainingQuantity (lotsOf twoBuys (toUpperCase "ogdc")) <= Z2Qc 500)
    by qc_decide.
  split; [exact H1|]. split; [exact H2|].
  rewrite (getCostBasisForSale_beyond_holdings twoBuys "ogdc" (Z2Qc 500) H1 H2).
  qc_compute.
Defined.

(** ** [getHoldings] *)

(** X8.  [getHoldings] lists a symbol exactly when its queue holds a
    positive number of shares; the entry then carries the sum of the remaining
    quantities, the sum of remaining quantity times price as cost basis, and
    an average cost that, times the quantity, gives the cost basis back. *)
Theorem getHoldings_summary (q : FIFOQueue) (s : string) :
  (getHoldings q !! s = None <-> sumOf remainingQuantity (lotsOf q s) <= 0) /\
  (forall h : HoldingSummary,
      getHoldings q !! s = Some h ->
      0 < totalQuantity h /\
      totalQuantity h = sumOf remainingQuantity (lotsOf q s) /\
      hs_totalCostBasis h =
        sumOf (fun lot => remainingQuantity lot * price lot) (lotsOf q s) /\
      averageCost h * totalQuantity h = hs_totalCostBasis h /\
      length (hs_lots h) = length (lotsOf q s)).
Proof.
  unfold getHoldings, lotsOf. rewrite lookup_omap.
  destruct (holdings q !! s) as [lots|]; cbn [default from_option id mbind option_bind].
  - unfold summarize. destruct (ltb 0 (sumOf remainingQuantity lots)) eqn:E.
    + split.
      * split; [discriminate|]. intros Hle. apply ltb_lt in E. exfalso. clear - E Hle.
        remember (sumOf remainingQuantity lots) as t. clear Heqt. qc_lra.
      * intros h Hh. injection Hh as <-.
        cbn [totalQuantity hs_totalCostBasis averageCost hs_lots].
        apply ltb_lt in E.
        split; [exact E|]. split; [reflexivity|]. split; [reflexivity|].
        split; [|apply length_map].
        field. intros H0. rewrite H0 in E. clear - E. qc_lra.
    + split; [|discriminate]. split; [intros _; apply ltb_ge; exact E | reflexivity].
  - split; [|discriminate]. split; [|reflexivity].
    intros _. unfold sumOf. cbn. qc_lra.
Qed.

(** ** Rates and taxes *)

Ltac rate_cases :=
  unfold getTaxRate, legacyRates_filer, legacyRates_nonFiler,
         taxRates_filer_default, taxRates_nonFiler_default;
  cbn [lessThan1Year oneToTwoYears twoToThreeYears threeToFourYears fourPlusYears];
  repeat match goal with
         | |- context [(?a <? ?b)%Z] => destruct (Z.ltb_spec a b); try lia
         | |- context [(?a <=? ?b)%Z] => destruct (Z.leb_spec a b); try lia
         | |- context [if ?b then _ else _] => is_var b; destruct b
         end.

Lemma getTaxRate_antitone (isFiler : bool) (purchaseDate0 : Date) (d1 d2 : Z) :
  (d1 <= d2)%Z ->
  getTaxRate isFiler purchaseDate0 d2 <= getTaxRate isFiler purchaseDate0 d1.
Proof. intros H. rate_cases; qc_decide. Qed.

Lemma getTaxRate_at_most_15 (isFiler : bool) (purchaseDate0 : Date) (d : Z) :
  getTaxRate isFiler purchaseDate0 d <= Q2Qc 0.15.
Proof. rate_cases; qc_decide. Qed.

Lemma getTaxRate_filer_le (purchaseDate0 : Date) (d : Z) :
  getTaxRate true purchaseDate0 d <= getTaxRate false purchaseDate0 d.
Proof. rate_cases; qc_decide. Qed.

(** X9.  The tax rate never rises with the holding days; it lies between 0
    and 15 %; a filer never has a higher rate than a non-filer; and from the
    cutover of July 1, 2024 on, the two have the same rate. *)
Theorem getTaxRate_monotone (isFiler : bool) (purchaseDate0 : Date) (d1 d2 : Z) :
  (d1 <= d2)%Z ->
  getTaxRate isFiler purchaseDate0 d2 <= getTaxRate isFiler purchaseDate0 d1 /\
  0 <= getTaxRate isFiler purchaseDate0 d1 /\
  getTaxRate isFiler purchaseDate0 d1 <= Q2Qc 0.15 /\
  getTaxRate true purchaseDate0 d1 <= getTaxRate false purchaseDate0 d1 /\
  ((newRegimeCutoff <= purchaseDate0)%Z ->
   getTaxRate true purchaseDate0 d1 = getTaxRate false purchaseDate0 d2).
Proof.
  intros H.
  split; [apply getTaxRate_antitone; exact H|].
  split; [apply getTaxRate_nonneg|].
  split; [apply getTaxRate_at_most_15|].
  split; [apply getTaxRate_filer_le|].
  intros Hcut. unfold getTaxRate.
  destruct (Z.leb_spec newRegimeCutoff purchaseDate0); [reflexivity | lia].
Qed.

Lemma getTaxRate_monotone_witness :
  (364 <= 365)%Z /\
  getTaxRate true 0%Z 365 <= getTaxRate true 0%Z 364 /\
  getTaxRate true 0%Z 364 = Q2Qc 0.15 /\
  getTaxRate true 0%Z 365 = Q2Qc 0.125.
Proof.
  assert (H : (364 <= 365)%Z) by lia.
  split; [exact H|].
  destruct (getTaxRate_monotone true 0%Z 364 365 H) as [Hm _].
  split; [exact Hm|]. split; reflexivity.
Defined.

Lemma total_le (l1 l2 : list Qc) :
  Forall2 Qcle l1 l2 -> total l1 <= total l2.
Proof.
  induction 1 as [|x y l1 l2 Hxy _ IH].
  - apply Qcle_refl.
  - rewrite !total_cons. remember (total l1) as a. remember (total l2) as b.
    clear - Hxy IH. qc_lra.
Qed.

Lemma total_scale (c : Qc) (l : list Qc) :
  total (map (fun x => c * x) l) = c * total l.
Proof.
  induction l as [|x l IH]; cbn [map].
  - unfold total; cbn. ring.
  - rewrite !total_cons, IH. ring.
Qed.

(** The gain of a lot of a sale, as [calculateTaxForSale] computes it. *)
Lemma lotTaxEntry_tax (isFiler : bool) (p : Qc) (lot : LotUsed) :
  tax (lotTaxEntry isFiler p lot) =
    max 0 ((p - costPerShare lot) * lu_quantity lot) *
    getTaxRate isFiler (lu_purchaseDate lot) (days (holdingPeriod lot)).
Proof. reflexivity. Qed.

(** X10.  The result of [calculateTaxForSale] is consistent: the net profit
    is the gain less the tax; the effective rate times a positive gain is the
    tax; the tax is at most 15 % of the sum of the gains of the lots that
    show one; and when no lot shows a loss and the gain is the sum of the
    gains of the lots, the tax is at most 15 % of the gain. *)
Theorem calculateTaxForSale_consistent (isFiler : bool) (sale : SaleResult) :
  let result := calculateTaxForSale isFiler sale in
  let lotGain := fun e => (sellPrice sale - costPerShare e) * lu_quantity e in
  netProfit result = capitalGain sale - totalTax result /\
  (0 < capitalGain sale -> effectiveTaxRate result * capitalGain sale = totalTax result) /\
  (capitalGain sale <= 0 -> effectiveTaxRate result = 0) /\
  totalTax result <= Q2Qc 0.15 * total (map (fun e => max 0 (lotGain e)) (lotsUsed sale)) /\
  (Forall (fun e => 0 <= lotGain e) (lotsUsed sale) ->
   capitalGain sale = total (map lotGain (lotsUsed sale)) ->
   totalTax result <= Q2Qc 0.15 * capitalGain sale).
Proof.
  intros result lotGain.
  destruct (calculateTaxForSale_fields isFiler sale) as [_ Htotal].
  assert (Hbound : totalTax result <=
            Q2Qc 0.15 * total (map (fun e => max 0 (lotGain e)) (lotsUsed sale))).
  { subst result. rewrite Htotal, <- total_scale. apply total_le.
    rewrite !map_map. clear Htotal.
    induction (lotsUsed sale) as [|e rest IH]; cbn [map]; constructor; [|exact IH].
    rewrite lotTaxEntry_tax. fold (lotGain e).
    pose proof (max_0_nonneg (lotGain e)) as Hg.
    pose proof (getTaxRate_at_most_15 isFiler (lu_purchaseDate e)
                  (days (holdingPeriod e))) as Hr.
    remember (max 0 (lotGain e)) as g. remember (getTaxRate _ _ _) as rate.
    clear - Hg Hr. qc_nra. }
  split.
  { subst result. unfold calculateTaxForSale.
    destruct (fold_left _ _ _) as [entries t]. reflexivity. }
  split; [|split; [|split; [exact Hbound|]]].
  - intros Hpos. subst result. unfold calculateTaxForSale.
    destruct (fold_left _ _ _) as [entries t]. cbn [effectiveTaxRate totalTax].
    apply ltb_lt in Hpos. rewrite Hpos. apply ltb_lt in Hpos.
    field. intros H0. rewrite H0 in Hpos. clear - Hpos. qc_lra.
  - intros Hle. subst result. unfold calculateTaxForSale.
    destruct (fold_left _ _ _) as [entries t]. cbn [effectiveTaxRate].
    apply ltb_ge in Hle. rewrite Hle. reflexivity.
  - intros Hall Hgain. rewrite Hgain.
    assert (Hsame : map (fun e => max 0 (lotGain e)) (lotsUsed sale) =
                    map lotGain (lotsUsed sale)).
    { clear - Hall. induction Hall as [|e rest He _ IH]; cbn [map]; [reflexivity|].
      rewrite IH. f_equal. unfold max. apply ltb_ge in He.
      destruct (ltb 0 (lotGain e)) eqn:E; [reflexivity|].
      apply ltb_ge in E. apply ltb_ge in He. clear - E He. qc_lra. }
    rewrite <- Hsame. exact Hbound.
Qed.

(** ** Aggregate tax *)

Lemma abs_nonneg (x : Qc) : 0 <= abs x.
Proof. unfold abs. case_cmp; qc_lra. Qed.

Lemma aggregateStep_gain (isFiler : bool) (g l t : Qc) (acc : list TaxResult)
    (sale : SaleResult) :
  aggregateStep isFiler (g, l, t, acc) sale =
    (if ltb 0 (capitalGain sale) then g + capitalGain sale else g,
     if ltb 0 (capitalGain sale) then l else l + abs (capitalGain sale),
     t + totalTax (calculateTaxForSale isFiler sale),
     acc ++ [calculateTaxForSale isFiler sale]).
Proof.
  unfold aggregateStep.
  assert (Hcg : tr_capitalGain (calculateTaxForSale isFiler sale) = capitalGain sale).
  { unfold calculateTaxForSale. destruct (fold_left _ _ _). reflexivity. }
  rewrite Hcg. destruct (ltb 0 (capitalGain sale)); reflexivity.
Qed.

(** The loop of [calculateAggregateTax] against sums. *)
Lemma aggregateLoop_sums (isFiler : bool) (sales : list SaleResult) :
  forall (g l t : Qc) (acc : list TaxResult),
    exists g' l' : Qc,
      fold_left (aggregateStep isFiler) sales (g, l, t, acc) =
      (g', l',
       t + total (map (fun sale => totalTax (calculateTaxForSale isFiler sale)) sales),
       acc ++ map (calculateTaxForSale isFiler) sales) /\
      g <= g' /\ l <= l' /\
      g' - l' = g - l + total (map capitalGain sales).
Proof.
  induction sales as [|sale rest IH]; intros g l t acc; cbn [fold_left map].
  - exists g, l. rewrite app_nil_r. split; [|split; [|split]].
    + tuple_eq. unfold total; cbn [fold_right]. ring.
    + apply Qcle_refl.
    + apply Qcle_refl.
    + unfold total; cbn. ring.
  - rewrite aggregateStep_gain, !total_cons.
    destruct (IH (if ltb 0 (capitalGain sale) then g + capitalGain sale else g)
                 (if ltb 0 (capitalGain sale) then l else l + abs (capitalGain sale))
                 (t + totalTax (calculateTaxForSale isFiler sale))
                 (acc ++ [calculateTaxForSale isFiler sale]))
      as (g' & l' & Hrun & Hg & Hl & Hnet).
    exists g', l'. rewrite Hrun, <- app_assoc. cbn [app].
    split; [tuple_eq; ring|].
    pose proof (abs_nonneg (capitalGain sale)) as Ha.
    assert (Habs : ltb 0 (capitalGain sale) = false ->
                   abs (capitalGain sale) = - capitalGain sale).
    { intros E. apply ltb_ge in E. unfold abs.
      destruct (ltb (capitalGain sale) 0) eqn:E'; [reflexivity|].
      apply ltb_ge in E'. clear - E E'. qc_lra. }
    remember (total (map capitalGain rest)) as s.
    destruct (ltb 0 (capitalGain sale)) eqn:E.
    + apply ltb_lt in E. remember (capitalGain sale) as c.
      split; [clear - E Hg; qc_lra|]. split; [exact Hl|]. rewrite Hnet. ring.
    + rewrite (Habs eq_refl) in *. remember (capitalGain sale) as c.
      split; [exact Hg|]. split; [clear - Ha Hl; qc_lra|]. rewrite Hnet. ring.
Qed.

(** X11.  [calculateAggregateTax] adds the sales up: the net gain is the sum
    of the capital gains, gains and losses are each non-negative, the total
    tax is the sum of the taxes of the sales and is never negative, the profit
    after tax is the net gain less the total tax, and there is one tax result
    per sale, in order. *)
Theorem calculateAggregateTax_sums (isFiler : bool) (sales : list SaleResult) (now : Date) :
  let result := calculateAggregateTax isFiler sales now in
  netGain result = total (map capitalGain sales) /\
  netGain result = totalGains result - totalLosses result /\
  0 <= totalGains result /\
  0 <= totalLosses result /\
  ag_totalTax result =
    total (map (fun sale => totalTax (calculateTaxForSale isFiler sale)) sales) /\
  0 <= ag_totalTax result /\
  netProfitAfterTax result = total (map capitalGain sales) - ag_totalTax result /\
  salesWithTax result = map (calculateTaxForSale isFiler) sales /\
  salesCount result = length sales.
Proof.
  intros result. subst result. unfold calculateAggregateTax.
  destruct (aggregateLoop_sums isFiler sales 0 0 0 []) as (g & l & Hrun & Hg & Hl & Hnet).
  rewrite Hrun.
  cbn [netGain totalGains totalLosses ag_totalTax netProfitAfterTax salesWithTax
       salesCount app].
  assert (Hnet' : g - l = total (map capitalGain sales)) by (rewrite Hnet; ring).
  assert (Htax : 0 + total (map (fun sale => totalTax (calculateTaxForSale isFiler sale))
                               sales) =
                 total (map (fun sale => totalTax (calculateTaxForSale isFiler sale)) sales))
    by ring.
  rewrite Htax, Hnet'.
  split; [reflexivity|]. split; [reflexivity|].
  split; [exact Hg|]. split; [exact Hl|]. split; [reflexivity|].
  split; [|split; [reflexivity|split; reflexivity]].
  - apply total_nonneg. clear. induction sales as [|sale rest IH]; cbn [map]; constructor;
      [|exact IH].
    destruct (calculateTaxForSale_fields isFiler sale) as [_ ->].
    apply total_nonneg. clear. induction (lotsUsed sale) as [|e rest IH]; cbn [map];
      constructor; [apply lotTax_nonneg | exact IH].
Qed.

(** ** Delaying a sale, and the filer status *)

(** The tax of a list of lots at a sell price. *)
Lemma totalTax_lots (isFiler : bool) (sale : SaleResult) :
  totalTax (calculateTaxForSale isFiler sale) =
    total (map (fun e => tax (lotTaxEntry isFiler (sellPrice sale) e)) (lotsUsed sale)).
Proof.
  destruct (calculateTaxForSale_fields isFiler sale) as [_ ->]. rewrite map_map.
  reflexivity.
Qed.

Lemma lotTax_rate_le (f1 f2 : bool) (p : Qc) (e1 e2 : LotUsed) :
  costPerShare e1 = costPerShare e2 ->
  lu_quantity e1 = lu_quantity e2 ->
  getTaxRate f1 (lu_purchaseDate e1) (days (holdingPeriod e1)) <=
  getTaxRate f2 (lu_purchaseDate e2) (days (holdingPeriod e2)) ->
  tax (lotTaxEntry f1 p e1) <= tax (lotTaxEntry f2 p e2).
Proof.
  intros Hc Hq Hr. rewrite !lotTaxEntry_tax, Hc, Hq.
  pose proof (max_0_nonneg ((p - costPerShare e2) * lu_quantity e2)) as Hg.
  remember (max 0 _) as g.
  remember (getTaxRate f1 _ _) as r1. remember (getTaxRate f2 _ _) as r2.
  clear - Hg Hr. qc_nra.
Qed.

(** X12.  Delaying a sale by a number of days that is not negative never
    raises its tax: [analyzeDelayBenefit] reports tax savings that are not
    negative; and it reports none when every lot of the sale was bought on or
    after the cutover. *)
Theorem analyzeDelayBenefit_never_negative (isFiler : bool) (sale : SaleResult)
    (daysToDelay0 : Z) :
  (0 <= daysToDelay0)%Z ->
  let result := analyzeDelayBenefit isFiler sale daysToDelay0 in
  0 <= taxSavings result /\
  delayedTax result <= currentTax result /\
  taxSavings result = currentTax result - delayedTax result /\
  delayedSaleDate result = (saleDate sale + daysToDelay0 * msPerDay)%Z /\
  (Forall (fun e => (newRegimeCutoff <= lu_purchaseDate e)%Z) (lotsUsed sale) ->
   taxSavings result = 0 /\ recommendDelay result = false).
Proof.
  intros Hd result. subst result. unfold analyzeDelayBenefit.
  cbn [taxSavings delayedTax currentTax delayedSaleDate recommendDelay].
  rewrite !totalTax_lots. cbn [delaySale lotsUsed sellPrice saleDate]. rewrite map_map.
  assert (Hle : total (map (fun e => tax (lotTaxEntry isFiler (sellPrice sale)
                                            (delayLot daysToDelay0 e))) (lotsUsed sale)) <=
                total (map (fun e => tax (lotTaxEntry isFiler (sellPrice sale) e))
                           (lotsUsed sale))).
  { apply total_le. induction (lotsUsed sale) as [|e rest IH]; cbn [map]; constructor;
      [|exact IH].
    apply lotTax_rate_le; try reflexivity.
    cbn [delayLot lu_purchaseDate holdingPeriod days].
    apply getTaxRate_antitone. lia. }
  remember (total (map (fun e => tax (lotTaxEntry isFiler (sellPrice sale)
                                        (delayLot daysToDelay0 e))) (lotsUsed sale))) as d.
  remember (total (map (fun e => tax (lotTaxEntry isFiler (sellPrice sale) e))
                       (lotsUsed sale))) as c.
  split; [clear - Hle; qc_lra|]. split; [exact Hle|]. split; [reflexivity|].
  split; [reflexivity|].
  intros Hnew.
  assert (Heq : d = c).
  { subst d c. f_equal. clear - Hnew.
    induction Hnew as [|e rest He _ IH]; cbn [map]; [reflexivity|].
    rewrite IH. f_equal. rewrite !lotTaxEntry_tax.
    cbn [delayLot lu_purchaseDate holdingPeriod days costPerShare lu_quantity].
    f_equal. unfold getTaxRate.
    destruct (Z.leb_spec newRegimeCutoff (lu_purchaseDate e)); [reflexivity | lia]. }
  rewrite Heq. assert (Hz : c - c = 0) by ring. rewrite Hz. split; reflexivity.
Qed.

Lemma analyzeDelayBenefit_never_negative_witness :
  match fst (calculateSale "ogdc" (Z2Qc 120) (Z2Qc 150) mar_1_2025 twoBuys) with
  | inr sale => (0 <= 365)%Z /\ 0 <= taxSavings (analyzeDelayBenefit true sale 365)
  | inl _ => False
  end.
Proof.
  destruct (calculateSale "ogdc" (Z2Qc 120) (Z2Qc 150) mar_1_2025 twoBuys)
    as [[e | sale] q'] eqn:Hrun; cbn [fst].
  - vm_compute in Hrun. discriminate Hrun.
  - assert (H : (0 <= 365)%Z) by lia. split; [exact H|].
    destruct (analyzeDelayBenefit_never_negative true sale 365 H) as [Hs _]. exact Hs.
Defined.

(** X13.  [compareFilerStatus] never finds the filer paying more: the tax
    difference is not negative, it is zero when every lot of the sale was
    bought on or after the cutover, and the filer status of the calculator is
    afterwards what it was before. *)
Theorem compareFilerStatus_filer_never_pays_more (sale : SaleResult) (isFiler : bool) :
  let '(result, isFiler') := compareFilerStatus sale isFiler in
  isFiler' = isFiler /\
  0 <= taxDifference result /\
  taxDifference result = st_tax (nonFiler result) - st_tax (filer result) /\
  st_tax (filer result) = totalTax (calculateTaxForSale true sale) /\
  st_tax (nonFiler result) = totalTax (calculateTaxForSale false sale) /\
  (Forall (fun e => (newRegimeCutoff <= lu_purchaseDate e)%Z) (lotsUsed sale) ->
   taxDifference result = 0 /\ filerSaves result = false).
Proof.
  unfold compareFilerStatus.
  cbn [taxDifference nonFiler filer st_tax filerSaves].
  split; [reflexivity|].
  rewrite !totalTax_lots.
  assert (Hle : total (map (fun e => tax (lotTaxEntry true (sellPrice sale) e))
                           (lotsUsed sale)) <=
                total (map (fun e => tax (lotTaxEntry false (sellPrice sale) e))
                           (lotsUsed sale))).
  { apply total_le. induction (lotsUsed sale) as [|e rest IH]; cbn [map]; constructor;
      [|exact IH].
    apply lotTax_rate_le; try reflexivity. apply getTaxRate_filer_le. }
  remember (total (map (fun e => tax (lotTaxEntry true (sellPrice sale) e))
                       (lotsUsed sale))) as f.
  remember (total (map (fun e => tax (lotTaxEntry false (sellPrice sale) e))
                       (lotsUsed sale))) as n.
  split; [clear - Hle; qc_lra|]. split; [reflexivity|]. split; [reflexivity|].
  split; [reflexivity|].
  intros Hnew.
  assert (Heq : n = f).
  { subst n f. f_equal. clear - Hnew.
    induction Hnew as [|e rest He _ IH]; cbn [map]; [reflexivity|].
    rewrite IH. f_equal. rewrite !lotTaxEntry_tax. f_equal. unfold getTaxRate.
    destruct (Z.leb_spec newRegimeCutoff (lu_purchaseDate e)); [reflexivity | lia]. }
  rewrite Heq. assert (Hz : f - f = 0) by ring. rewrite Hz. split; reflexivity.
Qed.

(** ** Applying corporate actions *)

(** [_validateInputs] reads its arguments only. *)
Lemma validateInputs_pure (symbol0 actionType : string) (details : Details) :
  exists res : Error + Date,
    (forall m, _validateInputs symbol0 actionType details m = (res, m)) /\
    (forall exDate, res = inr exDate ->
       d_exDate details = Some exDate /\
       (actionType = "BONUS"%string \/ actionType = "RIGHT"%string)).
Proof.
  unfold _validateInputs, throw, ret.
  destruct (String.eqb symbol0 "");
    [eexists; split; [intros m; reflexivity | discriminate]|].
  destruct (String.eqb_spec actionType "BONUS") as [Hb|Hb];
    destruct (String.eqb_spec actionType "RIGHT") as [Hr|Hr];
    cbn [orb negb andb];
    destruct (d_exDate details) as [exDate|];
    destruct (ratioMissing (d_ratio details));
    destruct (priceMissing (d_price details));
    cbn [orb negb andb];
    (eexists; split; [intros m; reflexivity|]);
    intros ? H; try discriminate H;
    injection H as <-; (split; [reflexivity | tauto]).
Qed.

Lemma applyBonusShares_actions (symbol0 : string) (details : Details) (exDate : Date)
    (m : CorporateActionsManager) :
  corporateActions (snd (_applyBonusShares symbol0 details exDate m)) = corporateActions m.
Proof.
  unfold _applyBonusShares, bind, get, throw, ret, modify.
  repeat match goal with
         | |- context [match ?x with _ => _ end] => destruct x; try reflexivity
         end.
Qed.

Lemma applyRightIssue_actions (symbol0 : string) (details : Details) (exDate : Date)
    (m : CorporateActionsManager) :
  corporateActions (snd (_applyRightIssue symbol0 details exDate m)) = corporateActions m.
Proof.
  unfold _applyRightIssue, bind, get, throw, ret, modify.
  repeat match goal with
         | |- context [match ?x with _ => _ end] => destruct x; try reflexivity
         end.
Qed.

(** What a successful [applyCorporateAction] is made of. *)
Lemma applyCorporateAction_success (symbol0 actionType0 : string) (details : Details)
    (now : Date) (m m' : CorporateActionsManager) (record : ActionRecord) :
  applyCorporateAction symbol0 actionType0 details now m = (inr record, m') ->
  exists (exDate : Date) (result : ActionResult) (mq : CorporateActionsManager),
    d_exDate details = Some exDate /\
    ((toUpperCase actionType0 = "BONUS"%string /\
      _applyBonusShares (toUpperCase symbol0) details exDate m = (inr result, mq)) \/
     (toUpperCase actionType0 = "RIGHT"%string /\
      _applyRightIssue (toUpperCase symbol0) details exDate m = (inr result, mq))) /\
    corporateActions mq = corporateActions m /\
    record = {| ca_id := (Z.of_nat (length (corporateActions m)) + 1)%Z;
                ca_symbol := toUpperCase symbol0;
                ca_type := toUpperCase actionType0;
                ca_details := details;
                ca_exDate := exDate;
                appliedDate := now;
                applied := true;
                ca_result := result;
                reversedDate := None |} /\
    m' = pushAction record mq.
Proof.
  intros Hrun. unfold applyCorporateAction in Hrun.
  destruct (validateInputs_pure (toUpperCase symbol0) (toUpperCase actionType0) details)
    as (res & Hval & Hres).
  unfold bind at 1 in Hrun. rewrite Hval in Hrun.
  destruct res as [e | exDate]; [discriminate|].
  destruct (Hres exDate eq_refl) as [Hex Htype].
  unfold bind at 1, get at 1 in Hrun.
  destruct (_isActionAlreadyApplied _ _ _ _); [discriminate|].
  destruct (getHoldings (fifoQueue m) !! toUpperCase symbol0); [|discriminate].
  unfold bind at 1 in Hrun.
  destruct Htype as [Ht | Ht]; rewrite Ht in Hrun |- *;
    cbn [String.eqb Ascii.eqb Bool.eqb] in Hrun.
  - pose proof (applyBonusShares_actions (toUpperCase symbol0) details exDate m) as Hacts.
    destruct (_applyBonusShares (toUpperCase symbol0) details exDate m)
      as [[e | result] mq] eqn:Hstep; [discriminate|].
    cbn [snd] in Hacts. unfold bind, get, modify, ret in Hrun.
    rewrite Hacts in Hrun. injection Hrun as <- <-.
    exists exDate, result, mq. split; [exact Hex|]. split; [left; split; [reflexivity | exact Hstep]|].
    split; [exact Hacts|]. split; reflexivity.
  - pose proof (applyRightIssue_actions (toUpperCase symbol0) details exDate m) as Hacts.
    destruct (_applyRightIssue (toUpperCase symbol0) details exDate m)
      as [[e | result] mq] eqn:Hstep; [discriminate|].
    cbn [snd] in Hacts. unfold bind, get, modify, ret in Hrun.
    rewrite Hacts in Hrun. injection Hrun as <- <-.
    exists exDate, result, mq. split; [exact Hex|]. split; [right; split; [reflexivity | exact Hstep]|].
    split; [exact Hacts|]. split; reflexivity.
Qed.

(** X14.  A corporate action that has been applied cannot be applied a
    second time: the same symbol, type and ex-date are refused as already
    applied, whatever the ratio and the price given (a right issue needs a
    price to get that far), and the refusal changes nothing. *)
Theorem applyCorporateAction_twice_refused (symbol0 actionType0 : string)
    (details details' : Details) (now now' : Date) (m m' : CorporateActionsManager)
    (record : ActionRecord) :
  applyCorporateAction symbol0 actionType0 details now m = (inr record, m') ->
  d_exDate details' = d_exDate details ->
  ratioMissing (d_ratio details') = false ->
  (toUpperCase actionType0 = "RIGHT"%string -> priceMissing (d_price details') = false) ->
  applyCorporateAction symbol0 actionType0 details' now' m' =
    (inl (AlreadyApplied (toUpperCase symbol0) (ca_exDate record)), m').
Proof.
  intros Hrun Hex' Hratio Hprice.
  destruct (applyCorporateAction_success _ _ _ _ _ _ _ Hrun)
    as (exDate & result & mq & Hex & Hkind & Hacts & Hrec & Hm').
  assert (Hsym : toUpperCase symbol0 <> ""%string).
  { intros Hempty. unfold applyCorporateAction, bind, _validateInputs, throw in Hrun.
    rewrite Hempty in Hrun. cbn [String.eqb] in Hrun. discriminate Hrun. }
  assert (Htype : toUpperCase actionType0 = "BONUS"%string \/
                  toUpperCase actionType0 = "RIGHT"%string) by (destruct Hkind; tauto).
  unfold applyCorporateAction.
  assert (Hval : forall m0, _validateInputs (toUpperCase symbol0) (toUpperCase actionType0)
                              details' m0 = (inr exDate, m0)).
  { intros m0. unfold _validateInputs, throw, ret.
    destruct (String.eqb_spec (toUpperCase symbol0) ""); [contradiction|].
    rewrite Hex', Hex, Hratio.
    destruct Htype as [Ht | Ht]; [rewrite Ht; reflexivity|].
    rewrite (Hprice Ht), Ht. reflexivity. }
  unfold bind at 1. rewrite Hval. unfold bind at 1, get at 1.
  assert (Hdup : _isActionAlreadyApplied (corporateActions m') (toUpperCase symbol0)
                   (toUpperCase actionType0) exDate = true).
  { rewrite Hm'. unfold pushAction, _isActionAlreadyApplied. cbn [corporateActions].
    rewrite existsb_app. apply orb_true_iff. right. cbn [existsb]. rewrite Hrec.
    cbn [ca_symbol ca_type ca_exDate applied].
    rewrite !String.eqb_refl, Z.eqb_refl. reflexivity. }
  rewrite Hdup. rewrite Hrec. reflexivity.
Qed.

Lemma applyCorporateAction_twice_refused_witness :
  let first := applyCorporateAction "hbl" "right" rights1for5 jun_1_2025 hundredShares in
  (exists record, fst first = inr record) /\
  fst (applyCorporateAction "hbl" "right" rights1for5 jun_1_2025 (snd first)) =
    inl (AlreadyApplied "HBL" mar_1_2025).
Proof.
  intros first. destruct first as [[e | record] m'] eqn:Hrun.
  - exfalso. subst first. vm_compute in Hrun. discriminate Hrun.
  - split; [eexists; reflexivity|]. cbn [snd].
    assert (Hprice : priceMissing (d_price rights1for5) = false)
      by (vm_compute; reflexivity).
    rewrite (applyCorporateAction_twice_refused "hbl" "right" rights1for5 rights1for5
               jun_1_2025 jun_1_2025 hundredShares m' record Hrun eq_refl eq_refl
               (fun _ => Hprice)).
    cbn [fst]. f_equal. f_equal.
    subst first. vm_compute in Hrun. injection Hrun as <- _. reflexivity.
Defined.

Lemma total_app (l1 l2 : list Qc) : total (l1 ++ l2) = total l1 + total l2.
Proof.
  induction l1 as [|x l1 IH]; cbn [app].
  - unfold total at 2; cbn. ring.
  - rewrite !total_cons, IH. ring.
Qed.

Lemma total_map_nonneg {A : Type} (f : A -> Qc) (l : list A) :
  Forall (fun x => 0 <= f x) l -> 0 <= total (map f l).
Proof.
  induction 1 as [|x l Hx _ IH]; cbn [map].
  - unfold total; cbn. qc_lra.
  - rewrite total_cons. remember (total (map f l)) as t. clear - Hx IH.
    remember (f x) as y. clear Heqy. qc_lra.
Qed.

Lemma Forall_filter_keep {A : Type} (P : A -> Prop) (p : A -> bool) (l : list A) :
  Forall P l -> Forall P (List.filter p l).
Proof.
  induction 1 as [|x l Hx _ IH]; cbn [List.filter]; [constructor|].
  destruct (p x); [constructor; assumption | assumption].
Qed.

Lemma sumEligible_nonneg (exDate : Date) (lots : list Lot) :
  Forall (fun lot => 0 <= remainingQuantity lot) lots ->
  0 <= sumEligible exDate remainingQuantity lots.
Proof.
  intros H. rewrite sumEligible_total. apply total_map_nonneg, Forall_filter_keep, H.
Qed.

(** What a successful [_applyBonusShares] is made of. *)
Lemma applyBonusShares_success (symbol0 : string) (details : Details) (exDate : Date)
    (m mq : CorporateActionsManager) (result : ActionResult) :
  _applyBonusShares symbol0 details exDate m = (inr result, mq) ->
  exists (bonusRatio : Qc) (lots : list Lot),
    parseBonusRatio (d_ratio details) = Some bonusRatio /\
    0 < bonusRatio /\ bonusRatio <= 1 /\
    holdings (fifoQueue m) !! symbol0 = Some lots /\
    sumEligible exDate remainingQuantity lots <> 0 /\
    floor (mulDouble (sumEligible exDate remainingQuantity lots) bonusRatio) <> 0 /\
    mq = withQueue (setLots symbol0 (map (adjustBonusLot exDate bonusRatio) lots)) m /\
    exists a b c d : Qc,
      result = BonusResult (sumEligible exDate remainingQuantity lots)
                 (floor (mulDouble (sumEligible exDate remainingQuantity lots) bonusRatio))
                 a b c d bonusRatio.
Proof.
  unfold _applyBonusShares. intros Hrun.
  destruct (parseBonusRatio (d_ratio details)) as [bonusRatio|]; [|discriminate].
  destruct (leb bonusRatio 0) eqn:E0; [discriminate|].
  destruct (ltb 1 bonusRatio) eqn:E1; [discriminate|]. cbn [orb] in Hrun.
  unfold bind at 1, get at 1 in Hrun.
  destruct (holdings (fifoQueue m) !! symbol0) as [lots|] eqn:Hlots; [|discriminate].
  exists bonusRatio, lots.
  destruct lots as [|lot0 rest]; [discriminate|].
  remember (lot0 :: rest) as lots eqn:El. clear El.
  destruct (eqb (sumEligible exDate remainingQuantity lots) 0) eqn:E2; [discriminate|].
  destruct (eqb (floor (mulDouble (sumEligible exDate remainingQuantity lots) bonusRatio)) 0) eqn:E3;
    [discriminate|].
  unfold bind, modify, ret in Hrun. injection Hrun as <- <-.
  split; [reflexivity|]. split; [apply leb_gt; exact E0|]. split; [apply ltb_ge; exact E1|].
  split; [reflexivity|]. split; [apply eqb_neq; exact E2|]. split; [apply eqb_neq; exact E3|].
  split; [reflexivity|]. do 4 eexists. reflexivity.
Qed.

(** A [_applyBonusShares] that fails has changed nothing. *)
Lemma applyBonusShares_failure (symbol0 : string) (details : Details) (exDate : Date)
    (m mq : CorporateActionsManager) (e : Error) :
  _applyBonusShares symbol0 details exDate m = (inl e, mq) -> mq = m.
Proof.
  unfold _applyBonusShares, bind, get, throw, modify, ret. intros Hrun.
  repeat match type of Hrun with
         | context [match ?x with _ => _ end] => destruct x
         end;
    try discriminate Hrun; injection Hrun as _ <-; reflexivity.
Qed.

(** The lot that a successful [_applyRightIssue] appends. *)
Lemma applyRightIssue_success (symbol0 : string) (details : Details) (exDate : Date)
    (m mq : CorporateActionsManager) (result : ActionResult) :
  _applyRightIssue symbol0 details exDate m = (inr result, mq) ->
  exists (rightRatio rightPrice : Qc) (lots : list Lot) (newLot : Lot),
    parseRightRatio (d_ratio details) = Some rightRatio /\
    0 < rightRatio /\
    d_price details = Some rightPrice /\
    0 < rightPrice /\
    holdings (fifoQueue m) !! symbol0 = Some lots /\
    quantity newLot = floor (mulDouble (sumEligible exDate remainingQuantity lots) rightRatio) /\
    quantity newLot <> 0 /\
    remainingQuantity newLot = quantity newLot /\
    price newLot = rightPrice /\
    (exists a b c d e, originalTransaction newLot = RIGHT_ISSUE a b c d e) /\
    mq = withQueue (setLots symbol0 (lots ++ [newLot])) m /\
    exists a b c d e f : Qc,
      result = RightResult a (quantity newLot) rightPrice b c d e f (purchaseDate newLot).
Proof.
  unfold _applyRightIssue. intros Hrun.
  destruct (parseRightRatio (d_ratio details)) as [rightRatio|]; [|discriminate].
  destruct (leb rightRatio 0) eqn:E0; [discriminate|].
  destruct (d_price details) as [rightPrice|]; [|discriminate].
  destruct (leb rightPrice 0) eqn:E1; [discriminate|].
  unfold bind at 1, get at 1 in Hrun.
  destruct (holdings (fifoQueue m) !! symbol0) as [lots|] eqn:Hlots; [|discriminate].
  destruct lots as [|lot0 rest]; [discriminate|].
  remember (lot0 :: rest) as lots eqn:El. clear El.
  destruct (eqb (sumEligible exDate remainingQuantity lots) 0) eqn:E2; [discriminate|].
  destruct (eqb (floor (mulDouble (sumEligible exDate remainingQuantity lots) rightRatio)) 0) eqn:E3;
    [discriminate|].
  unfold bind, modify, get, ret, throw in Hrun.
  destruct (getHoldings _ !! symbol0) as [h|]; [|discriminate].
  injection Hrun as <- <-.
  exists rightRatio, rightPrice, lots.
  exists {| quantity := floor (mulDouble (sumEligible exDate remainingQuantity lots) rightRatio);
            price := rightPrice;
            purchaseDate := match d_subscriptionDate details with
                            | Some subscriptionDate => subscriptionDate
                            | None => (exDate + 30 * 24 * 60 * 60 * 1000)%Z
                            end;
            remainingQuantity := floor (mulDouble (sumEligible exDate remainingQuantity lots) rightRatio);
            originalTransaction :=
              RIGHT_ISSUE symbol0 exDate rightRatio rightPrice
                (sumEligible exDate remainingQuantity lots) |}.
  split; [reflexivity|]. split; [apply leb_gt; exact E0|].
  split; [reflexivity|]. split; [apply leb_gt; exact E1|]. split; [reflexivity|].
  cbn [quantity remainingQuantity price originalTransaction purchaseDate].
  split; [reflexivity|]. split; [apply eqb_neq; exact E3|]. split; [reflexivity|].
  split; [reflexivity|]. split; [do 5 eexists; reflexivity|].
  split; [reflexivity|]. do 6 eexists. reflexivity.
Qed.

(** A [_applyRightIssue] that fails has changed nothing, when no lot of the
    symbol holds a negative number of shares. *)
Lemma applyRightIssue_failure (symbol0 : string) (details : Details) (exDate : Date)
    (m mq : CorporateActionsManager) (e : Error) :
  Forall (fun lot => 0 <= remainingQuantity lot) (lotsOf (fifoQueue m) symbol0) ->
  _applyRightIssue symbol0 details exDate m = (inl e, mq) -> mq = m.
Proof.
  unfold _applyRightIssue. intros Hall Hrun.
  destruct (parseRightRatio (d_ratio details)) as [rightRatio|];
    [|injection Hrun as _ <-; reflexivity].
  destruct (leb rightRatio 0) eqn:E0; [injection Hrun as _ <-; reflexivity|].
  destruct (d_price details) as [rightPrice|]; [|injection Hrun as _ <-; reflexivity].
  destruct (leb rightPrice 0) eqn:E1; [injection Hrun as _ <-; reflexivity|].
  unfold bind at 1, get at 1 in Hrun. unfold lotsOf in Hall.
  destruct (holdings (fifoQueue m) !! symbol0) as [lots|] eqn:Hlots;
    [|injection Hrun as _ <-; reflexivity].
  cbn [default from_option id] in Hall.
  destruct lots as [|lot0 rest]; [injection Hrun as _ <-; reflexivity|].
  remember (lot0 :: rest) as lots eqn:El. clear El.
  destruct (eqb (sumEligible exDate remainingQuantity lots) 0) eqn:E2;
    [injection Hrun as _ <-; reflexivity|].
  destruct (eqb (floor (mulDouble (sumEligible exDate remainingQuantity lots) rightRatio)) 0) eqn:E3;
    [injection Hrun as _ <-; reflexivity|].
  exfalso. unfold bind, modify, get, ret, throw in Hrun.
  unfold getHoldings, withQueue, setLots in Hrun.
  cbn [fifoQueue holdings] in Hrun.
  rewrite lookup_omap, lookup_insert_eq in Hrun. cbn [mbind option_bind] in Hrun.
  unfold summarize in Hrun.
  match type of Hrun with
  | context [ltb 0 ?t] => assert (Hpos : 0 < t); [|apply ltb_lt in Hpos; rewrite Hpos in Hrun]
  end; [|discriminate Hrun].
  rewrite sumOf_total, map_app, total_app. cbn [map remainingQuantity].
  rewrite total_cons. unfold total at 2. cbn [fold_right].
  pose proof (total_map_nonneg remainingQuantity lots Hall) as Hsum.
  pose proof (sumEligible_nonneg exDate lots Hall) as Hel.
  apply leb_gt in E0. apply eqb_neq in E3.
  assert (Hfl : 0 <= floor (mulDouble (sumEligible exDate remainingQuantity lots) rightRatio)).
  { apply floor_nonneg, mulDouble_nonneg; [exact Hel | clear - E0; qc_lra]. }
  remember (floor (mulDouble (sumEligible exDate remainingQuantity lots) rightRatio)) as n.
  remember (total (map remainingQuantity lots)) as t.
  clear - Hsum Hfl E3. qc_lra.
Qed.

(** X15.  An [applyCorporateAction] that fails has changed neither the ledger
    nor the list of actions, when no lot of the symbol holds a negative
    number of shares. *)
Theorem applyCorporateAction_failure_changes_nothing (symbol0 actionType0 : string)
    (details : Details) (now : Date) (m m' : CorporateActionsManager) (e : Error) :
  Forall (fun lot => 0 <= remainingQuantity lot)
         (lotsOf (fifoQueue m) (toUpperCase symbol0)) ->
  applyCorporateAction symbol0 actionType0 details now m = (inl e, m') ->
  m' = m.
Proof.
  intros Hall Hrun. unfold applyCorporateAction in Hrun.
  destruct (validateInputs_pure (toUpperCase symbol0) (toUpperCase actionType0) details)
    as (res & Hval & _).
  unfold bind at 1 in Hrun. rewrite Hval in Hrun.
  destruct res as [e0 | exDate]; [injection Hrun as _ <-; reflexivity|].
  unfold bind at 1, get at 1 in Hrun.
  destruct (_isActionAlreadyApplied _ _ _ _); [injection Hrun as _ <-; reflexivity|].
  destruct (getHoldings (fifoQueue m) !! toUpperCase symbol0);
    [|injection Hrun as _ <-; reflexivity].
  unfold bind at 1 in Hrun.
  destruct (String.eqb (toUpperCase actionType0) "BONUS").
  - destruct (_applyBonusShares (toUpperCase symbol0) details exDate m)
      as [[e1 | result] mq] eqn:Hstep.
    + injection Hrun as _ <-. exact (applyBonusShares_failure _ _ _ _ _ _ Hstep).
    + discriminate Hrun.
  - destruct (String.eqb (toUpperCase actionType0) "RIGHT").
    + destruct (_applyRightIssue (toUpperCase symbol0) details exDate m)
        as [[e1 | result] mq] eqn:Hstep.
      * injection Hrun as _ <-. exact (applyRightIssue_failure _ _ _ _ _ _ Hall Hstep).
      * discriminate Hrun.
    + injection Hrun as _ <-. reflexivity.
Qed.

Lemma applyCorporateAction_failure_changes_nothing_witness :
  Forall (fun lot => 0 <= remainingQuantity lot)
         (lotsOf (fifoQueue hundredShares) (toUpperCase "hbl")) /\
  applyCorporateAction "hbl" "right" rights1for200 jun_1_2025 hundredShares =
    (inl (RightRatioTooSmall (Z2Qc 100)
            (divDouble (parseFloat (Z2Qc 1)) (parseFloat (Z2Qc 200)))),
     hundredShares).
Proof.
  assert (Hall : Forall (fun lot => 0 <= remainingQuantity lot)
                        (lotsOf (fifoQueue hundredShares) (toUpperCase "hbl"))).
  { remember (lotsOf (fifoQueue hundredShares) (toUpperCase "hbl")) as lots eqn:E.
    vm_compute in E. subst lots. constructor; [|constructor].
    intros H. vm_compute in H. discriminate H. }
  split; [exact Hall|].
  destruct (applyCorporateAction "hbl" "right" rights1for200 jun_1_2025 hundredShares)
    as [[e | record] m'] eqn:Hrun.
  - rewrite (applyCorporateAction_failure_changes_nothing _ _ _ _ _ _ _ Hall Hrun).
    vm_compute in Hrun. injection Hrun as <- _. qc_compute.
  - exfalso. vm_compute in Hrun. discriminate Hrun.
Defined.

(** ** Reversing corporate actions *)

Lemma reverseBonusShares_run (action : ActionRecord) (m : CorporateActionsManager) :
  (exists e, _reverseBonusShares action m = (inl e, m)) \/
  (exists lots', _reverseBonusShares action m =
                   (inr tt, withQueue (setLots (ca_symbol action) lots') m)) \/
  _reverseBonusShares action m = (inr tt, m).
Proof.
  unfold _reverseBonusShares, bind, get, throw, modify, ret.
  destruct (ca_result action); [|left; eexists; reflexivity].
  destruct (holdings (fifoQueue m) !! ca_symbol action) as [lots|];
    [|left; eexists; reflexivity].
  destruct (d_exDate (ca_details action)) as [exDate|].
  - right; left. eexists. reflexivity.
  - right; right. reflexivity.
Qed.

Lemma reverseRightIssue_run (action : ActionRecord) (m : CorporateActionsManager) :
  (exists e, _reverseRightIssue action m = (inl e, m)) \/
  (exists lots', _reverseRightIssue action m =
                   (inr tt, withQueue (setLots (ca_symbol action) lots') m)).
Proof.
  unfold _reverseRightIssue, bind, get, throw, modify, ret.
  destruct (ca_result action); [left; eexists; reflexivity|].
  destruct (holdings (fifoQueue m) !! ca_symbol action) as [lots|];
    [|left; eexists; reflexivity].
  destruct (findIndex _ lots) as [i|]; [|left; eexists; reflexivity].
  destruct (nth_error lots i) as [rightLot|]; [|left; eexists; reflexivity].
  destruct (negb _); [left; eexists; reflexivity|].
  right. eexists. reflexivity.
Qed.

(** The step of [reverseCorporateAction] that undoes the action: it fails
    without a change, or it replaces the queue of the symbol at most. *)
Lemma reverse_step_run (action : ActionRecord) (m : CorporateActionsManager) :
  let step := if String.eqb (ca_type action) "BONUS" then _reverseBonusShares action
              else if String.eqb (ca_type action) "RIGHT" then _reverseRightIssue action
              else ret tt in
  (exists e, step m = (inl e, m)) \/
  (exists m1, step m = (inr tt, m1) /\
              corporateActions m1 = corporateActions m /\
              transactions (fifoQueue m1) = transactions (fifoQueue m) /\
              realizedGains (fifoQueue m1) = realizedGains (fifoQueue m) /\
              forall s, s <> ca_symbol action ->
                        lotsOf (fifoQueue m1) s = lotsOf (fifoQueue m) s).
Proof.
  intros step. subst step.
  assert (Hset : forall lots',
            let m1 := withQueue (setLots (ca_symbol action) lots') m in
            corporateActions m1 = corporateActions m /\
            transactions (fifoQueue m1) = transactions (fifoQueue m) /\
            realizedGains (fifoQueue m1) = realizedGains (fifoQueue m) /\
            forall s, s <> ca_symbol action ->
                      lotsOf (fifoQueue m1) s = lotsOf (fifoQueue m) s).
  { intros lots' m1. subst m1. unfold withQueue, setLots, lotsOf.
    cbn [fifoQueue holdings corporateActions transactions realizedGains].
    repeat split. intros s Hs. rewrite lookup_insert_ne by congruence. reflexivity. }
  destruct (String.eqb (ca_type action) "BONUS").
  - destruct (reverseBonusShares_run action m) as [Hf | [[lots' Hs] | Hs]].
    + left. exact Hf.
    + right. eexists. split; [exact Hs|]. apply Hset.
    + right. exists m. split; [exact Hs|]. repeat split.
  - destruct (String.eqb (ca_type action) "RIGHT").
    + destruct (reverseRightIssue_run action m) as [Hf | [lots' Hs]].
      * left. exact Hf.
      * right. eexists. split; [exact Hs|]. apply Hset.
    + right. exists m. split; [reflexivity|]. repeat split.
Qed.

(** X16.  A [reverseCorporateAction] that fails, for whatever reason, has
    changed neither the ledger nor the list of actions. *)
Theorem reverseCorporateAction_failure_changes_nothing (actionId : Z) (now : Date)
    (m m' : CorporateActionsManager) (e : Error) :
  reverseCorporateAction actionId now m = (inl e, m') -> m' = m.
Proof.
  unfold reverseCorporateAction. unfold bind at 1, get at 1. intros Hrun.
  destruct (find _ (corporateActions m)) as [action|];
    [|injection Hrun as _ <-; reflexivity].
  destruct (negb (applied action)); [injection Hrun as _ <-; reflexivity|].
  destruct (0 <? _)%nat; [injection Hrun as _ <-; reflexivity|].
  unfold bind at 1 in Hrun.
  destruct (reverse_step_run action m) as [[e0 Hf] | (m1 & Hs & _)].
  - rewrite Hf in Hrun. injection Hrun as _ <-. reflexivity.
  - rewrite Hs in Hrun. discriminate Hrun.
Qed.

Lemma reverseCorporateAction_failure_changes_nothing_witness :
  let applied := snd (applyCorporateAction "hbl" "right" rights1for5 jun_1_2025
                        hundredShares) in
  reverseCorporateAction 2 jun_1_2025 applied = (inl (ActionNotFound 2), applied).
Proof.
  intros applied.
  destruct (reverseCorporateAction 2 jun_1_2025 applied) as [[e | []] m'] eqn:Hrun.
  - rewrite (reverseCorporateAction_failure_changes_nothing _ _ _ _ _ Hrun).
    subst applied. vm_compute in Hrun. injection Hrun as <- _. reflexivity.
  - exfalso. subst applied. vm_compute in Hrun. discriminate Hrun.
Defined.

Lemma find_markReversed (actionId : Z) (now : Date) (actions : list ActionRecord)
    (action : ActionRecord) :
  find (fun a => (ca_id a =? actionId)%Z) actions = Some action ->
  find (fun a => (ca_id a =? actionId)%Z) (markReversed actionId now actions) =
    Some (reversedRecord now action).
Proof.
  induction actions as [|a rest IH]; cbn [find markReversed]; [discriminate|].
  destruct (ca_id a =? actionId)%Z eqn:E.
  - intros [= <-]. cbn [find ca_id]. rewrite E. reflexivity.
  - intros H. cbn [find]. rewrite E. exact (IH H).
Qed.

(** X17.  A corporate action is reversed once: after a reversal that
    succeeded the record is marked as not applied, the transactions, the
    realized gains and the queues of the other symbols are as before, and
    another reversal of the same action is refused without a change. *)
Theorem reverseCorporateAction_only_once (actionId : Z) (now now' : Date)
    (m m' : CorporateActionsManager) :
  reverseCorporateAction actionId now m = (inr tt, m') ->
  corporateActions m' = markReversed actionId now (corporateActions m) /\
  transactions (fifoQueue m') = transactions (fifoQueue m) /\
  realizedGains (fifoQueue m') = realizedGains (fifoQueue m) /\
  (exists action,
      find (fun a => (ca_id a =? actionId)%Z) (corporateActions m) = Some action /\
      applied action = true /\
      find (fun a => (ca_id a =? actionId)%Z) (corporateActions m') =
        Some (reversedRecord now action) /\
      forall s, s <> ca_symbol action ->
                lotsOf (fifoQueue m') s = lotsOf (fifoQueue m) s) /\
  reverseCorporateAction actionId now' m' = (inl (AlreadyReversed actionId), m').
Proof.
  unfold reverseCorporateAction at 1. unfold bind at 1, get at 1. intros Hrun.
  destruct (find _ (corporateActions m)) as [action|] eqn:Hfind; [|discriminate].
  destruct (applied action) eqn:Happ; [|discriminate]. cbn [negb] in Hrun.
  destruct (0 <? _)%nat; [discriminate|].
  unfold bind at 1 in Hrun.
  destruct (reverse_step_run action m) as [[e0 Hf] | (m1 & Hs & Hacts & Htx & Hg & Hq)].
  { rewrite Hf in Hrun. discriminate Hrun. }
  rewrite Hs in Hrun. unfold modify in Hrun. injection Hrun as <-.
  cbn [corporateActions fifoQueue]. rewrite Hacts.
  pose proof (find_markReversed actionId now _ _ Hfind) as Hfind'.
  split; [reflexivity|]. split; [exact Htx|]. split; [exact Hg|].
  split.
  - exists action. split; [reflexivity|]. split; [exact Happ|]. split; [exact Hfind'|].
    exact Hq.
  - unfold reverseCorporateAction, bind, get. cbn [corporateActions].
    rewrite Hfind'. reflexivity.
Qed.

Lemma reverseCorporateAction_only_once_witness :
  let applied := snd (applyCorporateAction "hbl" "right" rights1for5 jun_1_2025
                        hundredShares) in
  let reversed := snd (reverseCorporateAction 1 jun_1_2025 applied) in
  reverseCorporateAction 1 jun_1_2025 applied = (inr tt, reversed) /\
  reverseCorporateAction 1 jun_1_2025 reversed = (inl (AlreadyReversed 1), reversed).
Proof.
  intros applied reversed.
  assert (Hrun : reverseCorporateAction 1 jun_1_2025 applied = (inr tt, reversed)).
  { subst reversed.
    destruct (reverseCorporateAction 1 jun_1_2025 applied) as [[e | []] m'] eqn:Hrun.
    - exfalso. subst applied. vm_compute in Hrun. discriminate Hrun.
    - reflexivity. }
  split; [exact Hrun|].
  destruct (reverseCorporateAction_only_once 1 jun_1_2025 jun_1_2025 applied reversed Hrun)
    as (_ & _ & _ & _ & Hagain).
  exact Hagain.
Defined.

(** ** The numbering of the actions *)

Lemma markReversed_ids (actionId : Z) (now : Date) (actions : list ActionRecord) :
  map ca_id (markReversed actionId now actions) = map ca_id actions /\
  length (markReversed actionId now actions) = length actions.
Proof.
  induction actions as [|a rest [IH1 IH2]]; cbn [markReversed]; [split; reflexivity|].
  destruct (ca_id a =? actionId)%Z; cbn [map length ca_id]; [split; reflexivity|].
  rewrite IH1, IH2. split; reflexivity.
Qed.

Lemma numbered_ids_bounded (actions : list ActionRecord) :
  map ca_id actions = map Z.of_nat (seq 1 (length actions)) ->
  Forall (fun a => (ca_id a <= Z.of_nat (length actions))%Z) actions.
Proof.
  intros Hnum.
  assert (Hgen : forall (l : list ActionRecord) (start : nat),
             map ca_id l = map Z.of_nat (seq start (length l)) ->
             Forall (fun a => (ca_id a < Z.of_nat (start + length l))%Z) l).
  { induction l as [|a l IH]; intros start Hl; [constructor|].
    cbn [length seq map] in Hl. injection Hl as Ha Hl.
    constructor; [cbn [length]; lia|].
    specialize (IH (S start) Hl).
    eapply Forall_impl; [exact IH|]. cbn [length]. intros b Hb. cbn beta in Hb. lia. }
  specialize (Hgen actions 1%nat Hnum).
  eapply Forall_impl; [exact Hgen|]. intros b Hb. cbn beta in Hb. lia.
Qed.

Lemma find_numbered_last (actions : list ActionRecord) (record : ActionRecord) :
  map ca_id actions = map Z.of_nat (seq 1 (length actions)) ->
  ca_id record = (Z.of_nat (length actions) + 1)%Z ->
  find (fun a => (ca_id a =? ca_id record)%Z) (actions ++ [record]) = Some record.
Proof.
  intros Hnum Hid. pose proof (numbered_ids_bounded actions Hnum) as Hle.
  clear Hnum. rewrite Hid.
  remember (Z.of_nat (length actions)) as n eqn:En. clear En.
  induction Hle as [|a rest Ha _ IH]; cbn [app find].
  - rewrite <- Hid, Z.eqb_refl. reflexivity.
  - destruct (Z.eqb_spec (ca_id a) (n + 1)); [lia | exact IH].
Qed.

Lemma markReversed_numbered_last (actions : list ActionRecord) (record : ActionRecord)
    (now : Date) :
  map ca_id actions = map Z.of_nat (seq 1 (length actions)) ->
  ca_id record = (Z.of_nat (length actions) + 1)%Z ->
  markReversed (ca_id record) now (actions ++ [record]) =
    actions ++ [reversedRecord now record].
Proof.
  intros Hnum Hid. pose proof (numbered_ids_bounded actions Hnum) as Hle.
  clear Hnum. rewrite Hid.
  remember (Z.of_nat (length actions)) as n eqn:En. clear En.
  induction Hle as [|a rest Ha _ IH]; cbn [app markReversed].
  - rewrite <- Hid, Z.eqb_refl. reflexivity.
  - destruct (Z.eqb_spec (ca_id a) (n + 1)); [lia | rewrite IH; reflexivity].
Qed.

(** X18.  The actions of a manager stay numbered 1, 2, ... in the order in
    which they were applied, through every [applyCorporateAction] and every
    [reverseCorporateAction], failed or not; so the id of the record that a
    successful [applyCorporateAction] returns finds that very record. *)
Theorem actions_stay_numbered (m : CorporateActionsManager) :
  actionsNumbered m ->
  (forall symbol0 actionType0 details now,
      let run := applyCorporateAction symbol0 actionType0 details now m in
      actionsNumbered (snd run) /\
      forall record, fst run = inr record ->
        find (fun a => (ca_id a =? ca_id record)%Z) (corporateActions (snd run)) =
          Some record) /\
  (forall actionId now,
      actionsNumbered (snd (reverseCorporateAction actionId now m))).
Proof.
  intros Hnum. split.
  - intros symbol0 actionType0 details now run.
    destruct run as [[e | record] m'] eqn:Hrun; subst run; cbn [fst snd];
      unfold actionsNumbered in *.
    + split; [|discriminate].
      assert (Hacts : corporateActions m' = corporateActions m).
      { unfold applyCorporateAction in Hrun.
        destruct (validateInputs_pure (toUpperCase symbol0) (toUpperCase actionType0) details)
          as (res & Hval & _).
        unfold bind at 1 in Hrun. rewrite Hval in Hrun.
        destruct res as [e0 | exDate]; [injection Hrun as _ <-; reflexivity|].
        unfold bind at 1, get at 1 in Hrun.
        destruct (_isActionAlreadyApplied _ _ _ _); [injection Hrun as _ <-; reflexivity|].
        destruct (getHoldings (fifoQueue m) !! toUpperCase symbol0);
          [|injection Hrun as _ <-; reflexivity].
        unfold bind at 1 in Hrun.
        destruct (String.eqb (toUpperCase actionType0) "BONUS").
        - pose proof (applyBonusShares_actions (toUpperCase symbol0) details exDate m) as Ha.
          destruct (_applyBonusShares (toUpperCase symbol0) details exDate m)
            as [[e1 | result] mq]; [|discriminate].
          injection Hrun as _ <-. exact Ha.
        - destruct (String.eqb (toUpperCase actionType0) "RIGHT").
          + pose proof (applyRightIssue_actions (toUpperCase symbol0) details exDate m) as Ha.
            destruct (_applyRightIssue (toUpperCase symbol0) details exDate m)
              as [[e1 | result] mq]; [|discriminate].
            injection Hrun as _ <-. exact Ha.
          + injection Hrun as _ <-. reflexivity. }
      rewrite Hacts. exact Hnum.
    + destruct (applyCorporateAction_success _ _ _ _ _ _ _ Hrun)
        as (exDate & result & mq & _ & _ & Hacts & Hrec & Hm').
      assert (Hid : ca_id record = (Z.of_nat (length (corporateActions m)) + 1)%Z)
        by (rewrite Hrec; reflexivity).
      rewrite Hm'. unfold pushAction. cbn [corporateActions]. rewrite Hacts.
      split.
      * rewrite map_app, length_app. cbn [length map].
        rewrite Nat.add_1_r, seq_S, map_app, <- Hnum. cbn [map].
        rewrite Hid. do 2 f_equal. lia.
      * intros record' [= <-]. apply find_numbered_last; assumption.
  - intros actionId now.
    destruct (reverseCorporateAction actionId now m) as [[e | []] m'] eqn:Hrun; cbn [snd];
      unfold actionsNumbered in *.
    + unfold reverseCorporateAction in Hrun. unfold bind at 1, get at 1 in Hrun.
      assert (Hsame : m' = m).
      { destruct (find _ (corporateActions m)) as [action|];
          [|injection Hrun as _ <-; reflexivity].
        destruct (negb (applied action)); [injection Hrun as _ <-; reflexivity|].
        destruct (0 <? _)%nat; [injection Hrun as _ <-; reflexivity|].
        unfold bind at 1 in Hrun.
        destruct (reverse_step_run action m) as [[e0 Hf] | (m1 & Hs & _)].
        - rewrite Hf in Hrun. injection Hrun as _ <-. reflexivity.
        - rewrite Hs in Hrun. discriminate Hrun. }
      rewrite Hsame. exact Hnum.
    + unfold reverseCorporateAction in Hrun. unfold bind at 1, get at 1 in Hrun.
      destruct (find _ (corporateActions m)) as [action|]; [|discriminate].
      destruct (negb (applied action)); [discriminate|].
      destruct (0 <? _)%nat; [discriminate|].
      unfold bind at 1 in Hrun.
      destruct (reverse_step_run action m) as [[e0 Hf] | (m1 & Hs & Hacts & _)].
      { rewrite Hf in Hrun. discriminate Hrun. }
      rewrite Hs in Hrun. unfold modify in Hrun. injection Hrun as <-.
      cbn [corporateActions]. rewrite Hacts.
      destruct (markReversed_ids actionId now (corporateActions m)) as [-> ->].
      exact Hnum.
Qed.

Lemma actions_stay_numbered_witness :
  actionsNumbered hundredShares /\
  actionsNumbered (snd (applyCorporateAction "hbl" "bonus" bonus20 jun_1_2025 hundredShares)).
Proof.
  assert (Hnum : actionsNumbered hundredShares) by reflexivity.
  split; [exact Hnum|].
  destruct (actions_stay_numbered hundredShares Hnum) as [Happly _].
  exact (proj1 (Happly "hbl"%string "bonus"%string bonus20 jun_1_2025)).
Defined.

(** ** Applying an action and reversing it *)

(** The reversal of the action applied last, from what its undoing step
    does. *)
Lemma reverse_last_action (m mq m0 : CorporateActionsManager) (record : ActionRecord)
    (now' : Date) :
  actionsNumbered m ->
  ca_id record = (Z.of_nat (length (corporateActions m)) + 1)%Z ->
  applied record = true ->
  corporateActions mq = corporateActions m ->
  List.filter (fun gain => String.eqb (symbol gain) (ca_symbol record) &&
                           (appliedDate record <? saleDate gain)%Z)
              (realizedGains (fifoQueue mq)) = [] ->
  (if String.eqb (ca_type record) "BONUS" then _reverseBonusShares record
   else if String.eqb (ca_type record) "RIGHT" then _reverseRightIssue record
   else ret tt) (pushAction record mq) = (inr tt, pushAction record m0) ->
  corporateActions m0 = corporateActions m ->
  reverseCorporateAction (ca_id record) now' (pushAction record mq) =
    (inr tt, {| fifoQueue := fifoQueue m0;
                corporateActions := corporateActions m ++ [reversedRecord now' record] |}).
Proof.
  intros Hnum Hid Happ Hacts Hsales Hstep Hacts0.
  unfold reverseCorporateAction. unfold bind at 1, get at 1.
  change (corporateActions (pushAction record mq)) with (corporateActions mq ++ [record]).
  change (fifoQueue (pushAction record mq)) with (fifoQueue mq).
  rewrite Hacts, (find_numbered_last _ _ Hnum Hid), Happ. cbn [negb].
  rewrite Hsales. cbn [length Nat.ltb Nat.leb].
  unfold bind at 1. rewrite Hstep. unfold modify, pushAction.
  cbn [corporateActions fifoQueue]. rewrite Hacts0.
  rewrite (markReversed_numbered_last _ _ now' Hnum Hid). reflexivity.
Qed.

Lemma no_sales_after (gains : list SaleResult) (s : string) (now : Date) :
  Forall (fun gain => symbol gain = s -> (saleDate gain <= now)%Z) gains ->
  List.filter (fun gain => String.eqb (symbol gain) s && (now <? saleDate gain)%Z) gains = [].
Proof.
  induction 1 as [|gain rest Hgain _ IH]; cbn [List.filter]; [reflexivity|].
  destruct (String.eqb_spec (symbol gain) s) as [Hs | Hs]; cbn [andb]; [|exact IH].
  specialize (Hgain Hs). destruct (Z.ltb_spec now (saleDate gain)); [lia | exact IH].
Qed.

(** X19.  A right issue that is applied and then reversed, with no sale of
    the symbol settled after the time of the application, leaves the ledger
    exactly as it was, and the record marked as reversed: wanted are a list
    of actions numbered in order, and a queue that holds no lot that the
    search of [_reverseRightIssue] would take for the new one. *)
Theorem right_issue_round_trip (symbol0 actionType0 : string) (details : Details)
    (now now' : Date) (m m' : CorporateActionsManager) (record : ActionRecord) :
  toUpperCase actionType0 = "RIGHT"%string ->
  actionsNumbered m ->
  (forall a n b c d e f g rightPurchaseDate,
      ca_result record = RightResult a n b c d e f g rightPurchaseDate ->
      Forall (fun lot => isRightLot rightPurchaseDate n lot = false)
             (lotsOf (fifoQueue m) (toUpperCase symbol0))) ->
  Forall (fun gain => symbol gain = toUpperCase symbol0 -> (saleDate gain <= now)%Z)
         (realizedGains (fifoQueue m)) ->
  applyCorporateAction symbol0 actionType0 details now m = (inr record, m') ->
  reverseCorporateAction (ca_id record) now' m' =
    (inr tt, {| fifoQueue := fifoQueue m;
                corporateActions := corporateActions m ++ [reversedRecord now' record] |}).
Proof.
  intros Htype Hnum Hfresh Hsales Hrun.
  destruct (applyCorporateAction_success _ _ _ _ _ _ _ Hrun)
    as (exDate & result & mq & Hex & Hkind & Hacts & Hrec & Hm').
  destruct Hkind as [[Hb _] | [_ Hstep]]; [rewrite Htype in Hb; discriminate Hb|].
  destruct (applyRightIssue_success _ _ _ _ _ _ Hstep)
    as (rightRatio & rightPrice & lots & newLot & _ & _ & _ & _ & Hlots & _ & _ & Hfull
        & _ & (o1 & o2 & o3 & o4 & o5 & Horigin) & Hmq & (a & b & c & d & e & f & Hres)).
  assert (Hresult : ca_result record =
                    RightResult a (quantity newLot) rightPrice b c d e f (purchaseDate newLot))
    by (rewrite Hrec; exact Hres).
  assert (Hsym : ca_symbol record = toUpperCase symbol0) by (rewrite Hrec; reflexivity).
  assert (Htyp : ca_type record = "RIGHT"%string) by (rewrite Hrec; exact Htype).
  rewrite Hm'. apply reverse_last_action.
  - exact Hnum.
  - rewrite Hrec. reflexivity.
  - rewrite Hrec. reflexivity.
  - exact Hacts.
  - rewrite Hmq. unfold withQueue, setLots. cbn [fifoQueue realizedGains].
    rewrite Hsym. replace (appliedDate record) with now by (rewrite Hrec; reflexivity).
    apply no_sales_after, Hsales.
  - rewrite Htyp. cbn [String.eqb Ascii.eqb Bool.eqb]. rewrite Hmq.
    change (pushAction record (withQueue (setLots (toUpperCase symbol0) (lots ++ [newLot])) m))
      with (withQueue (setLots (toUpperCase symbol0) (lots ++ [newLot]))
              (pushAction record m)).
    rewrite <- Hsym.
    apply (reverseRightIssue_removes_lot (pushAction record m) record lots newLot
             (quantity newLot) (purchaseDate newLot) a rightPrice b c d e f Hresult).
    + rewrite Hsym. exact Hlots.
    + specialize (Hfresh _ _ _ _ _ _ _ _ _ Hresult). unfold lotsOf in Hfresh.
      rewrite Hlots in Hfresh. exact Hfresh.
    + unfold isRightLot. rewrite Horigin, Z.eqb_refl.
      apply eqb_eq. reflexivity.
    + exact Hfull.
  - reflexivity.
Qed.

Lemma right_issue_round_trip_witness :
  let applied := applyCorporateAction "hbl" "right" rights1for5 jun_1_2025 hundredShares in
  (exists record, fst applied = inr record) /\
  fifoQueue (snd (reverseCorporateAction 1 jun_1_2025 (snd applied))) =
    fifoQueue hundredShares.
Proof.
  intros applied.
  destruct applied as [[e | record] m'] eqn:Hrun; subst applied.
  - exfalso. vm_compute in Hrun. discriminate Hrun.
  - split; [eexists; reflexivity|]. cbn [snd].
    assert (Hid : ca_id record = 1%Z)
      by (vm_compute in Hrun; injection Hrun as <- _; reflexivity).
    assert (Hfresh : forall a n b c d e f g rightPurchaseDate,
               ca_result record = RightResult a n b c d e f g rightPurchaseDate ->
               Forall (fun lot => isRightLot rightPurchaseDate n lot = false)
                      (lotsOf (fifoQueue hundredShares) (toUpperCase "hbl"))).
    { intros a n b c d e f g rightPurchaseDate _.
      remember (lotsOf (fifoQueue hundredShares) (toUpperCase "hbl")) as lots eqn:E.
      vm_compute in E. subst lots. constructor; [reflexivity | constructor]. }
    assert (Hsales : Forall (fun gain => symbol gain = toUpperCase "hbl" ->
                                         (saleDate gain <= jun_1_2025)%Z)
                            (realizedGains (fifoQueue hundredShares)))
      by constructor.
    pose proof (right_issue_round_trip "hbl" "right" rights1for5 jun_1_2025 jun_1_2025
                  hundredShares m' record eq_refl eq_refl Hfresh Hsales Hrun) as Hback.
    rewrite Hid in Hback. rewrite Hback. reflexivity.
Defined.

Lemma setLots_restore (m : CorporateActionsManager) (record : ActionRecord) (s : string)
    (lots lots' : list Lot) :
  holdings (fifoQueue m) !! s = Some lots ->
  withQueue (setLots s lots) (pushAction record (withQueue (setLots s lots') m)) =
  pushAction record m.
Proof.
  intros Hlots. unfold withQueue, setLots, pushAction.
  cbn [fifoQueue holdings corporateActions transactions realizedGains].
  rewrite insert_insert_eq, (insert_id _ _ _ Hlots).
  destruct m as [[h t r] acts]. reflexivity.
Qed.

(** X20.  A bonus that is applied and then reversed, with no sale of the
    symbol settled after the time of the application, leaves the ledger
    exactly as it was when every lot bought before the ex-date holds shares
    and the floor of the reversal gives its share count back: when
    floor((n + b) / (1 + ratio)) is n for the lot's count n and its bonus
    b = floor(n * ratio), the product, the sum and the quotient being rounded
    to binary64 (as for 100 shares at 20 %, and not at 10 %).  The unit costs
    are followed exactly: in the source they come back up to the rounding of
    their last digit. *)
Theorem bonus_round_trip_whole_lots (symbol0 actionType0 : string) (details : Details)
    (now now' : Date) (m m' : CorporateActionsManager) (record : ActionRecord)
    (bonusRatio : Qc) (exDate : Date) :
  toUpperCase actionType0 = "BONUS"%string ->
  actionsNumbered m ->
  parseBonusRatio (d_ratio details) = Some bonusRatio ->
  d_exDate details = Some exDate ->
  Forall (fun lot =>
            eligible exDate lot = true ->
            remainingQuantity lot <> 0 /\
            floor (divDouble (remainingQuantity lot +
                              floor (mulDouble (remainingQuantity lot) bonusRatio))
                             (addDouble 1 bonusRatio)) = remainingQuantity lot)
         (lotsOf (fifoQueue m) (toUpperCase symbol0)) ->
  Forall (fun gain => symbol gain = toUpperCase symbol0 -> (saleDate gain <= now)%Z)
         (realizedGains (fifoQueue m)) ->
  applyCorporateAction symbol0 actionType0 details now m = (inr record, m') ->
  reverseCorporateAction (ca_id record) now' m' =
    (inr tt, {| fifoQueue := fifoQueue m;
                corporateActions := corporateActions m ++ [reversedRecord now' record] |}).
Proof.
  intros Htype Hnum Hratio Hexd Hwhole Hsales Hrun.
  destruct (applyCorporateAction_success _ _ _ _ _ _ _ Hrun)
    as (exDate' & result & mq & Hex & Hkind & Hacts & Hrec & Hm').
  rewrite Hexd in Hex. injection Hex as <-.
  destruct Hkind as [[_ Hstep] | [Hr _]]; [|rewrite Htype in Hr; discriminate Hr].
  destruct (applyBonusShares_success _ _ _ _ _ _ Hstep)
    as (ratio' & lots & Hratio' & Hpos & _ & Hlots & _ & _ & Hmq & (a & b & c & d & Hres)).
  rewrite Hratio in Hratio'. injection Hratio' as <-.
  assert (Hsym : ca_symbol record = toUpperCase symbol0) by (rewrite Hrec; reflexivity).
  assert (Htyp : ca_type record = "BONUS"%string) by (rewrite Hrec; exact Htype).
  assert (Hback : map (reverseBonusLot exDate bonusRatio)
                      (map (adjustBonusLot exDate bonusRatio) lots) = lots).
  { unfold lotsOf in Hwhole. rewrite Hlots in Hwhole. cbn [default from_option id] in Hwhole.
    clear - Hwhole Hpos.
    induction Hwhole as [|lot rest Hlot _ IH]; cbn [map]; [reflexivity|].
    rewrite IH. f_equal.
    exact (reverseBonusLot_adjustBonusLot exDate bonusRatio lot Hpos Hlot). }
  rewrite Hm'. apply reverse_last_action.
  - exact Hnum.
  - rewrite Hrec. reflexivity.
  - rewrite Hrec. reflexivity.
  - exact Hacts.
  - rewrite Hmq. unfold withQueue, setLots. cbn [fifoQueue realizedGains].
    rewrite Hsym. replace (appliedDate record) with now by (rewrite Hrec; reflexivity).
    apply no_sales_after, Hsales.
  - rewrite Htyp. cbn [String.eqb Ascii.eqb Bool.eqb].
    unfold _reverseBonusShares.
    replace (ca_result record) with result by (rewrite Hrec; reflexivity).
    rewrite Hres. unfold bind, get, modify.
    replace (ca_details record) with details by (rewrite Hrec; reflexivity).
    rewrite Hsym, Hexd, Hmq.
    assert (Hq : holdings (fifoQueue (pushAction record
                   (withQueue (setLots (toUpperCase symbol0)
                                 (map (adjustBonusLot exDate bonusRatio) lots)) m)))
                 !! toUpperCase symbol0 =
                 Some (map (adjustBonusLot exDate bonusRatio) lots)).
    { unfold pushAction, withQueue, setLots. cbn [fifoQueue holdings].
      apply lookup_insert_eq. }
    rewrite Hq, Hback, (setLots_restore _ _ _ _ _ Hlots). reflexivity.
  - reflexivity.
Qed.

Lemma bonus_round_trip_whole_lots_witness :
  let applied := applyCorporateAction "hbl" "bonus" bonus20 jun_1_2025 hundredShares in
  (exists record, fst applied = inr record) /\
  fifoQueue (snd (reverseCorporateAction 1 jun_1_2025 (snd applied))) =
    fifoQueue hundredShares.
Proof.
  intros applied.
  destruct applied as [[e | record] m'] eqn:Hrun; subst applied.
  - exfalso. vm_compute in Hrun. discriminate Hrun.
  - split; [eexists; reflexivity|]. cbn [snd].
    assert (Hid : ca_id record = 1%Z)
      by (vm_compute in Hrun; injection Hrun as <- _; reflexivity).
    remember (divDouble (parseFloat (Z2Qc 20)) (Z2Qc 100)) as ratio eqn:Eratio.
    assert (Hwhole : Forall (fun lot =>
                        eligible mar_1_2025 lot = true ->
                        remainingQuantity lot <> 0 /\
                        floor (divDouble (remainingQuantity lot +
                                          floor (mulDouble (remainingQuantity lot) ratio))
                                         (addDouble 1 ratio)) = remainingQuantity lot)
                       (lotsOf (fifoQueue hundredShares) (toUpperCase "hbl"))).
    { remember (lotsOf (fifoQueue hundredShares) (toUpperCase "hbl")) as lots eqn:E.
      vm_compute in E. subst lots ratio. constructor; [|constructor].
      intros _. split; [intros H; vm_compute in H; discriminate H|].
      apply Qc_is_canon. vm_compute. reflexivity. }
    assert (Hsales : Forall (fun gain => symbol gain = toUpperCase "hbl" ->
                                         (saleDate gain <= jun_1_2025)%Z)
                            (realizedGains (fifoQueue hundredShares)))
      by constructor.
    assert (Hparse : parseBonusRatio (d_ratio bonus20) = Some ratio)
      by (subst ratio; reflexivity).
    pose proof (bonus_round_trip_whole_lots "hbl" "bonus" bonus20 jun_1_2025 jun_1_2025
                  hundredShares m' record ratio mar_1_2025
                  eq_refl eq_refl Hparse eq_refl Hwhole Hsales Hrun) as Hback.
    rewrite Hid in Hback. rewrite Hback. reflexivity.
Defined.

(** ** What a transaction leaves in the ledger *)

Lemma processSell_ledger (t : Transaction) (q : FIFOQueue) :
  transactions (snd (_processSell t q)) = transactions q /\
  match fst (_processSell t q) with
  | inl e =>
      snd (_processSell t q) = q /\
      (e = NoHoldingsFound (tx_symbol t) \/
       exists available, e = InsufficientShares (tx_symbol t) (tx_quantity t) available /\
                         available = sumOf remainingQuantity (lotsOf q (tx_symbol t)) /\
                         available < tx_quantity t)
  | inr r =>
      realizedGains (snd (_processSell t q)) = realizedGains q ++ [r] /\
      tx_quantity t <= sumOf remainingQuantity (lotsOf q (tx_symbol t))
  end.
Proof.
  unfold _processSell, bind, get, throw, modify, ret, lotsOf.
  destruct (holdings q !! tx_symbol t) as [lots|]; cbn [fst snd];
    [|split; [reflexivity | split; [reflexivity | left; reflexivity]]].
  destruct lots as [|lot0 rest]; cbn [fst snd];
    [split; [reflexivity | split; [reflexivity | left; reflexivity]]|].
  cbn [default from_option id].
  remember (lot0 :: rest) as lots eqn:El. clear El.
  destruct (ltb (sumOf remainingQuantity lots) (tx_quantity t)) eqn:E; cbn [fst snd].
  - split; [reflexivity|]. split; [reflexivity|]. right. eexists.
    split; [reflexivity|]. split; [reflexivity|]. apply ltb_lt. exact E.
  - destruct (sellLoop (tx_settlementDate t) lots (tx_quantity t) [] 0)
      as [[[lots' r] used] basis].
    cbn [fst snd]. split; [reflexivity|]. split; [reflexivity|].
    apply ltb_ge. exact E.
Qed.

(** X21.  What the transaction form leaves behind, for the two types it
    offers: when it asks for the fields to be filled, or reports an error,
    the ledger is as before, and only a sale can end in an error; a buy that
    is confirmed has recorded one transaction and no gain; a sale that is
    confirmed has recorded one gain, the one that is shown, and no
    transaction. *)
Theorem handleAddTransaction_outcomes (type symbol0 : string) (quantity0 price0 : Qc)
    (tradeDate : option Date) (now : Date) (q q' : FIFOQueue) (message : Message) :
  type = "BUY"%string \/ type = "SELL"%string ->
  handleAddTransaction type symbol0 quantity0 price0 tradeDate now q = (message, q') ->
  match message with
  | PleaseFillAllFields => q' = q
  | ErrorMessage e => q' = q /\ type = "SELL"%string
  | AddedBuy _ _ _ =>
      type = "BUY"%string /\
      length (transactions q') = S (length (transactions q)) /\
      realizedGains q' = realizedGains q
  | AddedSell _ _ _ gain =>
      type = "SELL"%string /\
      transactions q' = transactions q /\
      exists r, realizedGains q' = realizedGains q ++ [r] /\ capitalGain r = gain
  end.
Proof.
  intros Htype. unfold handleAddTransaction.
  destruct tradeDate as [date|]; [|intros [= <- <-]; reflexivity].
  destruct (_ || _ || _); [intros [= <- <-]; reflexivity|].
  destruct Htype as [-> | ->].
  - unfold addTransaction, _processBuy, bind, get, modify, ret.
    change (toUpperCase "BUY") with "BUY"%string.
    cbn [String.eqb Ascii.eqb Bool.eqb fst snd].
    intros [= <- <-]. split; [reflexivity|].
    unfold pushTransaction, setLots. cbn [transactions realizedGains].
    split; [|reflexivity]. rewrite length_app. cbn [length]. lia.
  - unfold addTransaction. unfold bind at 1, get at 1. rewrite toUpperCase_SELL.
    cbn [String.eqb Ascii.eqb Bool.eqb]. unfold bind, ret.
    match goal with
    | |- context [_processSell ?t q] =>
        pose proof (processSell_ledger t q) as [Htx Hres];
        destruct (_processSell t q) as [[e | r] q1]
    end; cbn [fst snd] in Htx, Hres.
    + intros [= <- <-]. destruct Hres as [Hq _]. split; [exact Hq | reflexivity].
    + intros [= <- <-]. split; [reflexivity|]. split; [exact Htx|].
      exists r. split; [apply Hres | reflexivity].
Qed.

Lemma handleAddTransaction_outcomes_witness :
  handleAddTransaction "SELL" "ogdc" (Z2Qc 500) (Z2Qc 150) (Some mar_1_2025) 0%Z twoBuys =
    (ErrorMessage (InsufficientShares "OGDC" (Z2Qc 500) (Z2Qc 150)), twoBuys).
Proof.
  destruct (handleAddTransaction "SELL" "ogdc" (Z2Qc 500) (Z2Qc 150) (Some mar_1_2025) 0%Z
              twoBuys) as [message q'] eqn:Hrun.
  pose proof (handleAddTransaction_outcomes "SELL" "ogdc" (Z2Qc 500) (Z2Qc 150)
                (Some mar_1_2025) 0%Z twoBuys q' message (or_intror eq_refl) Hrun) as Hout.
  assert (Hmsg : message = ErrorMessage (InsufficientShares "OGDC" (Z2Qc 500) (Z2Qc 150))).
  { vm_compute in Hrun. injection Hrun as <- _. qc_compute. }
  subst message. destruct Hout as [-> _]. reflexivity.
Defined.

(** X22.  The history of a ledger only grows, in order: every
    [addTransaction], failed or not, keeps the transactions and the realized
    gains that were there and appends at most one to each; the transactions
    stay numbered 1, 2, ...; and a sale is never among them. *)
Theorem addTransaction_history (type symbol0 : string) (quantity0 price0 : Qc)
    (date now : Date) (q : FIFOQueue) :
  transactionsNumbered q ->
  Forall (fun t => tx_type t <> "SELL"%string) (transactions q) ->
  let q' := snd (addTransaction type symbol0 quantity0 price0 date now q) in
  transactionsNumbered q' /\
  Forall (fun t => tx_type t <> "SELL"%string) (transactions q') /\
  (exists new, transactions q' = transactions q ++ new /\ (length new <= 1)%nat /\
               (toUpperCase type = "SELL"%string -> new = [])) /\
  (exists new, realizedGains q' = realizedGains q ++ new /\ (length new <= 1)%nat /\
               (toUpperCase type <> "SELL"%string -> new = [])).
Proof.
  intros Hnum Hnosell q'.
  assert (Hpush : forall t q0,
            tx_id t = (Z.of_nat (length (transactions q)) + 1)%Z ->
            tx_type t = toUpperCase type ->
            toUpperCase type <> "SELL"%string ->
            transactions q0 = transactions q ++ [t] ->
            realizedGains q0 = realizedGains q ->
            transactionsNumbered q0 /\
            Forall (fun t => tx_type t <> "SELL"%string) (transactions q0) /\
            (exists new, transactions q0 = transactions q ++ new /\ (length new <= 1)%nat /\
                         (toUpperCase type = "SELL"%string -> new = [])) /\
            (exists new, realizedGains q0 = realizedGains q ++ new /\ (length new <= 1)%nat /\
                         (toUpperCase type <> "SELL"%string -> new = []))).
  { intros t q0 Hid Hty Hns Htx Hg. unfold transactionsNumbered in *.
    rewrite Htx, Hg. split.
    - rewrite map_app, length_app. cbn [length map].
      rewrite Nat.add_1_r, seq_S, map_app, <- Hnum. cbn [map].
      rewrite Hid. do 2 f_equal. lia.
    - split.
      + apply Forall_app. split; [exact Hnosell|]. constructor; [|constructor].
        rewrite Hty. exact Hns.
      + split.
        * exists [t]. split; [reflexivity|]. split; [cbn; lia | intros H; contradiction].
        * exists []. split; [rewrite app_nil_r; reflexivity|]. split; [cbn; lia | reflexivity]. }
  assert (Hq : q' = snd (addTransaction type symbol0 quantity0 price0 date now q))
    by reflexivity.
  clearbody q'. unfold addTransaction in Hq. unfold bind at 1, get at 1 in Hq.
  destruct (String.eqb_spec (toUpperCase type) "BUY") as [Hb | Hb].
  - unfold _processBuy, bind, modify, ret in Hq. cbn [snd] in Hq. subst q'.
    eapply Hpush; cycle 3;
      [unfold pushTransaction, setLots; cbn [transactions]; reflexivity
      | reflexivity | reflexivity | reflexivity | rewrite Hb; discriminate].
  - destruct (String.eqb_spec (toUpperCase type) "SELL") as [Hs | Hs].
    + unfold bind, ret in Hq.
      match type of Hq with
      | context [_processSell ?t q] =>
          pose proof (processSell_ledger t q) as [Htx Hres];
          destruct (_processSell t q) as [[e | r] q1]
      end; cbn [fst snd] in Htx, Hres, Hq; subst q'.
      * destruct Hres as [-> _]. split; [exact Hnum|]. split; [exact Hnosell|].
        split; exists []; (split; [rewrite app_nil_r; reflexivity|]);
          (split; [cbn; lia | reflexivity]).
      * destruct Hres as [Hg _]. unfold transactionsNumbered. rewrite Htx.
        split; [exact Hnum|]. split; [exact Hnosell|]. split.
        -- exists []. split; [rewrite app_nil_r; reflexivity|].
           split; [cbn; lia | reflexivity].
        -- exists [r]. split; [exact Hg|]. split; [cbn; lia | intros H; contradiction].
    + unfold bind, modify, ret in Hq. cbn [snd] in Hq. subst q'.
      eapply Hpush; cycle 3;
        [unfold pushTransaction; cbn [transactions]; reflexivity
        | reflexivity | reflexivity | reflexivity | exact Hs].
Qed.

Lemma addTransaction_history_witness :
  transactionsNumbered twoBuys /\
  map tx_id (transactions
               (snd (addTransaction "SELL" "OGDC" (Z2Qc 120) (Z2Qc 150) mar_1_2025 0%Z
                       twoBuys))) = [1%Z; 2%Z].
Proof.
  assert (Hnum : transactionsNumbered twoBuys) by (vm_compute; reflexivity).
  assert (Hnosell : Forall (fun t => tx_type t <> "SELL"%string) (transactions twoBuys)).
  { remember (transactions twoBuys) as ts eqn:E. vm_compute in E. subst ts.
    repeat constructor; discriminate. }
  split; [exact Hnum|].
  destruct (addTransaction_history "SELL" "OGDC" (Z2Qc 120) (Z2Qc 150) mar_1_2025 0%Z
              twoBuys Hnum Hnosell) as (_ & _ & (new & Htx & _ & Hnew) & _).
  rewrite Htx, (Hnew eq_refl), app_nil_r. reflexivity.
Defined.

(** ** The timing of a sale *)

(** Whether [calculateSale] fails does not depend on the date, and neither
    does its error. *)
Lemma calculateSale_cases (q : FIFOQueue) (symbol0 : string) (quantity0 price0 : Qc) :
  (exists e, forall date, calculateSale symbol0 quantity0 price0 date q = (inl e, q)) \/
  (exists lots,
      holdings q !! toUpperCase symbol0 = Some lots /\
      forall date, calculateSale symbol0 quantity0 price0 date q =
                     (inr (simulatedSale lots symbol0 quantity0 price0 date), q)).
Proof.
  unfold calculateSale, bind, get, throw, ret.
  destruct (holdings q !! toUpperCase symbol0) as [lots|];
    [|left; eexists; intros date; reflexivity].
  destruct lots as [|lot0 rest]; [left; eexists; intros date; reflexivity|].
  destruct (ltb _ quantity0); [left; eexists; intros date; reflexivity|].
  right. exists (lot0 :: rest). split; [reflexivity|]. intros date.
  rewrite simulateLoop_sellLoop, sellLoop_fifo. unfold simulatedSale.
  assert (Hb : 0 + costOfTakes (lot0 :: rest) (fifoTakes (lot0 :: rest) quantity0) =
               costOfTakes (lot0 :: rest) (fifoTakes (lot0 :: rest) quantity0)) by ring.
  rewrite Hb. reflexivity.
Qed.

(** A later settlement never raises the tax of the simulated sale. *)
Lemma simulatedSale_tax_le (isFiler : bool) (lots : list Lot) (symbol0 : string)
    (quantity0 price0 : Qc) (d1 d2 : Date) :
  (calculateSettlementDate d1 <= calculateSettlementDate d2)%Z ->
  totalTax (calculateTaxForSale isFiler (simulatedSale lots symbol0 quantity0 price0 d2)) <=
  totalTax (calculateTaxForSale isFiler (simulatedSale lots symbol0 quantity0 price0 d1)).
Proof.
  intros Hle. rewrite !totalTax_lots. cbn [simulatedSale lotsUsed sellPrice].
  unfold usedEntries. rewrite !map_map. apply total_le.
  induction (touchedLots lots (fifoTakes lots quantity0)) as [|[lot t] rest IH];
    cbn [map]; constructor; [|exact IH].
  apply lotTax_rate_le; try reflexivity.
  cbn [usedEntry lu_purchaseDate holdingPeriod]. rewrite !getHoldingPeriod_days.
  apply getTaxRate_antitone. apply Z.div_le_mono; [unfold msPerDay; lia | lia].
Qed.

Lemma lowestTax_spec (others : list Scenario) :
  forall first : Scenario,
    In (lowestTax first others) (first :: others) /\
    sc_tax (lowestTax first others) <= sc_tax first /\
    Forall (fun sc => sc_tax (lowestTax first others) <= sc_tax sc) others.
Proof.
  unfold lowestTax.
  induction others as [|current rest IH]; intros first; cbn [fold_left].
  - split; [left; reflexivity|]. split; [apply Qcle_refl | constructor].
  - destruct (ltb (sc_tax current) (sc_tax first)) eqn:E.
    + destruct (IH current) as (Hin & Hle & Hall).
      split; [right; exact Hin|].
      apply ltb_lt in E.
      remember (sc_tax (fold_left _ rest current)) as b.
      split; [clear - Hle E; qc_lra|]. constructor; assumption.
    + destruct (IH first) as (Hin & Hle & Hall).
      split; [destruct Hin as [Hin | Hin]; [left; exact Hin | right; right; exact Hin]|].
      split; [exact Hle|].
      apply ltb_ge in E.
      remember (sc_tax (fold_left _ rest first)) as b.
      constructor; [clear - Hle E; qc_lra | exact Hall].
Qed.

Lemma futureScenarios_run (isFiler : bool) (symbol0 : string) (quantity0 price0 : Qc)
    (today : Date) (q : FIFOQueue) (lots : list Lot) (taxToday : TaxResult)
    (first : Scenario) :
  (forall date, calculateSale symbol0 quantity0 price0 date q =
                  (inr (simulatedSale lots symbol0 quantity0 price0 date), q)) ->
  fold_left (pushFutureScenario isFiler symbol0 quantity0 price0 today taxToday)
            delays ([first], q) =
  (first ::
   map (fun days =>
          let taxFuture :=
            calculateTaxForSale isFiler
              (simulatedSale lots symbol0 quantity0 price0 (today + days * msPerDay)%Z) in
          {| sc_date := (today + days * msPerDay)%Z;
             daysFromNow := days;
             sc_tax := totalTax taxFuture;
             sc_netProfit := netProfit taxFuture;
             sc_effectiveTaxRate := effectiveTaxRate taxFuture;
             sc_taxSavings := Some (totalTax taxToday - totalTax taxFuture) |}) delays,
   q).
Proof.
  intros Hs. unfold delays. cbn [fold_left]. unfold pushFutureScenario.
  rewrite !Hs. reflexivity.
Qed.

(** X23.  An [analyzeOptimalTiming] that returns has left the ledger as it
    was and lists five scenarios, for today and for the four delays; no
    scenario carries more tax than a sale today; the optimal one is among
    them and none carries less tax; the savings potential is not negative,
    and selling now is advised exactly when it is zero.  A call that fails has
    left the ledger as it was too. *)
Theorem analyzeOptimalTiming_spec (isFiler : bool) (symbol0 : string)
    (quantity0 price0 : Qc) (today : Date) (q q' : FIFOQueue)
    (res : Error + TimingAnalysis) :
  analyzeOptimalTiming isFiler symbol0 quantity0 price0 today q = (res, q') ->
  q' = q /\
  forall r, res = inr r ->
    map daysFromNow (scenarios r) = 0%Z :: delays /\
    map sc_date (scenarios r) =
      today :: map (fun days => (today + days * msPerDay)%Z) delays /\
    (exists first, head (scenarios r) = Some first /\ sc_taxSavings first = None /\
       Forall (fun sc => sc_tax sc <= sc_tax first) (scenarios r) /\
       Forall (fun sc => sc_taxSavings sc = Some (sc_tax first - sc_tax sc))
              (tl (scenarios r)) /\
       savingsPotential r = sc_tax first - sc_tax (optimal r)) /\
    In (optimal r) (scenarios r) /\
    Forall (fun sc => sc_tax (optimal r) <= sc_tax sc) (scenarios r) /\
    0 <= savingsPotential r /\
    (sellNow r = true <-> savingsPotential r = 0).
Proof.
  unfold analyzeOptimalTiming. unfold bind at 1, get at 1.
  destruct (holdings q !! toUpperCase symbol0) as [held|];
    [|intros [= <- <-]; split; [reflexivity | discriminate]].
  destruct held as [|held0 heldRest];
    [intros [= <- <-]; split; [reflexivity | discriminate]|].
  unfold bind.
  destruct (calculateSale_cases q symbol0 quantity0 price0)
    as [[e He] | (lots & _ & Hs)].
  { rewrite He. intros [= <- <-]. split; [reflexivity | discriminate]. }
  rewrite Hs, (futureScenarios_run _ _ _ _ _ _ lots _ _ Hs).
  cbv beta iota zeta.
  match goal with
  | |- context [lowestTax ?f ?o] =>
      pose proof (lowestTax_spec o f) as (Hin & Hle & Hall);
      remember (lowestTax f o) as best eqn:Ebest
  end.
  clear Ebest. unfold delays in Hin, Hall |- *. cbn [sc_tax tl map] in Hin, Hle, Hall |- *.
  pose proof (fun (n : Z) (Hn : (2 <= n)%Z) =>
                simulatedSale_tax_le isFiler lots symbol0 quantity0 price0 today
                  (today + n * msPerDay)%Z
                  (calculateSettlementDate_later today n Hn)) as Hlater.
  pose proof (Hlater 30%Z ltac:(lia)) as H30.
  pose proof (Hlater 90%Z ltac:(lia)) as H90.
  pose proof (Hlater 180%Z ltac:(lia)) as H180.
  pose proof (Hlater 365%Z ltac:(lia)) as H365.
  clear Hlater Hs.
  intros [= <- <-]. split; [reflexivity|]. intros r [= <-].
  cbn [scenarios optimal savingsPotential sellNow map daysFromNow sc_date head tl].
  split; [reflexivity|]. split; [reflexivity|].
  split.
  { eexists. split; [reflexivity|]. cbn [sc_taxSavings sc_tax].
    split; [reflexivity|].
    split; [repeat constructor; cbn [sc_tax]; first [apply Qcle_refl | assumption]|].
    split; [repeat constructor | reflexivity]. }
  split; [exact Hin|].
  split; [constructor; [exact Hle | exact Hall]|].
  remember (totalTax (calculateTaxForSale isFiler
                        (simulatedSale lots symbol0 quantity0 price0 today))) as a.
  remember (sc_tax best) as b.
  split; [clear - Hle; qc_lra|].
  split.
  - intros H. apply leb_le in H. clear - H Hle. qc_lra.
  - intros H. apply leb_le. rewrite H. apply Qcle_refl.
Qed.

Lemma analyzeOptimalTiming_spec_witness :
  snd (analyzeOptimalTiming true "ogdc" (Z2Qc 120) (Z2Qc 150) mar_1_2025 twoBuys) = twoBuys.
Proof.
  destruct (analyzeOptimalTiming true "ogdc" (Z2Qc 120) (Z2Qc 150) mar_1_2025 twoBuys)
    as [res q'] eqn:Hrun.
  exact (proj1 (analyzeOptimalTiming_spec _ _ _ _ _ _ _ _ Hrun)).
Defined.

(** ** Holding periods *)

Lemma getMonth_range (d : Date) : (0 <= getMonth d <= 11)%Z.
Proof.
  unfold getMonth, civilFromDays. cbv zeta. cbn [fst snd].
  remember (dayNumber d + 719468)%Z as z eqn:Ez. clear Ez d.
  remember (z - z / 146097 * 146097)%Z as doe eqn:Edoe.
  assert (Hdoe : (0 <= doe <= 146096)%Z).
  { subst doe. pose proof (Z.mod_pos_bound z 146097 ltac:(lia)) as Hm.
    rewrite Z.mod_eq in Hm by lia. lia. }
  clear Edoe z.
  remember ((doe - doe / 1460 + doe / 36524 - doe / 146096) / 365)%Z as yoe eqn:Eyoe.
  remember (doe - (365 * yoe + yoe / 4 - yoe / 100))%Z as doy eqn:Edoy.
  assert (Hdoy : (0 <= doy <= 365)%Z).
  { subst doy yoe. Z.to_euclidean_division_equations. lia. }
  clear Edoy Eyoe.
  remember ((5 * doy + 2) / 153)%Z as mp eqn:Emp.
  assert (Hmp : (0 <= mp <= 11)%Z).
  { subst mp. Z.to_euclidean_division_equations. lia. }
  destruct (mp <? 10)%Z eqn:E; [apply Z.ltb_lt in E | apply Z.ltb_ge in E]; lia.
Qed.

(** X24.  The holding period in calendar terms: [months] is the number of
    calendar months between the two dates, whichever way the adjustment of a
    negative month difference went; [years] is that number divided by 12,
    rounded down; [days] is the number of whole days elapsed; and the holding
    is long-term exactly from 365 whole days on. *)
Theorem getHoldingPeriod_calendar (purchase sell : Date) :
  let hp := getHoldingPeriod purchase sell in
  months hp = (12 * (getFullYear sell - getFullYear purchase) +
               (getMonth sell - getMonth purchase))%Z /\
  years hp = (months hp / 12)%Z /\
  (days hp * msPerDay <= sell - purchase < (days hp + 1) * msPerDay)%Z /\
  (isLongTerm hp = true <-> (365 * msPerDay <= sell - purchase)%Z).
Proof.
  intros hp. subst hp. unfold getHoldingPeriod.
  pose proof (getMonth_range purchase) as Hp. pose proof (getMonth_range sell) as Hs.
  remember (getMonth purchase) as m1. remember (getMonth sell) as m2.
  remember (getFullYear purchase) as y1. remember (getFullYear sell) as y2.
  assert (Hms : (0 < msPerDay)%Z) by (unfold msPerDay; lia).
  assert (Hdays : ((sell - purchase) / msPerDay * msPerDay <= sell - purchase <
                   ((sell - purchase) / msPerDay + 1) * msPerDay)%Z).
  { pose proof (Z.mod_pos_bound (sell - purchase) msPerDay Hms) as Hm.
    rewrite Z.mod_eq in Hm by lia. nia. }
  assert (Hlong : ((365 <=? (sell - purchase) / msPerDay)%Z = true <->
                   (365 * msPerDay <= sell - purchase)%Z)).
  { rewrite Z.leb_le. split; intros H.
    - nia.
    - apply Z.div_le_lower_bound; lia. }
  destruct (m2 - m1 <? 0)%Z eqn:E; [apply Z.ltb_lt in E | apply Z.ltb_ge in E];
    cbn [months years days isLongTerm].
  - split; [lia|]. split; [|split; assumption].
    apply Z.div_unique with (r := (m2 - m1 + 12)%Z); lia.
  - split; [lia|]. split; [|split; assumption].
    apply Z.div_unique with (r := (m2 - m1)%Z); lia.
Qed.

(** ** The break-even price *)

(** X25.  [calculateBreakEven] fails only for a symbol without holdings.
    Otherwise the quantity is positive, the break-even price without tax is
    the average cost, and the one with tax is the average cost divided by
    one minus a rate between 0 and 15 % (the rate of the first lot of the
    queue, none when the tax is left out); for an average cost that is not
    negative it is not below the average cost.  A sale of the whole position
    at that price, taxed at that rate on its gain, leaves the cost basis times
    the rate. *)
Theorem calculateBreakEven_spec (isFiler : bool) (symbol0 : string) (includeTax : bool)
    (now : Date) (q : FIFOQueue) :
  match calculateBreakEven isFiler symbol0 includeTax now q with
  | inl e => e = NoHoldingsFound symbol0 /\ getHoldings q !! toUpperCase symbol0 = None
  | inr r =>
      0 < be_quantity r /\
      be_averageCost r * be_quantity r = be_totalCostBasis r /\
      breakEvenNoTax r = be_averageCost r /\
      taxImpact r = breakEvenWithTax r - breakEvenNoTax r /\
      exists rate : Qc,
        0 <= rate /\ rate <= Q2Qc 0.15 /\
        (includeTax = false -> rate = 0) /\
        (includeTax = true ->
         exists firstLot, head (lotsOf q (toUpperCase symbol0)) = Some firstLot /\
           rate = getTaxRate isFiler (purchaseDate firstLot)
                    ((now - purchaseDate firstLot) / msPerDay)%Z) /\
        breakEvenWithTax r * (1 - rate) = be_averageCost r /\
        (breakEvenWithTax r - be_averageCost r) * be_quantity r * (1 - rate) =
          be_totalCostBasis r * rate /\
        (0 <= be_averageCost r -> breakEvenNoTax r <= breakEvenWithTax r)
  end.
Proof.
  unfold calculateBreakEven, getHoldings, lotsOf. rewrite lookup_omap.
  destruct (holdings q !! toUpperCase symbol0) as [lots|];
    cbn [mbind option_bind default from_option id]; [|split; reflexivity].
  unfold summarize.
  destruct (ltb 0 (sumOf remainingQuantity lots)) eqn:E; [|split; reflexivity].
  apply ltb_lt in E.
  remember (sumOf remainingQuantity lots) as n eqn:En.
  remember (sumOf (fun lot => remainingQuantity lot * price lot) lots) as v eqn:Ev.
  cbn [averageCost totalQuantity hs_totalCostBasis].
  assert (Hn : n <> 0) by (intros H0; rewrite H0 in E; clear - E; qc_lra).
  assert (Havg : v / n * n = v) by (field; exact Hn).
  assert (Hrate : forall rate : Qc,
            0 <= rate -> rate <= Q2Qc 0.15 ->
            v / n / (1 - rate) * (1 - rate) = v / n /\
            (v / n / (1 - rate) - v / n) * n * (1 - rate) = v * rate /\
            (0 <= v / n -> v / n <= v / n / (1 - rate))).
  { intros rate H0 H15.
    assert (H1 : 1 - rate <> 0).
    { intros Hz. assert (Hlt : Q2Qc 0.15 < 1) by qc_decide.
      remember (Q2Qc 0.15) as c. clear - Hz H15 Hlt. qc_lra. }
    assert (Hpos : 0 < 1 - rate).
    { assert (Hlt : Q2Qc 0.15 < 1) by qc_decide.
      remember (Q2Qc 0.15) as c. clear - H15 Hlt. qc_lra. }
    split; [field; split; assumption|].
    split; [field; split; assumption|].
    intros Ha. remember (v / n) as a eqn:Ea.
    assert (Hb : a / (1 - rate) * (1 - rate) = a) by (field; exact H1).
    remember (a / (1 - rate)) as b. clear - Ha Hb Hpos H0. qc_nra. }
  destruct includeTax.
  - destruct lots as [|firstLot rest].
    { exfalso. subst n. clear - E. vm_compute in E. discriminate E. }
    cbn [be_quantity be_averageCost be_totalCostBasis breakEvenNoTax breakEvenWithTax
         taxImpact head].
    split; [exact E|]. split; [exact Havg|]. split; [reflexivity|]. split; [reflexivity|].
    remember (getTaxRate isFiler (purchaseDate firstLot)
                ((now - purchaseDate firstLot) / msPerDay)%Z) as rate eqn:Er.
    assert (H0 : 0 <= rate) by (subst rate; apply getTaxRate_nonneg).
    assert (H15 : rate <= Q2Qc 0.15) by (subst rate; apply getTaxRate_at_most_15).
    destruct (Hrate rate H0 H15) as (Ha & Hb & Hc).
    exists rate. split; [exact H0|]. split; [exact H15|]. split; [discriminate|].
    split; [intros _; exists firstLot; split; [reflexivity | exact Er]|].
    split; [exact Ha|]. split; [exact Hb | exact Hc].
  - cbn [be_quantity be_averageCost be_totalCostBasis breakEvenNoTax breakEvenWithTax
         taxImpact].
    split; [exact E|]. split; [exact Havg|]. split; [reflexivity|]. split; [reflexivity|].
    exists 0. split; [apply Qcle_refl|]. split; [qc_decide|]. split; [reflexivity|].
    split; [discriminate|].
    split; [ring|]. split; [ring | intros _; apply Qcle_refl].
Qed.

(** ** The summary of the actions *)

Lemma dedupe_spec (l : list string) :
  forall seen : list string,
    NoDup (dedupe seen l) /\
    (forall x, In x (dedupe seen l) <-> In x l /\ ~ In x seen).
Proof.
  induction l as [|x r IH]; intros seen; cbn [dedupe].
  - split; [constructor|]. intros y. cbn [In]. tauto.
  - destruct (existsb (String.eqb x) seen) eqn:E.
    + destruct (IH seen) as [Hnd Hin]. split; [exact Hnd|].
      assert (Hx : In x seen).
      { apply existsb_exists in E. destruct E as (y & Hy & Heq).
        apply String.eqb_eq in Heq. subst y. exact Hy. }
      intros y. rewrite Hin. cbn [In]. split.
      * intros [H1 H2]. tauto.
      * intros [[<- | H1] H2]; [contradiction | tauto].
    + destruct (IH (x :: seen)) as [Hnd Hin].
      assert (Hx : ~ In x seen).
      { intros Hx. assert (Ht : existsb (String.eqb x) seen = true).
        { apply existsb_exists. exists x. split; [exact Hx | apply String.eqb_refl]. }
        rewrite Ht in E. discriminate E. }
      split.
      * constructor; [|exact Hnd]. intros Hc. apply list_elem_of_In, Hin in Hc.
        cbn [In] in Hc. tauto.
      * intros y. cbn [In]. rewrite Hin. cbn [In].
        destruct (string_dec x y) as [<- | Hne]; tauto.
Qed.

Lemma applyCorporateAction_failure_actions (symbol0 actionType0 : string)
    (details : Details) (now : Date) (m m' : CorporateActionsManager) (e : Error) :
  applyCorporateAction symbol0 actionType0 details now m = (inl e, m') ->
  corporateActions m' = corporateActions m.
Proof.
  intros Hrun. unfold applyCorporateAction in Hrun.
  destruct (validateInputs_pure (toUpperCase symbol0) (toUpperCase actionType0) details)
    as (res & Hval & _).
  unfold bind at 1 in Hrun. rewrite Hval in Hrun.
  destruct res as [e0 | exDate]; [injection Hrun as _ <-; reflexivity|].
  unfold bind at 1, get at 1 in Hrun.
  destruct (_isActionAlreadyApplied _ _ _ _); [injection Hrun as _ <-; reflexivity|].
  destruct (getHoldings (fifoQueue m) !! toUpperCase symbol0);
    [|injection Hrun as _ <-; reflexivity].
  unfold bind at 1 in Hrun.
  destruct (String.eqb (toUpperCase actionType0) "BONUS").
  - pose proof (applyBonusShares_actions (toUpperCase symbol0) details exDate m) as Ha.
    destruct (_applyBonusShares (toUpperCase symbol0) details exDate m)
      as [[e1 | result] mq]; [|discriminate].
    injection Hrun as _ <-. exact Ha.
  - destruct (String.eqb (toUpperCase actionType0) "RIGHT").
    + pose proof (applyRightIssue_actions (toUpperCase symbol0) details exDate m) as Ha.
      destruct (_applyRightIssue (toUpperCase symbol0) details exDate m)
        as [[e1 | result] mq]; [|discriminate].
      injection Hrun as _ <-. exact Ha.
    + injection Hrun as _ <-. reflexivity.
Qed.

Lemma markReversed_types (actionId : Z) (now : Date) (actions : list ActionRecord) :
  map ca_type (markReversed actionId now actions) = map ca_type actions /\
  map ca_symbol (markReversed actionId now actions) = map ca_symbol actions.
Proof.
  induction actions as [|a rest [IH1 IH2]]; cbn [markReversed]; [split; reflexivity|].
  destruct (ca_id a =? actionId)%Z; cbn [map ca_type ca_symbol]; [split; reflexivity|].
  rewrite IH1, IH2. split; reflexivity.
Qed.

Lemma count_types (actions : list ActionRecord) :
  Forall (fun a => ca_type a = "BONUS"%string \/ ca_type a = "RIGHT"%string) actions ->
  length actions =
    (length (List.filter (fun a => String.eqb (ca_type a) "BONUS") actions) +
     length (List.filter (fun a => String.eqb (ca_type a) "RIGHT") actions))%nat.
Proof.
  induction 1 as [|a rest Ha _ IH]; cbn [List.filter length]; [reflexivity|].
  destruct Ha as [-> | ->]; cbn [String.eqb Ascii.eqb Bool.eqb length]; lia.
Qed.

Lemma filter_nonempty {A : Type} (p : A -> bool) (l : list A) :
  List.filter p l <> [] <-> exists a, In a l /\ p a = true.
Proof.
  induction l as [|x l IH]; cbn [List.filter In].
  - split; [intros H; contradiction | intros (a & [] & _)].
  - destruct (p x) eqn:E.
    + split; [intros _; exists x; tauto | discriminate].
    + rewrite IH. split.
      * intros (a & Ha & Hp). exists a. tauto.
      * intros (a & [<- | Ha] & Hp); [rewrite E in Hp; discriminate | exists a; tauto].
Qed.

(** X26.  Every action that [applyCorporateAction] records is a bonus or a
    right issue, and a reversal keeps the type and the symbol of every
    record; so in the summary the bonus actions and the right actions add up
    to the total, reversed ones included, and the symbols affected are the
    symbols of the actions, each listed once: those for which
    [getCorporateActions] has something to list. *)
Theorem getSummary_counts (m : CorporateActionsManager) :
  actionTypesKnown m ->
  (forall symbol0 actionType0 details now,
      actionTypesKnown (snd (applyCorporateAction symbol0 actionType0 details now m))) /\
  (forall actionId now,
      let m' := snd (reverseCorporateAction actionId now m) in
      actionTypesKnown m' /\
      map ca_type (corporateActions m') = map ca_type (corporateActions m) /\
      map ca_symbol (corporateActions m') = map ca_symbol (corporateActions m)) /\
  totalActions (getSummary m) = (bonusActions (getSummary m) + rightActions (getSummary m))%nat /\
  NoDup (symbolsAffected (getSummary m)) /\
  (forall s, In s (symbolsAffected (getSummary m)) <->
             exists a, In a (corporateActions m) /\ ca_symbol a = s) /\
  (forall s, s <> ""%string ->
             (getCorporateActions (Some s) m <> [] <->
              In (toUpperCase s) (symbolsAffected (getSummary m)))).
Proof.
  unfold actionTypesKnown. intros Hknown.
  assert (Hsymbols : forall s, In s (symbolsAffected (getSummary m)) <->
                               exists a, In a (corporateActions m) /\ ca_symbol a = s).
  { intros s. unfold getSummary. cbn [symbolsAffected].
    destruct (dedupe_spec (map ca_symbol (corporateActions m)) []) as [_ Hin].
    rewrite Hin, in_map_iff. cbn [In]. split.
    - intros [(a & Ha & Hi) _]. exists a. tauto.
    - intros (a & Hi & Ha). split; [exists a; tauto | tauto]. }
  split; [|split; [|split; [|split; [|split; [exact Hsymbols|]]]]].
  - intros symbol0 actionType0 details now.
    destruct (applyCorporateAction symbol0 actionType0 details now m)
      as [[e | record] m'] eqn:Hrun; cbn [snd].
    + rewrite (applyCorporateAction_failure_actions _ _ _ _ _ _ _ Hrun). exact Hknown.
    + destruct (applyCorporateAction_success _ _ _ _ _ _ _ Hrun)
        as (exDate & result & mq & _ & Hkind & Hacts & Hrec & Hm').
      rewrite Hm'. unfold pushAction. cbn [corporateActions]. rewrite Hacts.
      apply Forall_app. split; [exact Hknown|]. constructor; [|constructor].
      rewrite Hrec. cbn [ca_type]. destruct Hkind as [[Ht _] | [Ht _]]; tauto.
  - intros actionId now.
    assert (Hmaps : map ca_type (corporateActions (snd (reverseCorporateAction actionId now m)))
                      = map ca_type (corporateActions m) /\
                    map ca_symbol (corporateActions (snd (reverseCorporateAction actionId now m)))
                      = map ca_symbol (corporateActions m)).
    { destruct (reverseCorporateAction actionId now m) as [[e | []] m'] eqn:Hrun; cbn [snd].
      - unfold reverseCorporateAction in Hrun. unfold bind at 1, get at 1 in Hrun.
        assert (Hsame : m' = m).
        { destruct (find _ (corporateActions m)) as [action|];
            [|injection Hrun as _ <-; reflexivity].
          destruct (negb (applied action)); [injection Hrun as _ <-; reflexivity|].
          destruct (0 <? _)%nat; [injection Hrun as _ <-; reflexivity|].
          unfold bind at 1 in Hrun.
          destruct (reverse_step_run action m) as [[e0 Hf] | (m1 & Hs & _)].
          - rewrite Hf in Hrun. injection Hrun as _ <-. reflexivity.
          - rewrite Hs in Hrun. discriminate Hrun. }
        rewrite Hsame. split; reflexivity.
      - unfold reverseCorporateAction in Hrun. unfold bind at 1, get at 1 in Hrun.
        destruct (find _ (corporateActions m)) as [action|]; [|discriminate].
        destruct (negb (applied action)); [discriminate|].
        destruct (0 <? _)%nat; [discriminate|].
        unfold bind at 1 in Hrun.
        destruct (reverse_step_run action m) as [[e0 Hf] | (m1 & Hs & Hacts & _)].
        { rewrite Hf in Hrun. discriminate Hrun. }
        rewrite Hs in Hrun. unfold modify in Hrun. injection Hrun as <-.
        cbn [corporateActions]. rewrite Hacts. apply markReversed_types. }
    split; [|exact Hmaps]. destruct Hmaps as [Hty _].
    assert (Hgen : forall l1 l2 : list ActionRecord,
               map ca_type l1 = map ca_type l2 ->
               Forall (fun a => ca_type a = "BONUS"%string \/ ca_type a = "RIGHT"%string) l2 ->
               Forall (fun a => ca_type a = "BONUS"%string \/ ca_type a = "RIGHT"%string) l1).
    { induction l1 as [|a l1 IH]; intros l2 Hmap Hall; [constructor|].
      destruct l2 as [|b l2]; [discriminate|]. cbn [map] in Hmap. injection Hmap as Ha Hl.
      inversion Hall as [|? ? Hb Hrest]; subst.
      constructor; [rewrite Ha; exact Hb | exact (IH l2 Hl Hrest)]. }
    exact (Hgen _ _ Hty Hknown).
  - unfold getSummary. cbn [totalActions bonusActions rightActions].
    apply count_types, Hknown.
  - unfold getSummary. cbn [symbolsAffected]. apply dedupe_spec.
  - intros s Hs. rewrite Hsymbols. unfold getCorporateActions.
    destruct (String.eqb_spec s ""); [contradiction|].
    rewrite filter_nonempty. split.
    + intros (a & Ha & Hp). apply String.eqb_eq in Hp. exists a. tauto.
    + intros (a & Ha & Hp). exists a. split; [exact Ha | apply String.eqb_eq; exact Hp].
Qed.

Lemma getSummary_counts_witness :
  actionTypesKnown hundredShares /\
  totalActions
    (getSummary (snd (applyCorporateAction "hbl" "bonus" bonus20 jun_1_2025 hundredShares)))
  = 1%nat.
Proof.
  assert (Hknown : actionTypesKnown hundredShares) by constructor.
  split; [exact Hknown|].
  destruct (getSummary_counts hundredShares Hknown) as (Happly & _).
  specialize (Happly "hbl"%string "bonus"%string bonus20 jun_1_2025).
  destruct (getSummary_counts _ Happly) as (_ & _ & Hcount & _).
  rewrite Hcount. vm_compute. reflexivity.
Defined.
